(** * arrowFocus: keyboard navigation engine of [src/behaviors/arrowFocus.ts]

    A shallow embedding of the [arrowFocus] behaviour: the closure variables
    of one call of [arrowFocus] together with the part of the DOM the
    handlers read and write form one record, [World]; every function of the
    source is a function on worlds.  What the source obtains from modules
    that are not part of the file ([isMacOS], [uniqueId], [isFocusable],
    [iterateFocusableElements]) and from the browser (document order,
    [container.contains], the synchronous reaction to [element.focus()]) is
    collected in the record [Platform].

    The debugging output of the source ([console.log]) is left out;
    [console.warn] is kept as an effect. *)

From Stdlib Require Import ZArith Lia Bool List Ascii String DecimalString Sorted.
From stdpp Require Import base decidable option list sorting strings gmap.

Open Scope string_scope.
Open Scope list_scope.
Open Scope Z_scope.

(** ** Elements, keys and events *)

(** DOM elements are opaque handles compared by identity. *)
Abbreviation HTMLElement := nat (only parsing).

Inductive Direction := previous | next.

#[global] Instance Direction_eq_dec : EqDecision Direction.
Proof. solve_decision. Defined.

(** What the handlers find out about [document.activeElement] through
    [instanceof] and the selection properties. *)
Inductive ElementKind :=
| TextInput (selectionStart selectionEnd valueLength : Z)
| TextArea (selectionStart selectionEnd valueLength : Z)
| SelectElement
| OtherElement.

Record ActiveElement := mkActive {
  activeHandle : HTMLElement;
  activeKind : ElementKind
}.

(** A [KeyboardEvent], with the value of [document.activeElement] at the
    time the handler runs. *)
Record KeyboardEvent := mkKey {
  key : string;
  shiftKey : bool;
  metaKey : bool;
  ctrlKey : bool;
  defaultPrevented : bool;
  keyActive : option ActiveElement
}.

(** [target] is [None] when [event.target instanceof HTMLElement] fails. *)
Record MouseEvent := mkMouse {
  mouseTarget : option HTMLElement;
  mouseActive : option HTMLElement
}.

(** [relatedTarget] is [None] when it is not an [Element]. *)
Record FocusEvent := mkFocus {
  focusTarget : option HTMLElement;
  relatedTarget : option HTMLElement
}.

(** A mutation record: the [HTMLElement] members of [addedNodes] and of
    [removedNodes], in order (other nodes are skipped by the source). *)
Record MutationRecord := mkMutation {
  addedNodes : list HTMLElement;
  removedNodes : list HTMLElement
}.

(** ** The key tables *)

Module KeyBits.
Definition ArrowHorizontal : Z := 1.
Definition ArrowVertical : Z := 2.
Definition JK : Z := 4.
Definition HL : Z := 8.
Definition HomeAndEnd : Z := 16.
Definition PageUpDown : Z := 256.
Definition WS : Z := 32.
Definition AD : Z := 64.
Definition Tab : Z := 128.
Definition ArrowAll : Z := Z.lor ArrowHorizontal ArrowVertical.
Definition HJKL : Z := Z.lor JK HL.
Definition WASD : Z := Z.lor WS AD.
Definition All : Z :=
  Z.lor (Z.lor (Z.lor (Z.lor (Z.lor ArrowAll HJKL) HomeAndEnd) PageUpDown) WASD) Tab.
End KeyBits.

Definition keyTable : list (string * (Z * Direction)) :=
  [ ("ArrowLeft", (1, previous)); ("ArrowDown", (2, next));
    ("ArrowUp", (2, previous)); ("ArrowRight", (1, next));
    ("h", (8, previous)); ("j", (4, next)); ("k", (4, previous)); ("l", (8, next));
    ("a", (64, previous)); ("s", (32, next)); ("w", (32, previous)); ("d", (64, next));
    ("Tab", (128, next)); ("Home", (16, previous)); ("End", (16, next));
    ("PageUp", (256, previous)); ("PageDown", (256, next)) ].

Fixpoint assoc {A} (k : string) (l : list (string * A)) : option A :=
  match l with
  | [] => None
  | (k', v) :: t => if String.eqb k k' then Some v else assoc k t
  end.

(** [KEY_TO_BIT[key]] and [KEY_TO_DIRECTION[key]].  A key that is not an own
    property of the tables gives [None]; for the inherited property names
    ([toString] and the like) the source finds a non-number in [KEY_TO_BIT],
    whose bitwise and with [bindKeys] is 0, so that the keypress is dropped
    exactly as for [None]. *)
Definition KEY_TO_BIT (k : string) : option Z := fst <$> assoc k keyTable.
Definition KEY_TO_DIRECTION (k : string) : option Direction := snd <$> assoc k keyTable.

Definition isTab (k : string) : bool := String.eqb k "Tab".

Definition getDirection (ev : KeyboardEvent) : option Direction :=
  let direction := KEY_TO_DIRECTION (key ev) in
  if isTab (key ev) && shiftKey ev then Some previous else direction.

(** [[...key].length]: the number of code points of [key], the string
    being held in UTF-8 (continuation bytes 0x80..0xBF do not count). *)
Fixpoint keyLength (k : string) : Z :=
  match k with
  | EmptyString => 0
  | String c t =>
      let b := Z.of_N (N_of_ascii c) in
      (if (128 <=? b) && (b <? 192) then 0 else 1) + keyLength t
  end.

Definition isTextInput (a : option ActiveElement) : bool :=
  match activeKind <$> a with
  | Some (TextInput _ _ _) | Some (TextArea _ _ _) => true
  | _ => false
  end.

Definition isSelect (a : option ActiveElement) : bool :=
  match activeKind <$> a with Some SelectElement => true | _ => false end.

Definition isTextArea (a : option ActiveElement) : bool :=
  match activeKind <$> a with Some (TextArea _ _ _) => true | _ => false end.

Definition cursorAtStart (a : option ActiveElement) : bool :=
  match activeKind <$> a with
  | Some (TextInput s e _) | Some (TextArea s e _) => (s =? 0) && (e =? 0)
  | _ => false
  end.

Definition cursorAtEnd (a : option ActiveElement) : bool :=
  match activeKind <$> a with
  | Some (TextInput s e n) | Some (TextArea s e n) => (s =? n) && (e =? n)
  | _ => false
  end.

Definition shouldIgnoreFocusHandling (isMacOS : bool) (ev : KeyboardEvent)
    (activeElement : option ActiveElement) : bool :=
  let k := key ev in
  let len := keyLength k in
  if isTextInput activeElement
     && ((len =? 1) || String.eqb k "Home" || String.eqb k "End") then true
  else if isSelect activeElement
     && ((String.eqb k "ArrowDown"
           && negb (if isMacOS then metaKey ev else ctrlKey ev))
         || (len =? 1)) then true
  else if isTextArea activeElement
     && (String.eqb k "PageUp" || String.eqb k "PageDown") then true
  else if isTextInput activeElement then
    if String.eqb k "ArrowLeft" && negb (cursorAtStart activeElement) then true
    else if String.eqb k "ArrowRight" && negb (cursorAtEnd activeElement) then true
    else if isTextArea activeElement then
      if String.eqb k "ArrowUp" && negb (cursorAtStart activeElement) then true
      else if String.eqb k "ArrowDown" && negb (cursorAtEnd activeElement) then true
      else false
    else false
  else false.

(** ** Options *)

Inductive FocusInStrategy :=
| StrategyFirst
| StrategyPrevious
| StrategyFunction (f : HTMLElement -> option HTMLElement).

(** [activeDescendantOptions]: the controlling element, and whether
    [onActiveDescendantChanged] is supplied (its calls are effects). *)
Record ActiveDescendantOptions := mkADOptions {
  controllingElement : HTMLElement;
  onActiveDescendantChanged : bool
}.

Record ArrowFocusOptions := mkOptions {
  circular : option bool;
  getNextFocusable :
    option (Direction -> bool -> option HTMLElement -> KeyboardEvent -> option HTMLElement);
  focusableElementFilter : option (HTMLElement -> gmap (nat * string) string -> bool);
  bindKeys : option Z;
  abortSignal : bool;
  activeDescendantOptions : option ActiveDescendantOptions;
  focusInStrategy : option FocusInStrategy
}.

(** ** The world: closure variables, DOM attributes, wiring, effects *)

Inductive Effect :=
| FocusCall (e : HTMLElement)
| ActiveDescendantChanged (newActive previousActive : option HTMLElement)
| ConsoleWarn (message : string)
| UncaughtTypeError
| PreventDefault.

(** The signal of the [AbortController] that [arrowFocus] creates and
    returns, and the signal the caller passes as [options.abortSignal]. *)
Inductive Signal := ControllerSignal | CallerSignal.

Inductive EventType := MouseDownEvent | FocusInEvent | KeyDownEvent | FocusOutEvent.

#[global] Instance Signal_eq_dec : EqDecision Signal.
Proof. solve_decision. Defined.

#[global] Instance EventType_eq_dec : EqDecision EventType.
Proof. solve_decision. Defined.

(** One [addEventListener] call: the event and the [signal] option. *)
Record Registration := mkReg {
  regEvent : EventType;
  regSignal : option Signal
}.

(** The seven closure variables of [arrowFocus] under their names, then
    the attributes of the document keyed by element and attribute name, the
    number of identifiers [uniqueId] has produced, the listeners in place,
    whether the mutation observer is connected, and what the engine has
    called so far. *)
Record World := mkWorld {
  tabbableElements : list HTMLElement;
  savedTabIndex : gmap nat (option string);
  allSeenTabbableElements : gset nat;
  currentFocusedIndex : Z;
  activeDescendantSuspended : bool;
  currentFocusedElement : option HTMLElement;
  elementIndexFocusedByClick : option Z;
  attributes : gmap (nat * string) string;
  idCounter : nat;
  listeners : list Registration;
  observing : bool;
  effects : list Effect
}.

Definition set_tabbableElements (v : list HTMLElement) (w : World) : World :=
  mkWorld v (savedTabIndex w) (allSeenTabbableElements w) (currentFocusedIndex w)
    (activeDescendantSuspended w) (currentFocusedElement w)
    (elementIndexFocusedByClick w) (attributes w) (idCounter w) (listeners w)
    (observing w) (effects w).

Definition set_savedTabIndex (v : gmap nat (option string)) (w : World) : World :=
  mkWorld (tabbableElements w) v (allSeenTabbableElements w) (currentFocusedIndex w)
    (activeDescendantSuspended w) (currentFocusedElement w)
    (elementIndexFocusedByClick w) (attributes w) (idCounter w) (listeners w)
    (observing w) (effects w).

Definition set_allSeen (v : gset nat) (w : World) : World :=
  mkWorld (tabbableElements w) (savedTabIndex w) v (currentFocusedIndex w)
    (activeDescendantSuspended w) (currentFocusedElement w)
    (elementIndexFocusedByClick w) (attributes w) (idCounter w) (listeners w)
    (observing w) (effects w).

Definition set_currentFocusedIndex (v : Z) (w : World) : World :=
  mkWorld (tabbableElements w) (savedTabIndex w) (allSeenTabbableElements w) v
    (activeDescendantSuspended w) (currentFocusedElement w)
    (elementIndexFocusedByClick w) (attributes w) (idCounter w) (listeners w)
    (observing w) (effects w).

Definition set_suspended (v : bool) (w : World) : World :=
  mkWorld (tabbableElements w) (savedTabIndex w) (allSeenTabbableElements w)
    (currentFocusedIndex w) v (currentFocusedElement w)
    (elementIndexFocusedByClick w) (attributes w) (idCounter w) (listeners w)
    (observing w) (effects w).

Definition set_currentFocusedElement (v : option HTMLElement) (w : World) : World :=
  mkWorld (tabbableElements w) (savedTabIndex w) (allSeenTabbableElements w)
    (currentFocusedIndex w) (activeDescendantSuspended w) v
    (elementIndexFocusedByClick w) (attributes w) (idCounter w) (listeners w)
    (observing w) (effects w).

Definition set_clickIndex (v : option Z) (w : World) : World :=
  mkWorld (tabbableElements w) (savedTabIndex w) (allSeenTabbableElements w)
    (currentFocusedIndex w) (activeDescendantSuspended w) (currentFocusedElement w)
    v (attributes w) (idCounter w) (listeners w) (observing w) (effects w).

Definition set_attributes (v : gmap (nat * string) string) (w : World) : World :=
  mkWorld (tabbableElements w) (savedTabIndex w) (allSeenTabbableElements w)
    (currentFocusedIndex w) (activeDescendantSuspended w) (currentFocusedElement w)
    (elementIndexFocusedByClick w) v (idCounter w) (listeners w) (observing w)
    (effects w).

Definition set_idCounter (v : nat) (w : World) : World :=
  mkWorld (tabbableElements w) (savedTabIndex w) (allSeenTabbableElements w)
    (currentFocusedIndex w) (activeDescendantSuspended w) (currentFocusedElement w)
    (elementIndexFocusedByClick w) (attributes w) v (listeners w) (observing w)
    (effects w).

Definition set_listeners (v : list Registration) (w : World) : World :=
  mkWorld (tabbableElements w) (savedTabIndex w) (allSeenTabbableElements w)
    (currentFocusedIndex w) (activeDescendantSuspended w) (currentFocusedElement w)
    (elementIndexFocusedByClick w) (attributes w) (idCounter w) v (observing w)
    (effects w).

Definition set_observing (v : bool) (w : World) : World :=
  mkWorld (tabbableElements w) (savedTabIndex w) (allSeenTabbableElements w)
    (currentFocusedIndex w) (activeDescendantSuspended w) (currentFocusedElement w)
    (elementIndexFocusedByClick w) (attributes w) (idCounter w) (listeners w) v
    (effects w).

(** Effects are recorded most recent first. *)
Definition emit (e : Effect) (w : World) : World :=
  mkWorld (tabbableElements w) (savedTabIndex w) (allSeenTabbableElements w)
    (currentFocusedIndex w) (activeDescendantSuspended w) (currentFocusedElement w)
    (elementIndexFocusedByClick w) (attributes w) (idCounter w) (listeners w)
    (observing w) (e :: effects w).

(** What the engine takes from outside the file. *)
Record Platform := mkPlatform {
  isMacOS : bool;
  (** [uniqueId()]: the identifier produced by the n-th call. *)
  uniqueId : nat -> string;
  (** [isFocusable(e)], which reads the attributes of [e]. *)
  isFocusable : HTMLElement -> gmap (nat * string) string -> bool;
  (** [iterateFocusableElements(container)] at the time of the call. *)
  iterateFocusableElements : list HTMLElement;
  (** Document order: [x] precedes [y] iff [docpos x < docpos y]. *)
  docpos : HTMLElement -> Z;
  (** [container.contains(x)]. *)
  containerContains : HTMLElement -> bool;
  (** What happens to the world before [element.focus()] returns: the
      browser moves focus and may run the focus-entry handler again. *)
  platformFocus : HTMLElement -> World -> World
}.

(** ** DOM attribute access and JavaScript arrays *)

Definition getAttribute (e : HTMLElement) (name : string) (w : World) : option string :=
  attributes w !! (e, name).

Definition setAttribute (e : HTMLElement) (name value : string) (w : World) : World :=
  set_attributes (<[(e, name) := value]> (attributes w)) w.

Definition removeAttribute (e : HTMLElement) (name : string) (w : World) : World :=
  set_attributes (delete (e, name) (attributes w)) w.

(** [e.id]: the value of the [id] attribute, the empty string without one. *)
Definition elementId (e : HTMLElement) (w : World) : string :=
  default "" (getAttribute e "id" w).

(** [l[i]] for a JavaScript number [i]: [undefined] out of range. *)
Definition at_index {A} (l : list A) (i : Z) : option A :=
  if i <? 0 then None else l !! Z.to_nat i.

(** [l.findIndex(p)]. *)
Definition findIndex {A} (p : A -> Prop) `{!forall x, Decision (p x)} (l : list A) : Z :=
  match list_find p l with
  | Some (i, _) => Z.of_nat i
  | None => -1
  end.

(** [l.splice(i, 0, ...items)] and [l.splice(i, 1)] for [0 <= i]. *)
Definition splice_insert {A} (i : Z) (items l : list A) : list A :=
  take (Z.to_nat i) l ++ items ++ drop (Z.to_nat i) l.

Definition splice_remove {A} (i : Z) (l : list A) : list A :=
  delete (Z.to_nat i) l.

Definition len {A} (l : list A) : Z := Z.of_nat (length l).

(** ** The engine *)

Section Engine.
Context (P : Platform) (options : ArrowFocusOptions).

Definition bindKeysOf : Z :=
  match bindKeys options with
  | Some b => b
  | None =>
      Z.lor (match getNextFocusable options with
             | Some _ => KeyBits.ArrowAll
             | None => KeyBits.ArrowVertical
             end)
            KeyBits.HomeAndEnd
  end.

Definition circularOf : bool := default false (circular options).

Definition focusInStrategyOf : FocusInStrategy :=
  default StrategyPrevious (focusInStrategy options).

Definition activeDescendantControl : option HTMLElement :=
  controllingElement <$> activeDescendantOptions options.

(** [activeDescendantCallback?.(a, b)] *)
Definition activeDescendantCallback (a b : option HTMLElement) (w : World) : World :=
  match activeDescendantOptions options with
  | Some o => if onActiveDescendantChanged o then emit (ActiveDescendantChanged a b) w else w
  | None => w
  end.

Definition updateTabIndex (from to : option HTMLElement) (w : World) : World :=
  match activeDescendantControl with
  | Some _ => w
  | None =>
      let w1 := match from with
                | Some f => setAttribute f "tabindex" "-1" w
                | None => w
                end in
      match to with
      | Some t => setAttribute t "tabindex" "0" w1
      | None => w1
      end
  end.

Definition setActiveDescendant (from : option HTMLElement) (to : HTMLElement)
    (w : World) : World :=
  let w1 := if String.eqb (elementId to w) ""
            then setAttribute to "id" (uniqueId P (idCounter w))
                   (set_idCounter (S (idCounter w)) w)
            else w in
  let w2 := set_currentFocusedElement (Some to) w1 in
  let w3 := match activeDescendantControl with
            | Some c => setAttribute c "aria-activedescendant" (elementId to w2) w2
            | None => w2
            end in
  activeDescendantCallback (Some to) from w3.

Definition suspendActiveDescendant (w : World) : World :=
  let w1 := match activeDescendantControl with
            | Some c => removeAttribute c "aria-activedescendant" w
            | None => w
            end in
  let w2 := set_suspended true w1 in
  let w3 := activeDescendantCallback None (currentFocusedElement w2) w2 in
  set_currentFocusedElement None w3.

(** [options?.focusableElementFilter?.(e) ?? true]: the filter receives the
    live element, so its answer may depend on the attributes of the
    document at the time of the call. *)
Definition passesFilter (document : gmap (nat * string) string) (e : HTMLElement)
    : bool :=
  match focusableElementFilter options with
  | Some f => f e document
  | None => true
  end.

(** The body of the [for] loop of [beginFocusManagement]. *)
Definition manageElement (w : World) (element : HTMLElement) : World :=
  let w1 := match savedTabIndex w !! element with
            | Some _ => w
            | None =>
                set_savedTabIndex
                  (<[element := getAttribute element "tabindex" w]> (savedTabIndex w)) w
            end in
  let w2 := setAttribute element "tabindex" "-1" w1 in
  set_allSeen ({[element]} ∪ allSeenTabbableElements w2) w2.

Definition beginFocusManagement (elements : list HTMLElement) (w : World) : World :=
  let filteredElements := List.filter (passesFilter (attributes w)) elements in
  match filteredElements with
  | [] => w
  | first :: _ =>
      let insertIndex :=
        findIndex (fun e => docpos P first < docpos P e) (tabbableElements w) in
      let w1 :=
        set_tabbableElements
          (splice_insert
             (if insertIndex =? -1 then len (tabbableElements w) else insertIndex)
             filteredElements (tabbableElements w)) w in
      fold_left manageElement filteredElements w1
  end.

Definition endFocusManagement (element : HTMLElement) (w : World) : World :=
  let tabbableElementIndex := findIndex (fun e => e = element) (tabbableElements w) in
  let w1 :=
    if 0 <=? tabbableElementIndex then
      let w' := set_tabbableElements
                  (splice_remove tabbableElementIndex (tabbableElements w)) w in
      if bool_decide (getAttribute element "tabindex" w' = Some "0")
         && (0 <? len (tabbableElements w'))
      then
        let first := at_index (tabbableElements w') 0 in
        set_currentFocusedIndex 0
          (set_currentFocusedElement first (updateTabIndex None first w'))
      else w'
    else w in
  set_savedTabIndex (delete element (savedTabIndex w1)) w1.

(** The callback of the [MutationObserver], one record and a batch. *)
Definition observeMutation (w : World) (mutation : MutationRecord) : World :=
  let w1 :=
    fold_left
      (fun w addedNode =>
         if isFocusable P addedNode (attributes w)
            || bool_decide (addedNode ∈ allSeenTabbableElements w)
         then beginFocusManagement [addedNode] w else w)
      (addedNodes mutation) w in
  fold_left
    (fun w removedNode =>
       if bool_decide (is_Some (savedTabIndex w !! removedNode))
       then endFocusManagement removedNode w else w)
    (removedNodes mutation) w1.

Definition observerCallback (mutations : list MutationRecord) (w : World) : World :=
  fold_left observeMutation mutations w.

(** [element.focus()]: the call is recorded, then the platform reacts. *)
Definition callFocus (e : HTMLElement) (w : World) : World :=
  platformFocus P e (emit (FocusCall e) w).

Definition mousedownHandler (ev : MouseEvent) (w : World) : World :=
  match mouseTarget ev with
  | Some target =>
      if bool_decide (Some target <> mouseActive ev)
      then set_clickIndex
             (Some (findIndex (fun e => e = target) (tabbableElements w))) w
      else w
  | None => w
  end.

(** [event.relatedTarget instanceof Element &&
     !container.contains(event.relatedTarget)] *)
Definition cameFromOutside (ev : FocusEvent) : bool :=
  match relatedTarget ev with
  | Some r => negb (containerContains P r)
  | None => false
  end.

Definition focusinHandler (ev : FocusEvent) (w : World) : World :=
  match focusTarget ev with
  | None => w
  | Some target =>
      let finish := set_currentFocusedElement (Some target) in
      match elementIndexFocusedByClick w with
      | Some clicked =>
          let w1 :=
            if 0 <=? clicked then
              let w' :=
                if bool_decide (at_index (tabbableElements w) clicked
                                <> currentFocusedElement w)
                then updateTabIndex (currentFocusedElement w)
                       (at_index (tabbableElements w) clicked) w
                else w in
              set_currentFocusedIndex clicked w'
            else w in
          finish (set_clickIndex None w1)
      | None =>
          match focusInStrategyOf with
          | StrategyPrevious =>
              finish (updateTabIndex (currentFocusedElement w) (Some target) w)
          | StrategyFirst =>
              if cameFromOutside ev
                 && bool_decide (Some target <> at_index (tabbableElements w) 0)
              then
                let w1 := set_currentFocusedIndex 0 w in
                match at_index (tabbableElements w1) 0 with
                | Some first => finish (callFocus first w1)
                | None => emit UncaughtTypeError w1
                end
              else finish (updateTabIndex (currentFocusedElement w) (Some target) w)
          | StrategyFunction f =>
              match relatedTarget ev with
              | Some related =>
                  if negb (containerContains P related) then
                    let elementToFocus := f related in
                    let requestedFocusElementIndex :=
                      findIndex (fun e => Some e = elementToFocus) (tabbableElements w) in
                    match elementToFocus with
                    | Some e =>
                        if 0 <=? requestedFocusElementIndex
                        then callFocus e
                               (set_currentFocusedIndex requestedFocusElementIndex w)
                        else finish
                               (emit (ConsoleWarn
                                  "Element requested is not a known focusable element.") w)
                    | None =>
                        finish
                          (emit (ConsoleWarn
                             "Element requested is not a known focusable element.") w)
                    end
                  else finish (updateTabIndex (currentFocusedElement w) (Some target) w)
              | None =>
                  finish (updateTabIndex (currentFocusedElement w) (Some target) w)
              end
          end
      end
  end.

(** The condition under which the keydown handler acts on a key of the
    tables with bit [keyBit]. *)
Definition handlesKey (ev : KeyboardEvent) (keyBit : Z) : bool :=
  negb (defaultPrevented ev)
  && (0 <? Z.land keyBit bindKeysOf)
  && negb (shouldIgnoreFocusHandling (isMacOS P) ev (keyActive ev)).

Definition toEndOf (ev : KeyboardEvent) : bool :=
  let k := key ev in
  String.eqb k "Home" || String.eqb k "End"
  || (negb (isTab k)
      && ((isMacOS P && metaKey ev) || (negb (isMacOS P) && ctrlKey ev)))
  || String.eqb k "PageUp" || String.eqb k "PageDown".

(** The built-in transition: the block run when the override resolver
    gives nothing.  Returns the world and [nextElementToFocus]. *)
Definition builtinTransition (ev : KeyboardEvent) (direction : Direction)
    (toEnd : bool) (w : World) : World * option HTMLElement :=
  let lastFocusedIndex := currentFocusedIndex w in
  let w1 :=
    match direction with
    | previous =>
        if toEnd then set_currentFocusedIndex 0 w
        else set_currentFocusedIndex (currentFocusedIndex w - 1) w
    | next =>
        if toEnd then set_currentFocusedIndex (len (tabbableElements w) - 1) w
        else set_currentFocusedIndex (currentFocusedIndex w + 1) w
    end in
  let w2 :=
    if currentFocusedIndex w1 <? 0 then
      if circularOf && negb (isTab (key ev))
      then set_currentFocusedIndex (len (tabbableElements w1) - 1) w1
      else
        let w' := match activeDescendantControl with
                  | Some _ => suspendActiveDescendant w1
                  | None => w1
                  end in
        set_currentFocusedIndex 0 w'
    else w1 in
  let w3 :=
    if len (tabbableElements w2) <=? currentFocusedIndex w2 then
      if circularOf && negb (isTab (key ev))
      then set_currentFocusedIndex 0 w2
      else set_currentFocusedIndex (len (tabbableElements w2) - 1) w2
    else w2 in
  (w3,
   if bool_decide (lastFocusedIndex <> currentFocusedIndex w3)
   then at_index (tabbableElements w3) (currentFocusedIndex w3)
   else None).

(** [options.getNextFocusable(direction, toEnd, document.activeElement ??
    undefined, event)], [None] without a resolver. *)
Definition overrideNext (ev : KeyboardEvent) (direction : Direction)
    (toEnd : bool) : option HTMLElement :=
  match getNextFocusable options with
  | Some f => f direction toEnd (activeHandle <$> keyActive ev) ev
  | None => None
  end.

(** From the test of [activeDescendantSuspended] to the end of its
    [else] branch: the world and [nextElementToFocus]. *)
Definition resolveNext (ev : KeyboardEvent) (direction : Direction)
    (toEnd : bool) (w : World) : World * option HTMLElement :=
  if activeDescendantSuspended w then
    let w1 := set_suspended false w in
    (w1, at_index (tabbableElements w1) (currentFocusedIndex w1))
  else
    match overrideNext ev direction toEnd with
    | Some e => (w, Some e)
    | None => builtinTransition ev direction toEnd w
    end.

Definition keydownHandler (ev : KeyboardEvent) (w : World) : World :=
  match KEY_TO_BIT (key ev), getDirection ev with
  | Some keyBit, Some direction =>
      if handlesKey ev keyBit then
        let toEnd := toEndOf ev in
        let '(w1, nextElementToFocus) := resolveNext ev direction toEnd w in
        let w2 :=
          match nextElementToFocus with
          | Some e =>
              match activeDescendantControl with
              | Some _ => setActiveDescendant (currentFocusedElement w1) e w1
              | None => callFocus e w1
              end
          | None => w1
          end in
        if negb (isTab (key ev)) || bool_decide (is_Some nextElementToFocus)
        then emit PreventDefault w2
        else w2
      else w
  | _, _ => w
  end.

Definition focusoutHandler (w : World) : World := suspendActiveDescendant w.

(** [options?.abortSignal ?? controller.signal] *)
Definition signalOf : Signal :=
  if abortSignal options then CallerSignal else ControllerSignal.

(** The [addEventListener] calls of [arrowFocus], in order. *)
Definition registrations : list Registration :=
  [ mkReg MouseDownEvent (Some signalOf);
    mkReg FocusInEvent (Some signalOf);
    mkReg KeyDownEvent (Some signalOf) ]
  ++ match activeDescendantControl with
     | Some _ => [ mkReg FocusOutEvent None ]
     | None => []
     end.

(** [arrowFocus(container, options)] in a document whose attributes are
    [dom]: the world when the call returns.  The returned controller is
    the owner of [ControllerSignal]. *)
Definition arrowFocus (dom : gmap (nat * string) string) : World :=
  let w0 := mkWorld [] ∅ ∅ 0 false None None dom 0 [] false [] in
  let w1 := beginFocusManagement (iterateFocusableElements P) w0 in
  let w2 := updateTabIndex None (at_index (tabbableElements w1) 0) w1 in
  let w3 := set_observing true w2 in
  let w4 :=
    set_currentFocusedElement
      (match activeDescendantControl with
       | Some _ => None
       | None => at_index (tabbableElements w3) 0
       end)
      (set_suspended
         (match activeDescendantControl with Some _ => true | None => false end)
         (set_currentFocusedIndex 0 w3)) in
  set_listeners registrations w4.

(** ** Notifications *)

(** What can happen to a running engine: an event that reaches the
    element a handler was attached to, a batch of mutation records, or
    the firing of one of the two signals. *)
Inductive Input :=
| MouseDown (ev : MouseEvent)
| FocusIn (ev : FocusEvent)
| KeyDown (ev : KeyboardEvent)
| FocusOut
| Mutations (records : list MutationRecord)
| Abort (s : Signal).

(** A listener added with [{signal}] is removed when the signal fires. *)
Definition abort (s : Signal) (w : World) : World :=
  set_listeners
    (List.filter (fun r => negb (bool_decide (regSignal r = Some s))) (listeners w)) w.

Definition listening (t : EventType) (w : World) : bool :=
  existsb (fun r => bool_decide (regEvent r = t)) (listeners w).

Definition dispatch (w : World) (i : Input) : World :=
  match i with
  | MouseDown ev => if listening MouseDownEvent w then mousedownHandler ev w else w
  | FocusIn ev => if listening FocusInEvent w then focusinHandler ev w else w
  | KeyDown ev => if listening KeyDownEvent w then keydownHandler ev w else w
  | FocusOut => if listening FocusOutEvent w then focusoutHandler w else w
  | Mutations records => if observing w then observerCallback records w else w
  | Abort s => abort s w
  end.

Definition run (w : World) (inputs : list Input) : World :=
  fold_left dispatch inputs w.

(** The tracker's two operations as a sequence. *)
Inductive TrackerOp :=
| Offer (elements : list HTMLElement)
| Retire (element : HTMLElement).

Definition applyOp (w : World) (op : TrackerOp) : World :=
  match op with
  | Offer elements => beginFocusManagement elements w
  | Retire element => endFocusManagement element w
  end.

Definition applyOps (w : World) (ops : list TrackerOp) : World :=
  fold_left applyOp ops w.
End Engine.

(** ** Reference definitions used in the statements *)

(** The transition of the navigation state machine as the specification
    words it: [next(index, direction, toEnd, wrap, N, isTabKey)]. *)
Definition next_spec (index : Z) (direction : Direction) (toEnd wrap : bool)
    (N : Z) (isTabKey : bool) : Z :=
  let result :=
    match direction, toEnd with
    | previous, true => 0
    | previous, false => index - 1
    | next, true => N - 1
    | next, false => index + 1
    end in
  if result <? 0 then (if wrap && negb isTabKey then N - 1 else 0)
  else if N <=? result then (if wrap && negb isTabKey then 0 else N - 1)
  else result.

(** The index the navigation block computes before it looks at the bounds
    (the first [if] of the block), for a collection of [N] elements. *)
Definition steppedIndex (index : Z) (direction : Direction) (toEnd : bool)
    (N : Z) : Z :=
  match direction, toEnd with
  | previous, true => 0
  | previous, false => index - 1
  | next, true => N - 1
  | next, false => index + 1
  end.

(** [new] is what a step from [w] to [w'] added to the effects. *)
Definition emitted (w w' : World) (new : list Effect) : Prop :=
  effects w' = (new ++ effects w)%list.

(** The notifications whose listeners [arrowFocus] adds with a signal. *)
Definition viaSignal (i : Input) : bool :=
  match i with
  | MouseDown _ | FocusIn _ | KeyDown _ => true
  | _ => false
  end.

(** Where [beginFocusManagement] puts a batch whose first element is
    [first]. *)
Definition insertionPoint (P : Platform) (first : HTMLElement)
    (l : list HTMLElement) : Z :=
  let insertIndex := findIndex (fun e => docpos P first < docpos P e) l in
  if insertIndex =? -1 then len l else insertIndex.

(** The tracked collection is in document order (strictly, so without
    duplicates). *)
Definition documentOrdered (P : Platform) (l : list HTMLElement) : Prop :=
  StronglySorted (fun x y => docpos P x < docpos P y) l.

(** A batch fits one gap of the tracked collection: every tracked element
    lies before the whole batch or after the whole batch. *)
Definition fitsGap (P : Platform) (batch tracked : list HTMLElement) : Prop :=
  Forall (fun t => Forall (fun x => docpos P t < docpos P x) batch
                   \/ Forall (fun x => docpos P x < docpos P t) batch) tracked.

(** Every offered batch is in relative document order. *)
Definition batchesOrdered (P : Platform) (ops : list TrackerOp) : Prop :=
  Forall (fun op => match op with
                    | Offer batch => documentOrdered P batch
                    | Retire _ => True
                    end) ops.

(** Of every offered batch, the elements that pass the filter fit one gap
    of the collection they are offered to. *)
Fixpoint batchesFit (P : Platform) (options : ArrowFocusOptions) (w : World)
    (ops : list TrackerOp) : Prop :=
  match ops with
  | [] => True
  | op :: rest =>
      match op with
      | Offer batch =>
          fitsGap P (List.filter (passesFilter options (attributes w)) batch) (tabbableElements w)
      | Retire _ => True
      end
      /\ batchesFit P options (applyOp P options w op) rest
  end.

(** ** Definitions for the further properties *)

(** The key groups as the comments of [KeyBits] document them: the bit of
    the group and its keys with their directions. *)
Definition documentedGroups : list (Z * list (string * Direction)) :=
  [ (KeyBits.ArrowHorizontal, [("ArrowLeft", previous); ("ArrowRight", next)]);
    (KeyBits.ArrowVertical, [("ArrowUp", previous); ("ArrowDown", next)]);
    (KeyBits.JK, [("j", next); ("k", previous)]);
    (KeyBits.HL, [("h", previous); ("l", next)]);
    (KeyBits.HomeAndEnd, [("Home", previous); ("End", next)]);
    (KeyBits.PageUpDown, [("PageUp", previous); ("PageDown", next)]);
    (KeyBits.WS, [("w", previous); ("s", next)]);
    (KeyBits.AD, [("a", previous); ("d", next)]);
    (KeyBits.Tab, [("Tab", next)]) ].

(** The key of the tables [k] is bound by the mask [mask], with inherent
    direction [d]. *)
Definition boundWith (mask : Z) (k : string) (d : Direction) : Prop :=
  exists bit, KEY_TO_BIT k = Some bit
              /\ 0 < Z.land bit mask
              /\ KEY_TO_DIRECTION k = Some d.

(** The filter's answer for an element does not depend on the document. *)
Definition documentBlind (options : ArrowFocusOptions) : Prop :=
  forall f, focusableElementFilter options = Some f ->
  forall e document document', f e document = f e document'.

(** The platform's reaction to [focus()] leaves the index, the collection
    and the suspension flag alone (as a focus-entry notification without a
    pending pointer press does). *)
Definition quietFocus (P : Platform) : Prop :=
  forall e w,
    currentFocusedIndex (platformFocus P e w) = currentFocusedIndex w
    /\ tabbableElements (platformFocus P e w) = tabbableElements w
    /\ activeDescendantSuspended (platformFocus P e w) = activeDescendantSuspended w.

(** The same keydown, [n] times. *)
Fixpoint presses (P : Platform) (options : ArrowFocusOptions)
    (ev : KeyboardEvent) (n : nat) (w : World) : World :=
  match n with
  | O => w
  | S m => keydownHandler P options ev (presses P options ev m w)
  end.

(** Among the tracked elements, the one with tabindex "0" is the current
    element, and no other. *)
Definition tabStopIsCurrent (w : World) : Prop :=
  forall e, e ∈ tabbableElements w ->
    (getAttribute e "tabindex" w = Some "0" <-> currentFocusedElement w = Some e).

(** What a step may change in active-descendant mode with controlling
    element [c]: the collection is as before; every attribute keeps its
    value, except [c]'s aria-activedescendant and the id of an element that
    had none; and no [focus()] call is among the new effects. *)
Definition designationFrame (c : HTMLElement) (w w' : World) : Prop :=
  tabbableElements w' = tabbableElements w
  /\ (forall e name,
        (e, name) <> (c, "aria-activedescendant") ->
        (name = "id" -> elementId e w <> "") ->
        getAttribute e name w' = getAttribute e name w)
  /\ exists new, emitted w w' new /\ forall e, ~ In (FocusCall e) new.

(** ** A small document for the closed statements *)

Module Sample.

Definition item1 : HTMLElement := 1%nat.
Definition item2 : HTMLElement := 2%nat.
Definition item3 : HTMLElement := 3%nat.
Definition input : HTMLElement := 100%nat.
Definition elsewhere : HTMLElement := 200%nat.

(** Elements are numbered in document order; the container holds the
    elements below 100; [focus()] returns without a nested notification. *)
Definition platform (focusable : list HTMLElement) : Platform :=
  mkPlatform false
    (fun n => String.append "id-" (NilZero.string_of_uint (Nat.to_uint n)))
    (fun _ _ => true) focusable Z.of_nat (fun e => Nat.ltb e 100)
    (fun _ w => w).

Definition roving : ArrowFocusOptions :=
  mkOptions None None None None false None None.

(** A platform whose [focus()] delivers the focus-entry notification
    before it returns, the element that was current being the related
    target (calls of [focus()] made by that nested handler return at
    once). *)
Definition browser (options : ArrowFocusOptions) (focusable : list HTMLElement)
    : Platform :=
  mkPlatform false
    (fun n => String.append "id-" (NilZero.string_of_uint (Nat.to_uint n)))
    (fun _ _ => true) focusable Z.of_nat (fun e => Nat.ltb e 100)
    (fun e w =>
       if listening FocusInEvent w
       then focusinHandler (platform focusable) options
              (mkFocus (Some e) (currentFocusedElement w)) w
       else w).

Definition rovingWrapAll : ArrowFocusOptions :=
  mkOptions (Some true) None None (Some KeyBits.All) false None None.

Definition rovingCallerSignal : ArrowFocusOptions :=
  mkOptions None None None None true None None.

Definition listbox : ActiveDescendantOptions := mkADOptions input true.

Definition activeDescendant : ArrowFocusOptions :=
  mkOptions None None None None false (Some listbox) None.

Definition activeDescendantTab : ArrowFocusOptions :=
  mkOptions None None None (Some KeyBits.All) false (Some listbox) None.

Definition declining : HTMLElement -> option HTMLElement := fun _ => None.

Definition customPolicy : ArrowFocusOptions :=
  mkOptions None None None None false None (Some (StrategyFunction declining)).

Definition resolver : Direction -> bool -> option HTMLElement -> KeyboardEvent
                      -> option HTMLElement :=
  fun _ _ _ _ => Some item1.

Definition rovingResolver : ArrowFocusOptions :=
  mkOptions None (Some resolver) None (Some KeyBits.All) false None None.

Definition arrowDown : KeyboardEvent := mkKey "ArrowDown" false false false false None.
Definition arrowUp : KeyboardEvent := mkKey "ArrowUp" false false false false None.
Definition tab : KeyboardEvent := mkKey "Tab" false false false false None.
Definition shiftTab : KeyboardEvent := mkKey "Tab" true false false false None.

Definition noAttributes : gmap (nat * string) string := ∅.

(** A platform whose [isFocusable] accepts the listed elements only. *)
Definition strict (focusable : list HTMLElement) : Platform :=
  mkPlatform false
    (fun n => String.append "id-" (NilZero.string_of_uint (Nat.to_uint n)))
    (fun e _ => existsb (Nat.eqb e) focusable) focusable Z.of_nat
    (fun e => Nat.ltb e 100) (fun _ w => w).

Definition activeDescendantWrap : ArrowFocusOptions :=
  mkOptions (Some true) None None None false (Some listbox) None.

Definition firstPolicy : ArrowFocusOptions :=
  mkOptions None None None None false None (Some StrategyFirst).

Definition oddOnly : ArrowFocusOptions :=
  mkOptions None None (Some (fun e _ => Nat.odd e)) None false None None.

(** A filter that reads the element: [e => e.getAttribute('tabindex') !== '-1']. *)
Definition untouchedOnly : ArrowFocusOptions :=
  mkOptions None None
    (Some (fun e document => bool_decide (document !! (e, "tabindex") <> Some "-1")))
    None false None None.

(** A platform for which an element with tabindex -1 is not focusable. *)
Definition tabbableOnly (focusable : list HTMLElement) : Platform :=
  mkPlatform false
    (fun n => String.append "id-" (NilZero.string_of_uint (Nat.to_uint n)))
    (fun e document => bool_decide (document !! (e, "tabindex") <> Some "-1"))
    focusable Z.of_nat (fun e => Nat.ltb e 100) (fun _ w => w).

Definition plainElement : HTMLElement := 50%nat.
Definition detachedElement : HTMLElement := 51%nat.

(** A text field and a text area with the caret at offset 0 of a value of
    length 3. *)
Definition textField : option ActiveElement := Some (mkActive input (TextInput 0 0 3)).
Definition textArea : option ActiveElement := Some (mkActive input (TextArea 0 0 3)).

Definition keyIn (k : string) (active : option ActiveElement) : KeyboardEvent :=
  mkKey k false false false false active.

Definition endKey : KeyboardEvent := keyIn "End" None.

End Sample.

(** * Properties *)

(** ** Navigation state machine *)

Section Navigation.
Context (P : Platform) (options : ArrowFocusOptions).

Lemma suspend_tabbable w :
  tabbableElements (suspendActiveDescendant options w) = tabbableElements w.
Proof.
  unfold suspendActiveDescendant, activeDescendantCallback.
  destruct (activeDescendantControl options); simpl;
    destruct (activeDescendantOptions options) as [o|]; simpl;
    try destruct (onActiveDescendantChanged o); reflexivity.
Qed.

Lemma suspend_index w :
  currentFocusedIndex (suspendActiveDescendant options w) = currentFocusedIndex w.
Proof.
  unfold suspendActiveDescendant, activeDescendantCallback.
  destruct (activeDescendantControl options); simpl;
    destruct (activeDescendantOptions options) as [o|]; simpl;
    try destruct (onActiveDescendantChanged o); reflexivity.
Qed.

Lemma builtin_tabbable ev d toEnd w :
  tabbableElements (fst (builtinTransition options ev d toEnd w)) = tabbableElements w.
Proof.
  unfold builtinTransition; cbn -[suspendActiveDescendant].
  repeat match goal with
         | |- context [if ?c then _ else _] =>
             destruct c; cbn -[suspendActiveDescendant]
         | |- context [match ?c with _ => _ end] =>
             destruct c; cbn -[suspendActiveDescendant]
         end; rewrite ?suspend_tabbable; reflexivity.
Qed.

(** The index the built-in transition leaves, for any world. *)
Lemma builtin_index ev d toEnd w :
  1 <= len (tabbableElements w) ->
  0 <= currentFocusedIndex w < len (tabbableElements w) ->
  currentFocusedIndex (fst (builtinTransition options ev d toEnd w))
  = next_spec (currentFocusedIndex w) d toEnd (circularOf options)
      (len (tabbableElements w)) (isTab (key ev)).
Proof.
  intros HN Hi. unfold builtinTransition, next_spec.
  set (N := len (tabbableElements w)) in *.
  set (i := currentFocusedIndex w) in *.
  set (wrap := circularOf options && negb (isTab (key ev))).
  destruct d, toEnd; cbn -[suspendActiveDescendant]; fold N; fold i.
  - (* previous, to the boundary *)
    replace (0 <? 0) with false by reflexivity. simpl. fold N.
    destruct (Z.leb_spec N 0); [lia|]. reflexivity.
  - (* previous, one step *)
    destruct (Z.ltb_spec (i - 1) 0).
    + destruct wrap; cbn -[suspendActiveDescendant]; fold N.
      * destruct (Z.leb_spec N (N - 1)); [lia|]. reflexivity.
      * destruct (activeDescendantControl options);
          cbn -[suspendActiveDescendant];
          rewrite ?suspend_tabbable; cbn -[suspendActiveDescendant]; fold N;
          destruct (Z.leb_spec N 0); lia || reflexivity.
    + simpl. fold N. destruct (Z.leb_spec N (i - 1)); [lia|]. reflexivity.
  - (* next, to the boundary *)
    destruct (Z.ltb_spec (N - 1) 0); [lia|]. simpl. fold N.
    destruct (Z.leb_spec N (N - 1)); [lia|]. reflexivity.
  - (* next, one step *)
    destruct (Z.ltb_spec (i + 1) 0); [lia|]. simpl. fold N.
    destruct (Z.leb_spec N (i + 1)); [|reflexivity].
    destruct wrap; reflexivity.
Qed.

(** C2: with N >= 1 tracked elements and the current index in [0, N-1],
    for every direction, toEnd flag, wrap setting and key, the built-in
    transition leaves the index the specification's transition gives: 0 or
    index-1 for previous, N-1 or index+1 for next, then wrapped or clamped
    at either boundary, Tab never wrapping.  The keydown handler runs it
    whenever the manager is not suspended and the override resolver
    supplies nothing. *)
Theorem next_index_computed ev d toEnd w :
  1 <= len (tabbableElements w) ->
  0 <= currentFocusedIndex w < len (tabbableElements w) ->
  currentFocusedIndex (fst (builtinTransition options ev d toEnd w))
  = next_spec (currentFocusedIndex w) d toEnd (circularOf options)
      (len (tabbableElements w)) (isTab (key ev))
  /\ (activeDescendantSuspended w = false ->
      overrideNext options ev d toEnd = None ->
      currentFocusedIndex (fst (resolveNext options ev d toEnd w))
      = next_spec (currentFocusedIndex w) d toEnd (circularOf options)
          (len (tabbableElements w)) (isTab (key ev))).
Proof.
  intros HN Hi. split.
  - apply builtin_index; assumption.
  - intros Hs Ho. unfold resolveNext. rewrite Hs, Ho.
    apply builtin_index; assumption.
Qed.

Lemma isTab_eq k : isTab k = true -> k = "Tab".
Proof. unfold isTab. intros H. apply String.eqb_eq in H. exact H. Qed.

Lemma toEndOf_tab ev : isTab (key ev) = true -> toEndOf P ev = false.
Proof.
  intros H. unfold toEndOf. rewrite H. rewrite (isTab_eq _ H). reflexivity.
Qed.

Lemma getDirection_tab ev :
  isTab (key ev) = true ->
  getDirection ev = Some (if shiftKey ev then previous else next).
Proof.
  intros H. unfold getDirection. rewrite H. rewrite (isTab_eq _ H).
  destruct (shiftKey ev); reflexivity.
Qed.

Lemma suspend_effects w :
  effects (suspendActiveDescendant options w) = effects w
  \/ effects (suspendActiveDescendant options w)
     = ActiveDescendantChanged None (currentFocusedElement w) :: effects w.
Proof.
  unfold suspendActiveDescendant, activeDescendantCallback.
  destruct (activeDescendantControl options); simpl;
    destruct (activeDescendantOptions options) as [o|]; simpl;
    try destruct (onActiveDescendantChanged o); simpl; auto.
Qed.

(** The built-in transition calls nothing but, at most, the change
    callback with [(undefined, current)]. *)
Lemma builtin_effects ev d toEnd w :
  effects (fst (builtinTransition options ev d toEnd w)) = effects w
  \/ effects (fst (builtinTransition options ev d toEnd w))
     = ActiveDescendantChanged None (currentFocusedElement w) :: effects w.
Proof.
  unfold builtinTransition; cbn -[suspendActiveDescendant].
  repeat match goal with
         | |- context [if ?c then _ else _] =>
             destruct c; cbn -[suspendActiveDescendant]
         | |- context [match ?c with _ => _ end] =>
             destruct c; cbn -[suspendActiveDescendant]
         end; auto;
  match goal with
  | |- context [suspendActiveDescendant options ?x] =>
      destruct (suspend_effects x) as [E|E]; rewrite E; simpl; auto
  end.
Qed.

Lemma suspend_set_index k w :
  suspendActiveDescendant options (set_currentFocusedIndex k w)
  = set_currentFocusedIndex k (suspendActiveDescendant options w).
Proof.
  unfold suspendActiveDescendant, activeDescendantCallback.
  destruct (activeDescendantControl options); simpl;
    destruct (activeDescendantOptions options) as [o|]; simpl;
    try destruct (onActiveDescendantChanged o); reflexivity.
Qed.

(** Apart from the index, the built-in transition leaves the world as it
    was, or as [suspendActiveDescendant] makes it. *)
Lemma builtin_frame ev d toEnd w :
  let r := builtinTransition options ev d toEnd w in
  fst r = set_currentFocusedIndex (currentFocusedIndex (fst r)) w
  \/ (is_Some (activeDescendantControl options)
      /\ fst r = set_currentFocusedIndex (currentFocusedIndex (fst r))
                   (suspendActiveDescendant options w)).
Proof.
  unfold builtinTransition; cbn -[suspendActiveDescendant].
  repeat match goal with
         | |- context [if ?c then _ else _] =>
             destruct c; cbn -[suspendActiveDescendant]
         | |- context [match ?c with _ => _ end] =>
             destruct c eqn:?; cbn -[suspendActiveDescendant]
         end;
  rewrite ?suspend_set_index; cbn -[suspendActiveDescendant];
  first [ left; reflexivity | right; split; [eauto|reflexivity] ].
Qed.

Lemma builtin_next_none ev d toEnd w :
  currentFocusedIndex (fst (builtinTransition options ev d toEnd w))
  = currentFocusedIndex w ->
  snd (builtinTransition options ev d toEnd w) = None.
Proof.
  unfold builtinTransition. cbv zeta. cbn [fst snd]. intros H.
  match goal with
  | |- (if bool_decide ?c then _ else _) = None =>
      destruct (bool_decide c) eqn:E; [|reflexivity]
  end.
  apply bool_decide_eq_true in E. exfalso. apply E. symmetry. exact H.
Qed.

(** A Tab keypress on the last element, whatever the wrap setting, leaves
    the whole world as it was: the index stays and nothing is consumed. *)
Lemma tab_at_last_unchanged ev w :
  isTab (key ev) = true -> shiftKey ev = false ->
  activeDescendantSuspended w = false ->
  1 <= len (tabbableElements w) ->
  currentFocusedIndex w = len (tabbableElements w) - 1 ->
  overrideNext options ev next false = None ->
  keydownHandler P options ev w = w.
Proof.
  intros Ht Hsh Hs HN Hi Ho. unfold keydownHandler.
  rewrite (getDirection_tab _ Ht), Hsh, (toEndOf_tab _ Ht).
  destruct (KEY_TO_BIT (key ev)) as [bit|]; [|reflexivity].
  destruct (handlesKey P options ev bit); [|reflexivity].
  unfold resolveNext. rewrite Hs, Ho. unfold builtinTransition.
  rewrite Ht. rewrite andb_false_r.
  destruct w as [l sv seen i susp cur clk attrs idc ls obs eff].
  simpl in *. subst i.
  destruct (Z.ltb_spec (len l - 1 + 1) 0); [lia|]. simpl.
  destruct (Z.leb_spec (len l) (len l - 1 + 1)); [|lia]. simpl.
  assert (Hsame : bool_decide (len l - 1 <> len l - 1) = false)
    by (apply bool_decide_eq_false_2; intros E; apply E; reflexivity).
  rewrite Hsame. simpl. reflexivity.
Qed.

(** C5 (as amended): a Tab keypress never wraps, even with wrap enabled: on
    the last of N >= 1 elements the transition keeps the index at N-1, and
    the handler leaves the world unchanged.  With the manager active, a Tab
    keypress whose computed index equals the prior index is not consumed
    (preventDefault is not called), whereas a destination supplied by the
    override resolver makes the handler consume it.  With the manager
    suspended no index is computed: the index stays, and the Tab keypress
    is consumed when there is an element at that index (it is designated
    again) and left alone when there is none. *)
Theorem tab_never_wraps_and_escapes ev w :
  isTab (key ev) = true ->
  (1 <= len (tabbableElements w) ->
   currentFocusedIndex w = len (tabbableElements w) - 1 ->
   currentFocusedIndex (fst (builtinTransition options ev next false w))
   = len (tabbableElements w) - 1)
  /\ (activeDescendantSuspended w = false ->
      (shiftKey ev = false ->
       1 <= len (tabbableElements w) ->
       currentFocusedIndex w = len (tabbableElements w) - 1 ->
       overrideNext options ev next false = None ->
       keydownHandler P options ev w = w)
      /\ (forall d,
           getDirection ev = Some d ->
           overrideNext options ev d false = None ->
           currentFocusedIndex (fst (resolveNext options ev d false w))
             = currentFocusedIndex w ->
           exists new, emitted w (keydownHandler P options ev w) new
                       /\ ~ In PreventDefault new)
      /\ (forall d e bit,
           getDirection ev = Some d ->
           KEY_TO_BIT (key ev) = Some bit ->
           handlesKey P options ev bit = true ->
           overrideNext options ev d false = Some e ->
           exists rest,
             effects (keydownHandler P options ev w) = PreventDefault :: rest))
  /\ (activeDescendantSuspended w = true ->
      forall d bit,
        getDirection ev = Some d ->
        KEY_TO_BIT (key ev) = Some bit ->
        handlesKey P options ev bit = true ->
        currentFocusedIndex (fst (resolveNext options ev d false w))
          = currentFocusedIndex w
        /\ (forall e,
             at_index (tabbableElements w) (currentFocusedIndex w) = Some e ->
             (exists rest,
                effects (keydownHandler P options ev w) = PreventDefault :: rest)
             /\ (is_Some (activeDescendantOptions options) ->
                 currentFocusedIndex (keydownHandler P options ev w)
                 = currentFocusedIndex w
                 /\ currentFocusedElement (keydownHandler P options ev w) = Some e
                 /\ activeDescendantSuspended (keydownHandler P options ev w)
                    = false))
        /\ (at_index (tabbableElements w) (currentFocusedIndex w) = None ->
             keydownHandler P options ev w = set_suspended false w)).
Proof.
  intros Ht. split; [|split; [intros Hs; split; [|split]|]].
  - intros HN Hi.
    unfold builtinTransition. rewrite Ht, andb_false_r. simpl. rewrite Hi.
    destruct (Z.ltb_spec (len (tabbableElements w) - 1 + 1) 0); [lia|]. simpl.
    destruct (Z.leb_spec (len (tabbableElements w))
                (len (tabbableElements w) - 1 + 1)); [|lia].
    reflexivity.
  - intros Hsh HN Hi Ho. apply tab_at_last_unchanged; assumption.
  - intros d Hd Ho Hsame. unfold keydownHandler. rewrite Hd.
    rewrite (toEndOf_tab _ Ht).
    destruct (KEY_TO_BIT (key ev)) as [bit|];
      [|exists []; split; [reflexivity|intros []]].
    destruct (handlesKey P options ev bit);
      [|exists []; split; [reflexivity|intros []]].
    revert Hsame. unfold resolveNext. rewrite Hs, Ho. intros Hsame.
    pose proof (builtin_next_none ev d false w Hsame) as Hn.
    destruct (builtinTransition options ev d false w) as [w1 nx] eqn:Hb.
    simpl in Hn. subst nx. rewrite Ht. simpl.
    pose proof (builtin_effects ev d false w) as He. rewrite Hb in He. simpl in He.
    destruct He as [He|He]; unfold emitted; rewrite He.
    + exists []. split; [reflexivity|intros []].
    + exists [ActiveDescendantChanged None (currentFocusedElement w)].
      split; [reflexivity|]. intros [E|[]]. discriminate E.
  - intros d e bit Hd Hb Hh Ho. unfold keydownHandler.
    rewrite Hb, Hd, Hh, (toEndOf_tab _ Ht). unfold resolveNext. rewrite Hs, Ho.
    rewrite Ht. simpl. eexists. reflexivity.
  - intros Hs d bit Hd Hb Hh.
    split; [unfold resolveNext; rewrite Hs; reflexivity|]. split.
    + intros e He. unfold keydownHandler.
      rewrite Hb, Hd, Hh, (toEndOf_tab _ Ht). unfold resolveNext. rewrite Hs.
      cbn [tabbableElements currentFocusedIndex set_suspended]. rewrite He, Ht.
      split; [simpl; eexists; reflexivity|].
      intros [ado Had].
      unfold setActiveDescendant, activeDescendantCallback, activeDescendantControl.
      rewrite Had. cbn.
      destruct (String.eqb _ ""); destruct (onActiveDescendantChanged ado);
        repeat split; reflexivity.
    + intros Hnone. unfold keydownHandler.
      rewrite Hb, Hd, Hh, (toEndOf_tab _ Ht). unfold resolveNext. rewrite Hs.
      cbn [tabbableElements currentFocusedIndex set_suspended]. rewrite Hnone, Ht.
      rewrite bool_decide_eq_false_2 by (intros [? ?]; discriminate).
      reflexivity.
Qed.

End Navigation.

(** ** Active-descendant mode: suspension and re-entry *)

Section ActiveDescendant.
Context (P : Platform) (options : ArrowFocusOptions) (ado : ActiveDescendantOptions).
Hypothesis Had : activeDescendantOptions options = Some ado.

Lemma control_is_some : activeDescendantControl options = Some (controllingElement ado).
Proof. unfold activeDescendantControl. rewrite Had. reflexivity. Qed.

Lemma key_in_both_tables k bit : KEY_TO_BIT k = Some bit -> is_Some (KEY_TO_DIRECTION k).
Proof.
  unfold KEY_TO_BIT, KEY_TO_DIRECTION. destruct (assoc k keyTable); simpl; [eauto|].
  discriminate.
Qed.

Lemma bound_key_has_direction ev bit :
  KEY_TO_BIT (key ev) = Some bit -> is_Some (getDirection ev).
Proof.
  intros H. unfold getDirection.
  destruct (isTab (key ev) && shiftKey ev); [eauto|].
  eapply key_in_both_tables; eassumption.
Qed.

Lemma setActiveDescendant_index from to w :
  currentFocusedIndex (setActiveDescendant P options from to w)
  = currentFocusedIndex w.
Proof.
  unfold setActiveDescendant, activeDescendantCallback.
  rewrite control_is_some, Had.
  destruct (String.eqb (elementId to w) "");
    destruct (onActiveDescendantChanged ado); reflexivity.
Qed.

(** In active-descendant mode nothing after the navigation block touches
    the index: the handler ends with the index the block computed. *)
Lemma keydown_index_active_descendant ev bit d w :
  KEY_TO_BIT (key ev) = Some bit ->
  getDirection ev = Some d ->
  handlesKey P options ev bit = true ->
  currentFocusedIndex (keydownHandler P options ev w)
  = currentFocusedIndex (fst (resolveNext options ev d (toEndOf P ev) w)).
Proof.
  intros Hb Hd Hh. unfold keydownHandler. rewrite Hb, Hd, Hh.
  destruct (resolveNext options ev d (toEndOf P ev) w) as [w1 [e|]];
    rewrite ?control_is_some;
    destruct (negb (isTab (key ev)) || _); cbn -[setActiveDescendant];
    rewrite ?setActiveDescendant_index; reflexivity.
Qed.

(** C6: in active-descendant mode, a bound keypress received while
    suspended, whatever its direction and toEnd flag, drops the movement and
    designates again the element at the current index: the manager is
    active, the index is as before, the controlling element names the
    element, and the change callback gets (element, previous current). *)
Theorem suspended_keypress_reenters ev bit e w :
  activeDescendantSuspended w = true ->
  KEY_TO_BIT (key ev) = Some bit ->
  handlesKey P options ev bit = true ->
  at_index (tabbableElements w) (currentFocusedIndex w) = Some e ->
  let w' := keydownHandler P options ev w in
  activeDescendantSuspended w' = false
  /\ currentFocusedElement w' = Some e
  /\ currentFocusedIndex w' = currentFocusedIndex w
  /\ tabbableElements w' = tabbableElements w
  /\ getAttribute (controllingElement ado) "aria-activedescendant" w'
     = Some (elementId e w')
  /\ elementId e w'
     = (if String.eqb (elementId e w) "" then uniqueId P (idCounter w)
        else elementId e w)
  /\ emitted w w'
       (PreventDefault ::
        (if onActiveDescendantChanged ado
         then [ActiveDescendantChanged (Some e) (currentFocusedElement w)]
         else [])).
Proof.
  intros Hs Hb Hh He w'. subst w'.
  destruct (bound_key_has_direction ev bit Hb) as [d Hd].
  unfold keydownHandler. rewrite Hb, Hd, Hh.
  unfold resolveNext. rewrite Hs. simpl. rewrite He.
  rewrite control_is_some.
  replace (negb (isTab (key ev)) || bool_decide (is_Some (Some e))) with true
    by (rewrite orb_true_r; reflexivity).
  unfold setActiveDescendant, activeDescendantCallback, emitted.
  rewrite control_is_some, Had.
  unfold elementId, getAttribute, setAttribute. simpl.
  destruct (String.eqb (default "" (attributes w !! (e, "id"))) "") eqn:Hid;
    destruct (onActiveDescendantChanged ado); simpl;
    rewrite ?lookup_insert_eq;
    rewrite ?(lookup_insert_ne _ (controllingElement ado, "aria-activedescendant")
                (e, "id")) by congruence;
    rewrite ?lookup_insert_eq; rewrite ?Hid; simpl;
    repeat split; reflexivity.
Qed.


End ActiveDescendant.

(** ** Element tracker *)

Section Tracker.
Context (P : Platform) (options : ArrowFocusOptions).

Lemma ordered_filter (f : HTMLElement -> bool) l :
  documentOrdered P l -> documentOrdered P (List.filter f l).
Proof.
  unfold documentOrdered. induction 1 as [|a l Hl IH Ha]; simpl.
  - constructor.
  - destruct (f a); [|exact IH]. constructor; [exact IH|].
    rewrite List.Forall_forall in *. intros x Hx.
    apply List.filter_In in Hx. apply Ha. tauto.
Qed.

Lemma ordered_delete i l :
  documentOrdered P l -> documentOrdered P (delete i l).
Proof.
  unfold documentOrdered. intros H. revert i.
  induction H as [|a l Hl IH Ha]; intros [|i]; simpl.
  - constructor.
  - constructor.
  - exact Hl.
  - constructor; [apply IH|]. apply Forall_delete. exact Ha.
Qed.

Lemma ordered_NoDup l : documentOrdered P l -> NoDup l.
Proof.
  unfold documentOrdered. induction 1 as [|a l Hl IH Ha].
  - constructor.
  - constructor; [|exact IH]. intros Hin.
    rewrite List.Forall_forall in Ha. apply list_elem_of_In in Hin.
    specialize (Ha a Hin). simpl in Ha. lia.
Qed.

Lemma manage_tabbable elements w :
  tabbableElements (fold_left (manageElement) elements w) = tabbableElements w.
Proof.
  revert w. induction elements as [|e es IH]; intros w; simpl; [reflexivity|].
  rewrite IH. unfold manageElement.
  destruct (savedTabIndex w !! e); reflexivity.
Qed.

Lemma begin_tabbable elements w :
  tabbableElements (beginFocusManagement P options elements w)
  = match List.filter (passesFilter options (attributes w)) elements with
    | [] => tabbableElements w
    | first :: _ =>
        splice_insert (insertionPoint P first (tabbableElements w))
          (List.filter (passesFilter options (attributes w)) elements) (tabbableElements w)
    end.
Proof.
  unfold beginFocusManagement.
  destruct (List.filter (passesFilter options (attributes w)) elements) as [|first rest] eqn:Hf;
    [reflexivity|].
  rewrite manage_tabbable. reflexivity.
Qed.

(** The single insertion point keeps the order when the batch fits a gap. *)
Lemma splice_ordered first rest l :
  documentOrdered P l ->
  documentOrdered P (first :: rest) ->
  fitsGap P (first :: rest) l ->
  documentOrdered P (splice_insert (insertionPoint P first l) (first :: rest) l).
Proof.
  unfold documentOrdered, fitsGap, splice_insert, insertionPoint, findIndex.
  intros Hl Hb Hgap. rewrite Forall_forall in Hgap.
  assert (Hfirst : forall t, t ∈ l ->
            (docpos P first < docpos P t ->
               forall x, x ∈ first :: rest -> docpos P x < docpos P t)
            /\ (~ docpos P first < docpos P t ->
               forall x, x ∈ first :: rest -> docpos P t < docpos P x)).
  { intros t Ht. destruct (Hgap t Ht) as [G|G]; rewrite Forall_forall in G;
      pose proof (G first (list_elem_of_here _ _)) as G1; split; intros; auto; lia. }
  destruct (list_find (fun e => docpos P first < docpos P e) l) as [[i x]|] eqn:Hfind.
  - apply list_find_Some in Hfind as (Hix & Hx & Hlt).
    replace (Z.of_nat i =? -1) with false by (symmetry; apply Z.eqb_neq; lia).
    rewrite Nat2Z.id.
    rewrite <- (take_drop i l) in Hl.
    apply StronglySorted_app in Hl as (Hcross & Htake & Hdrop).
    assert (Hafter : forall t, t ∈ drop i l -> docpos P first < docpos P t).
    { intros t Ht. rewrite (drop_S l x i Hix) in Ht, Hdrop.
      apply StronglySorted_cons in Hdrop as [Hhd _].
      rewrite Forall_forall in Hhd.
      apply elem_of_cons in Ht as [->|Ht]; [exact Hx|].
      specialize (Hhd t Ht). simpl in Hhd. lia. }
    apply StronglySorted_app. split; [|split; [exact Htake|]].
    + intros x1 x2 H1 H2. apply elem_of_app in H2 as [H2|H2].
      * apply elem_of_take in H1 as (j & Hj & Hji).
        apply (Hfirst x1); [eapply list_elem_of_lookup_2; exact Hj| |exact H2].
        eapply Hlt; eassumption.
      * apply Hcross; assumption.
    + apply StronglySorted_app. split; [|split; assumption].
      intros x1 x2 H1 H2. apply (Hfirst x2); [|apply Hafter; exact H2|exact H1].
      eapply elem_of_sublist; [exact H2|apply sublist_drop].
  - apply list_find_None in Hfind. rewrite Forall_forall in Hfind.
    replace (-1 =? -1) with true by reflexivity.
    unfold len. rewrite Nat2Z.id, (take_ge l (length l)), drop_all by lia.
    rewrite app_nil_r. apply StronglySorted_app. split; [|split; assumption].
    intros x1 x2 H1 H2. apply (Hfirst x1); [exact H1| |exact H2].
    apply Hfind. exact H1.
Qed.

Lemma begin_ordered batch w :
  documentOrdered P (tabbableElements w) ->
  documentOrdered P batch ->
  fitsGap P (List.filter (passesFilter options (attributes w)) batch) (tabbableElements w) ->
  documentOrdered P (tabbableElements (beginFocusManagement P options batch w)).
Proof.
  intros Hl Hb Hgap. rewrite begin_tabbable.
  pose proof (ordered_filter (passesFilter options (attributes w)) batch Hb) as Hf.
  destruct (List.filter (passesFilter options (attributes w)) batch) as [|first rest];
    [exact Hl|].
  apply splice_ordered; assumption.
Qed.

Lemma end_tabbable element w :
  tabbableElements (endFocusManagement options element w)
  = (if 0 <=? findIndex (fun e => e = element) (tabbableElements w)
     then splice_remove (findIndex (fun e => e = element) (tabbableElements w))
            (tabbableElements w)
     else tabbableElements w).
Proof.
  unfold endFocusManagement, updateTabIndex.
  destruct (0 <=? findIndex (fun e => e = element) (tabbableElements w));
    [|reflexivity].
  cbn -[findIndex splice_remove at_index].
  repeat match goal with
         | |- context [if ?c then _ else _] =>
             destruct c; cbn -[findIndex splice_remove at_index]
         | |- context [match ?c with _ => _ end] =>
             destruct c; cbn -[findIndex splice_remove at_index]
         end; reflexivity.
Qed.

Lemma end_ordered element w :
  documentOrdered P (tabbableElements w) ->
  documentOrdered P (tabbableElements (endFocusManagement options element w)).
Proof.
  intros Hl. rewrite end_tabbable.
  destruct (0 <=? _); [|exact Hl]. apply ordered_delete. exact Hl.
Qed.

(** C7 (as amended): along every sequence of offers and retirements in
    which each offered batch is in relative document order and its elements
    that pass the filter fit one gap of the collection at the time (every
    tracked element lies before all of them or after all of them), the
    tracked collection stays in document order and has no duplicates. *)
Theorem tracked_collection_stays_ordered ops w :
  documentOrdered P (tabbableElements w) ->
  batchesOrdered P ops ->
  batchesFit P options w ops ->
  documentOrdered P (tabbableElements (applyOps P options w ops))
  /\ NoDup (tabbableElements (applyOps P options w ops)).
Proof.
  intros Hw Hord Hfit.
  assert (H : documentOrdered P (tabbableElements (applyOps P options w ops))).
  { revert w Hw Hfit. unfold applyOps.
    induction Hord as [|op rest Hop Hrest IH]; intros w Hw Hfit; simpl.
    - exact Hw.
    - destruct Hfit as [Hgap Hfit]. apply IH; [|exact Hfit].
      destruct op as [batch|element]; simpl.
      + apply begin_ordered; assumption.
      + apply end_ordered; assumption. }
  split; [exact H|]. apply ordered_NoDup. exact H.
Qed.

Lemma findIndex_absent (element : HTMLElement) l :
  element ∉ l -> findIndex (fun e => e = element) l = -1.
Proof.
  intros H. unfold findIndex.
  destruct (list_find (fun e => e = element) l) as [[i x]|] eqn:Hf; [|reflexivity].
  apply list_find_Some in Hf as (Hix & -> & _).
  exfalso. apply H. eapply list_elem_of_lookup_2. exact Hix.
Qed.

Lemma findIndex_first_occurrence (element : HTMLElement) l1 l2 :
  element ∉ l1 ->
  findIndex (fun e => e = element) (l1 ++ element :: l2) = Z.of_nat (length l1).
Proof.
  intros H. unfold findIndex.
  assert (Hf : list_find (fun e => e = element) (l1 ++ element :: l2)
               = Some (length l1, element)).
  { apply list_find_Some. split; [apply list_lookup_middle; reflexivity|].
    split; [reflexivity|]. intros j y Hj Hlt ->.
    rewrite lookup_app_l in Hj by exact Hlt.
    apply H. eapply list_elem_of_lookup_2. exact Hj. }
  rewrite Hf. reflexivity.
Qed.

(** C8 (as amended): retiring an element removes its first occurrence
    from the collection, if there is one.  When the removed element carried
    the tab-stop marker (tabindex "0") and an element remains, the current
    element and index move to the new first element, which receives the
    tab-stop marker in roving mode only; otherwise the current element,
    the current index and all attributes stay as they were. *)
Theorem retire_removes_and_transfers element w :
  let w' := endFocusManagement options element w in
  (element ∉ tabbableElements w ->
     tabbableElements w' = tabbableElements w
     /\ currentFocusedElement w' = currentFocusedElement w
     /\ currentFocusedIndex w' = currentFocusedIndex w
     /\ attributes w' = attributes w)
  /\ (forall l1 l2,
        tabbableElements w = l1 ++ element :: l2 -> element ∉ l1 ->
        tabbableElements w' = l1 ++ l2
        /\ (getAttribute element "tabindex" w = Some "0" ->
            forall first rest, l1 ++ l2 = first :: rest ->
              currentFocusedElement w' = Some first
              /\ currentFocusedIndex w' = 0
              /\ attributes w'
                 = match activeDescendantOptions options with
                   | None => <[(first, "tabindex") := "0"]> (attributes w)
                   | Some _ => attributes w
                   end)
        /\ (getAttribute element "tabindex" w <> Some "0" \/ l1 ++ l2 = [] ->
              currentFocusedElement w' = currentFocusedElement w
              /\ currentFocusedIndex w' = currentFocusedIndex w
              /\ attributes w' = attributes w)).
Proof.
  intros w'. subst w'. split.
  - intros Habs. unfold endFocusManagement.
    rewrite (findIndex_absent _ _ Habs). simpl. repeat split; reflexivity.
  - intros l1 l2 Hl Hnot. unfold endFocusManagement.
    rewrite Hl, (findIndex_first_occurrence _ _ _ Hnot).
    replace (0 <=? Z.of_nat (length l1)) with true
      by (symmetry; apply Z.leb_le; lia).
    unfold splice_remove. rewrite Nat2Z.id, delete_middle.
    unfold getAttribute. cbn [attributes set_tabbableElements tabbableElements].
    split; [|split].
    + destruct (bool_decide (attributes w !! (element, "tabindex") = Some "0")
                && (0 <? len (l1 ++ l2))); [|reflexivity].
      unfold updateTabIndex. destruct (activeDescendantControl options);
        destruct (at_index (l1 ++ l2) 0); reflexivity.
    + intros Hzero first rest Hfr. rewrite Hfr.
      rewrite bool_decide_eq_true_2 by exact Hzero.
      unfold updateTabIndex, activeDescendantControl.
      destruct (activeDescendantOptions options); simpl; repeat split; reflexivity.
    + intros Hcase.
      assert (Hc : bool_decide (attributes w !! (element, "tabindex") = Some "0")
                   && (0 <? len (l1 ++ l2)) = false).
      { destruct Hcase as [Hne|Hnil].
        - rewrite bool_decide_eq_false_2 by exact Hne. reflexivity.
        - rewrite Hnil. apply andb_false_r. }
      rewrite Hc. repeat split; reflexivity.
Qed.

End Tracker.

(** ** Navigation on an empty collection *)

Section EmptyCollection.
Context (P : Platform) (options : ArrowFocusOptions).

Lemma at_index_nil {A} (i : Z) : at_index (@nil A) i = None.
Proof. unfold at_index. destruct (i <? 0); [reflexivity|apply lookup_nil]. Qed.

(** The built-in transition on an empty collection finds nothing to
    focus and leaves the index at 0 or -1. *)
Lemma builtin_on_empty ev d toEnd w :
  tabbableElements w = [] ->
  let r := builtinTransition options ev d toEnd w in
  snd r = None
  /\ (currentFocusedIndex (fst r) = 0 \/ currentFocusedIndex (fst r) = -1).
Proof.
  intros Hl r. subst r.
  pose proof (builtin_tabbable options ev d toEnd w) as Ht. rewrite Hl in Ht.
  split.
  - unfold builtinTransition in *. cbv zeta in *. cbn [fst snd] in *.
    rewrite Ht, at_index_nil. destruct (bool_decide _); reflexivity.
  - clear Ht. unfold builtinTransition. cbv zeta. cbn [fst].
    destruct d, toEnd; cbn -[suspendActiveDescendant];
      rewrite ?suspend_tabbable, ?Hl;
      repeat match goal with
        | |- context [if circularOf options && _ then _ else _] =>
            destruct (circularOf options && negb (isTab (key ev)))
        | |- context [match activeDescendantControl options with _ => _ end] =>
            destruct (activeDescendantControl options)
        | |- context [?a <? ?b] => destruct (Z.ltb_spec a b)
        | |- context [?a <=? ?b] => destruct (Z.leb_spec a b)
        | _ => progress (cbn -[suspendActiveDescendant] in *;
                         rewrite ?suspend_tabbable, ?suspend_index, ?Hl in *)
        end;
      unfold len in *; simpl in *; lia.
Qed.

(** What [suspendActiveDescendant] can change. *)
Lemma suspend_shape w :
  tabbableElements (suspendActiveDescendant options w) = tabbableElements w
  /\ idCounter (suspendActiveDescendant options w) = idCounter w
  /\ currentFocusedElement (suspendActiveDescendant options w) = None
  /\ activeDescendantSuspended (suspendActiveDescendant options w) = true
  /\ (forall k v, attributes (suspendActiveDescendant options w) !! k = Some v ->
                  attributes w !! k = Some v)
  /\ exists new, emitted w (suspendActiveDescendant options w) new
       /\ forall x, In x new ->
            x = ActiveDescendantChanged None (currentFocusedElement w).
Proof.
  unfold suspendActiveDescendant, activeDescendantCallback, emitted, removeAttribute.
  destruct (activeDescendantControl options) as [c|]; simpl;
    destruct (activeDescendantOptions options) as [o|]; simpl;
    try destruct (onActiveDescendantChanged o); simpl;
    repeat split;
    try (intros k v Hk; try apply lookup_delete_Some in Hk; tauto);
    first [ exists []; split; [reflexivity|intros x []]
          | eexists [_]; split; [reflexivity|intros x [<-|[]]; reflexivity] ].
Qed.

(** The built-in transition on an empty collection, exactly: the index
    ends at -1, or at 0 when wrap is in effect and the stepped index is not
    negative; the manager suspends, in active-descendant mode, exactly when
    the stepped index is negative and wrap is not in effect. *)
Lemma builtin_on_empty_exact ev d toEnd w :
  tabbableElements w = [] ->
  let stepped := steppedIndex (currentFocusedIndex w) d toEnd 0 in
  let wrap := circularOf options && negb (isTab (key ev)) in
  let suspends := (stepped <? 0) && negb wrap
                  && bool_decide (is_Some (activeDescendantOptions options)) in
  builtinTransition options ev d toEnd w
  = (set_currentFocusedIndex (if (stepped <? 0) || negb wrap then -1 else 0)
       (if suspends then suspendActiveDescendant options w else w),
     None).
Proof.
  intros Hl stepped wrap suspends.
  assert (Hsnd : snd (builtinTransition options ev d toEnd w) = None)
    by (apply builtin_on_empty; exact Hl).
  assert (Hfst : fst (builtinTransition options ev d toEnd w)
                 = set_currentFocusedIndex
                     (if (stepped <? 0) || negb wrap then -1 else 0)
                     (if suspends then suspendActiveDescendant options w else w)).
  { subst stepped wrap suspends. clear Hsnd.
    unfold builtinTransition, steppedIndex, activeDescendantControl.
    cbv zeta. cbn [fst].
    assert (Hsome : forall (o : option ActiveDescendantOptions),
              bool_decide (is_Some o) = match o with Some _ => true | None => false end).
    { intros [o|]; [apply bool_decide_eq_true_2; eauto|].
      apply bool_decide_eq_false_2. intros [? ?]; discriminate. }
    rewrite Hsome.
    assert (Hlen : len (@nil HTMLElement) = 0) by reflexivity.
    destruct d, toEnd; cbn -[suspendActiveDescendant Z.ltb Z.leb Z.sub Z.add];
      rewrite ?Hl, ?Hlen;
      destruct (circularOf options && negb (isTab (key ev)));
      destruct (activeDescendantOptions options) as [ado|];
      cbn -[suspendActiveDescendant Z.ltb Z.leb Z.sub Z.add];
      repeat match goal with
        | |- context [?a <? ?b] =>
            destruct (Z.ltb_spec a b);
            cbn -[suspendActiveDescendant Z.ltb Z.leb Z.sub Z.add] in *
        | |- context [?a <=? ?b] =>
            destruct (Z.leb_spec a b);
            cbn -[suspendActiveDescendant Z.ltb Z.leb Z.sub Z.add] in *
        | _ => progress (rewrite ?suspend_tabbable, ?suspend_index, ?Hl, ?Hlen in *;
                         cbn -[suspendActiveDescendant Z.ltb Z.leb Z.sub Z.add] in *)
        end;
      try lia; rewrite ?suspend_set_index; reflexivity. }
  rewrite <- Hfst, <- Hsnd. destruct (builtinTransition options ev d toEnd w).
  reflexivity.
Qed.

(** What [suspendActiveDescendant] does in active-descendant mode. *)
Lemma suspend_exact ado w :
  activeDescendantOptions options = Some ado ->
  getAttribute (controllingElement ado) "aria-activedescendant"
    (suspendActiveDescendant options w) = None
  /\ effects (suspendActiveDescendant options w)
     = (if onActiveDescendantChanged ado
        then [ActiveDescendantChanged None (currentFocusedElement w)]
        else []) ++ effects w.
Proof.
  intros Had. unfold suspendActiveDescendant, activeDescendantCallback,
    activeDescendantControl, getAttribute, removeAttribute.
  rewrite Had. destruct (onActiveDescendantChanged ado); cbn;
    (split; [apply lookup_delete_eq|reflexivity]).
Qed.

(** C10 (as amended): a bound keypress received while the tracked
    collection is empty, the override resolver supplying nothing, focuses
    and designates no element, sets no attribute and mints no identifier,
    and the collection stays empty.  It is not a no-op.  A suspended manager
    becomes active, the index unchanged.  An active manager ends with the
    index at -1, or at 0 when wrap is in effect (wrap enabled, key not Tab)
    and the stepped index is not negative; in active-descendant mode it
    suspends again (attribute of the controlling element removed, callback
    with undefined) exactly when the stepped index is negative and wrap is
    not in effect, and otherwise only the index changes.  The key is
    consumed unless it is Tab. *)
Theorem keypress_on_empty_collection ev bit d w :
  tabbableElements w = [] ->
  KEY_TO_BIT (key ev) = Some bit ->
  handlesKey P options ev bit = true ->
  getDirection ev = Some d ->
  overrideNext options ev d (toEndOf P ev) = None ->
  let w' := keydownHandler P options ev w in
  let consume := fun v => if isTab (key ev) then v else emit PreventDefault v in
  tabbableElements w' = []
  /\ idCounter w' = idCounter w
  /\ (exists new, emitted w w' new
        /\ forall x, In x new ->
             x = PreventDefault
             \/ x = ActiveDescendantChanged None (currentFocusedElement w))
  /\ (forall k v, attributes w' !! k = Some v -> attributes w !! k = Some v)
  /\ (currentFocusedElement w' = currentFocusedElement w
      \/ currentFocusedElement w' = None)
  /\ (activeDescendantSuspended w = true ->
        w' = consume (set_suspended false w))
  /\ (activeDescendantSuspended w = false ->
        let stepped := steppedIndex (currentFocusedIndex w) d (toEndOf P ev) 0 in
        let wrap := circularOf options && negb (isTab (key ev)) in
        let suspends := (stepped <? 0) && negb wrap
                        && bool_decide (is_Some (activeDescendantOptions options)) in
        currentFocusedIndex w' = (if (stepped <? 0) || negb wrap then -1 else 0)
        /\ activeDescendantSuspended w' = suspends
        /\ w' = consume
                  (set_currentFocusedIndex (currentFocusedIndex w')
                     (if suspends then suspendActiveDescendant options w else w))
        /\ (suspends = true ->
            forall ado, activeDescendantOptions options = Some ado ->
              currentFocusedElement w' = None
              /\ getAttribute (controllingElement ado) "aria-activedescendant" w'
                 = None
              /\ emitted w w'
                   ((if isTab (key ev) then [] else [PreventDefault])
                    ++ (if onActiveDescendantChanged ado
                        then [ActiveDescendantChanged None (currentFocusedElement w)]
                        else [])))).
Proof.
  intros Hl Hb Hh Hd Ho w' consume. subst w' consume.
  unfold keydownHandler. rewrite Hb, Hd, Hh. unfold resolveNext.
  destruct (activeDescendantSuspended w) eqn:Hs.
  - (* suspended: the flag is cleared *)
    cbn [tabbableElements set_suspended currentFocusedIndex].
    rewrite Hl, at_index_nil.
    replace (bool_decide (is_Some (@None HTMLElement))) with false
      by (symmetry; apply bool_decide_eq_false_2; intros [? ?]; discriminate).
    rewrite orb_false_r.
    destruct (isTab (key ev)); simpl; rewrite ?Hl;
      (repeat split; try reflexivity; try tauto; try discriminate;
       try (intros k v Hk; exact Hk));
      first [ exists []; split; [reflexivity|intros x []]
            | eexists [_]; split; [reflexivity|intros x [<-|[]]; auto] ].
  - rewrite Ho.
    rewrite (builtin_on_empty_exact ev d (toEndOf P ev) w Hl).
    pose proof (suspend_shape w) as (St & Sid & Sc & Ss & Sa & new & Se & Sn).
    replace (bool_decide (is_Some (@None HTMLElement))) with false
      by (symmetry; apply bool_decide_eq_false_2; intros [? ?]; discriminate).
    rewrite orb_false_r.
    set (final := if (steppedIndex (currentFocusedIndex w) d (toEndOf P ev) 0 <? 0)
                     || negb (circularOf options && negb (isTab (key ev)))
                  then -1 else 0).
    set (suspends := (steppedIndex (currentFocusedIndex w) d (toEndOf P ev) 0 <? 0)
                     && negb (circularOf options && negb (isTab (key ev)))
                     && bool_decide (is_Some (activeDescendantOptions options))).
    assert (Hlast : forall tabKey : bool,
              suspends = true ->
              forall ado, activeDescendantOptions options = Some ado ->
                let v := (if tabKey
                          then set_currentFocusedIndex final
                                 (suspendActiveDescendant options w)
                          else emit PreventDefault
                                 (set_currentFocusedIndex final
                                    (suspendActiveDescendant options w))) in
                currentFocusedElement v = None
                /\ getAttribute (controllingElement ado) "aria-activedescendant" v
                   = None
                /\ emitted w v
                     ((if tabKey then [] else [PreventDefault])
                      ++ (if onActiveDescendantChanged ado
                          then [ActiveDescendantChanged None (currentFocusedElement w)]
                          else []))).
    { intros tabKey _ ado Had.
      destruct (suspend_exact ado w Had) as [Xa Xe].
      unfold emitted, getAttribute in *.
      destruct tabKey; cbn [emit set_currentFocusedIndex currentFocusedElement
                            attributes effects];
        rewrite Sc, Xa, Xe; repeat split; reflexivity. }
    unfold emitted in *.
    destruct suspends eqn:Esus; destruct (isTab (key ev)) eqn:Etab;
      cbn [negb emit set_currentFocusedIndex tabbableElements idCounter effects
           attributes currentFocusedElement currentFocusedIndex
           activeDescendantSuspended];
      (split; [rewrite ?St; exact Hl|]);
      (split; [rewrite ?Sid; reflexivity|]);
      (split; [rewrite ?Se|
       split; [first [intros k v Hk; exact Hk | exact Sa]|
       split; [first [left; reflexivity | right; exact Sc]|
       split; [discriminate|
       intros _; split; [reflexivity|
                 split; [first [exact Ss | exact Hs]|
                 split; [reflexivity|]]]]]]]).
    all: try (intros Hfalse; discriminate Hfalse).
    + exists new. split; [reflexivity|]. intros x Hx. right. apply Sn. exact Hx.
    + intros _ ado Had. exact (Hlast true eq_refl ado Had).
    + exists (PreventDefault :: new). split; [reflexivity|].
      intros x [<-|Hx]; [left; reflexivity|right; apply Sn; exact Hx].
    + intros _ ado Had. exact (Hlast false eq_refl ado Had).
    + exists []. split; [reflexivity|intros x []].
    + exists [PreventDefault]. split; [reflexivity|intros x [<-|[]]; auto].
Qed.

End EmptyCollection.

(** ** Tab-stop attributes in active-descendant mode *)

Section TabStops.
Context (P : Platform) (options : ArrowFocusOptions).

Lemma updateTabIndex_active_descendant from to w :
  is_Some (activeDescendantOptions options) ->
  updateTabIndex options from to w = w.
Proof.
  intros [o Ho]. unfold updateTabIndex, activeDescendantControl.
  rewrite Ho. reflexivity.
Qed.

Lemma manage_tabindex e elements w :
  getAttribute e "tabindex" (fold_left manageElement elements w)
  = if bool_decide (e ∈ elements) then Some "-1" else getAttribute e "tabindex" w.
Proof.
  revert w. induction elements as [|a es IH]; intros w; simpl; [reflexivity|].
  rewrite IH. destruct (bool_decide (e ∈ es)) eqn:Hes.
  - rewrite bool_decide_eq_true_2; [reflexivity|].
    apply elem_of_cons. right. apply bool_decide_eq_true in Hes. exact Hes.
  - apply bool_decide_eq_false in Hes.
    unfold manageElement, getAttribute, setAttribute.
    destruct (decide (e = a)) as [->|Hne].
    + rewrite bool_decide_eq_true_2 by apply list_elem_of_here.
      destruct (savedTabIndex w !! a); simpl; apply lookup_insert_eq.
    + rewrite bool_decide_eq_false_2
        by (intros Hin; apply elem_of_cons in Hin as [?|?]; tauto).
      destruct (savedTabIndex w !! a); simpl;
        apply lookup_insert_ne; congruence.
Qed.

(** C1 (what the code does): also in active-descendant mode, offering
    elements to the tracker writes tabindex "-1" on every element that
    passes the filter. *)
Theorem offer_writes_tabindex_in_active_descendant_mode elements e w :
  is_Some (activeDescendantOptions options) ->
  In e elements ->
  passesFilter options (attributes w) e = true ->
  getAttribute e "tabindex" (beginFocusManagement P options elements w)
  = Some "-1".
Proof.
  intros _ Hin Hpass. unfold beginFocusManagement.
  assert (Hf : In e (List.filter (passesFilter options (attributes w)) elements))
    by (apply List.filter_In; split; assumption).
  destruct (List.filter (passesFilter options (attributes w)) elements) as [|first rest] eqn:E;
    [destruct Hf|].
  rewrite manage_tabindex. rewrite bool_decide_eq_true_2; [reflexivity|].
  apply list_elem_of_In. exact Hf.
Qed.

End TabStops.

(** ** Focus entry with a custom policy *)

Section FocusEntry.
Context (P : Platform) (options : ArrowFocusOptions).

Lemma findIndex_none_requested (l : list HTMLElement) :
  findIndex (fun e => Some e = @None HTMLElement) l = -1.
Proof.
  unfold findIndex.
  destruct (list_find (fun e => Some e = None) l) as [[i x]|] eqn:Hf; [|reflexivity].
  apply list_find_Some in Hf as (_ & Hx & _). discriminate Hx.
Qed.

Lemma findIndex_untracked_requested (e : HTMLElement) l :
  e ∉ l -> findIndex (fun x => Some x = Some e) l = -1.
Proof.
  intros H. unfold findIndex.
  destruct (list_find (fun x => Some x = Some e) l) as [[i x]|] eqn:Hf; [|reflexivity].
  apply list_find_Some in Hf as (Hix & Hx & _). injection Hx as ->.
  exfalso. apply H. eapply list_elem_of_lookup_2. exact Hix.
Qed.

(** C9 (what the code does): with a custom policy, when focus comes from
    outside and the function returns nothing or an element that is not
    tracked, the handler warns and makes the newly focused element current,
    and that is all: no attribute is written, so the tab stop stays where
    it was. *)
Theorem custom_policy_fallback_keeps_tab_stop f target related w :
  focusInStrategy options = Some (StrategyFunction f) ->
  elementIndexFocusedByClick w = None ->
  containerContains P related = false ->
  (f related = None \/ exists e, f related = Some e /\ e ∉ tabbableElements w) ->
  focusinHandler P options (mkFocus (Some target) (Some related)) w
  = set_currentFocusedElement (Some target)
      (emit (ConsoleWarn "Element requested is not a known focusable element.") w).
Proof.
  intros Hst Hclk Hout Hret. unfold focusinHandler, focusInStrategyOf.
  cbn [focusTarget relatedTarget]. rewrite Hclk, Hst, Hout. cbn [default from_option id negb].
  destruct Hret as [Hn|[e [He Hne]]].
  - rewrite Hn. reflexivity.
  - rewrite He, (findIndex_untracked_requested _ _ Hne). reflexivity.
Qed.

(** The other half of the custom policy: a tracked element returned by
    the function gets the index and the focus call, and the handler returns
    at once. *)
Lemma custom_policy_redirects f target related e w :
  focusInStrategy options = Some (StrategyFunction f) ->
  elementIndexFocusedByClick w = None ->
  containerContains P related = false ->
  f related = Some e ->
  e ∈ tabbableElements w ->
  focusinHandler P options (mkFocus (Some target) (Some related)) w
  = callFocus P e
      (set_currentFocusedIndex
         (findIndex (fun x => Some x = Some e) (tabbableElements w)) w).
Proof.
  intros Hst Hclk Hout He Hin. unfold focusinHandler, focusInStrategyOf.
  cbn [focusTarget relatedTarget]. rewrite Hclk, Hst, Hout.
  cbn [default from_option id negb]. rewrite He.
  assert (Hfound : 0 <= findIndex (fun x => Some x = Some e) (tabbableElements w)).
  { unfold findIndex.
    destruct (list_find_elem_of (fun x => Some x = Some e) _ e Hin eq_refl)
      as [[i x] Hf].
    rewrite Hf. lia. }
  apply Z.leb_le in Hfound. rewrite Hfound. reflexivity.
Qed.

(** Under the 'previous' policy the same notification moves the tab stop. *)
Lemma previous_policy_moves_tab_stop target related w :
  activeDescendantOptions options = None ->
  focusInStrategy options = None \/ focusInStrategy options = Some StrategyPrevious ->
  elementIndexFocusedByClick w = None ->
  getAttribute target "tabindex"
    (focusinHandler P options (mkFocus (Some target) related) w) = Some "0".
Proof.
  intros Hr Hst Hclk. unfold focusinHandler, focusInStrategyOf.
  cbn [focusTarget]. rewrite Hclk.
  assert (Hd : default StrategyPrevious (focusInStrategy options) = StrategyPrevious)
    by (destruct Hst as [-> | ->]; reflexivity).
  rewrite Hd. unfold updateTabIndex, activeDescendantControl. rewrite Hr.
  unfold getAttribute, setAttribute.
  destruct (currentFocusedElement w); simpl; apply lookup_insert_eq.
Qed.

End FocusEntry.

(** ** Cancellation *)

Section Cancellation.
Context (P : Platform) (options : ArrowFocusOptions).

Lemma arrowFocus_listeners dom :
  listeners (arrowFocus P options dom) = registrations options.
Proof. reflexivity. Qed.

Lemma abort_silences (t : EventType) w :
  (forall r, In r (listeners w) -> In r (registrations options)) ->
  t <> FocusOutEvent ->
  listening t (abort (signalOf options) w) = false.
Proof.
  intros Hreg Ht. unfold listening, abort. cbn [listeners set_listeners].
  apply not_true_is_false. intros Hex.
  apply existsb_exists in Hex as (r & Hr & Hev).
  apply List.filter_In in Hr as [Hin Hsig].
  apply bool_decide_eq_true in Hev.
  apply negb_true_iff, bool_decide_eq_false in Hsig.
  specialize (Hreg r Hin). unfold registrations in Hreg.
  apply in_app_or in Hreg as [Hreg|Hreg].
  - simpl in Hreg. destruct Hreg as [<-|[<-|[<-|[]]]]; apply Hsig; reflexivity.
  - destruct (activeDescendantControl options); simpl in Hreg;
      [destruct Hreg as [<-|[]]; apply Ht; symmetry; exact Hev|destruct Hreg].
Qed.

Lemma aborted_run_is_silent w inputs :
  (forall r, In r (listeners w) -> In r (registrations options)) ->
  Forall (fun i => viaSignal i = true) inputs ->
  run P options (abort (signalOf options) w) inputs = abort (signalOf options) w.
Proof.
  intros Hreg Hin. unfold run.
  induction Hin as [|i rest Hi Hrest IH]; simpl; [reflexivity|].
  assert (Hstep : dispatch P options (abort (signalOf options) w) i
                  = abort (signalOf options) w).
  { destruct i; simpl in Hi; try discriminate; simpl;
      rewrite abort_silences by (assumption || discriminate); reflexivity. }
  rewrite Hstep. exact IH.
Qed.

(** C4 (as amended): once the governing signal has fired (the caller's
    signal when one was supplied, else the signal of the returned
    controller), keydown, focus-entry and pointer-down notifications run no
    handler: whatever sequence of them arrives, the world, attributes
    included, stays exactly as it was at cancellation.  [w] is any world
    whose listeners are among those [arrowFocus] adds. *)
Theorem abort_detaches_signalled_handlers w inputs :
  (forall r, In r (listeners w) -> In r (registrations options)) ->
  Forall (fun i => viaSignal i = true) inputs ->
  run P options (abort (signalOf options) w) inputs = abort (signalOf options) w
  /\ (forall i, viaSignal i = true ->
        dispatch P options (abort (signalOf options) w) i
        = abort (signalOf options) w)
  /\ attributes (run P options (abort (signalOf options) w) inputs) = attributes w.
Proof.
  intros Hreg Hin. split; [|split].
  - apply aborted_run_is_silent; assumption.
  - intros i Hi.
    apply (aborted_run_is_silent w [i] Hreg).
    constructor; [exact Hi|constructor].
  - rewrite aborted_run_is_silent by assumption.
    reflexivity.
Qed.

(** Reachable worlds: when the platform's reaction to [focus()] leaves the
    listeners alone, every world reached from [arrowFocus] has only
    listeners that [arrowFocus] added, so the statement above applies. *)
Section ReachableWorlds.
Hypothesis platform_keeps_listeners :
  forall e w, listeners (platformFocus P e w) = listeners w.

Ltac case_split :=
  repeat match goal with
         | |- context [if ?c then _ else _] => destruct c; simpl
         | |- context [match ?c with _ => _ end] => destruct c; simpl
         end.

Lemma updateTabIndex_listeners from to w :
  listeners (updateTabIndex options from to w) = listeners w.
Proof. unfold updateTabIndex. case_split; reflexivity. Qed.

Lemma suspend_listeners w :
  listeners (suspendActiveDescendant options w) = listeners w.
Proof.
  unfold suspendActiveDescendant, activeDescendantCallback.
  case_split; reflexivity.
Qed.

Lemma setActiveDescendant_listeners from to w :
  listeners (setActiveDescendant P options from to w) = listeners w.
Proof.
  unfold setActiveDescendant, activeDescendantCallback.
  case_split; reflexivity.
Qed.

Lemma callFocus_listeners e w : listeners (callFocus P e w) = listeners w.
Proof. unfold callFocus. rewrite platform_keeps_listeners. reflexivity. Qed.

Lemma manage_listeners elements w :
  listeners (fold_left manageElement elements w) = listeners w.
Proof.
  revert w. induction elements as [|e es IH]; intros w; simpl; [reflexivity|].
  rewrite IH. unfold manageElement. destruct (savedTabIndex w !! e); reflexivity.
Qed.

Lemma begin_listeners elements w :
  listeners (beginFocusManagement P options elements w) = listeners w.
Proof.
  unfold beginFocusManagement.
  destruct (List.filter (passesFilter options (attributes w)) elements); [reflexivity|].
  rewrite manage_listeners. reflexivity.
Qed.

Lemma end_listeners element w :
  listeners (endFocusManagement options element w) = listeners w.
Proof.
  unfold endFocusManagement.
  cbn -[findIndex splice_remove at_index updateTabIndex].
  repeat match goal with
         | |- context [if ?c then _ else _] =>
             destruct c; cbn -[findIndex splice_remove at_index updateTabIndex]
         end; rewrite ?updateTabIndex_listeners; reflexivity.
Qed.

Lemma observer_listeners records w :
  listeners (observerCallback P options records w) = listeners w.
Proof.
  unfold observerCallback. revert w.
  induction records as [|m ms IH]; intros w; simpl; [reflexivity|].
  rewrite IH. unfold observeMutation.
  assert (Hrem : forall l v,
            listeners (fold_left
              (fun w0 removedNode =>
                 if bool_decide (is_Some (savedTabIndex w0 !! removedNode))
                 then endFocusManagement options removedNode w0 else w0) l v)
            = listeners v).
  { induction l as [|x l IHl]; intros v; simpl; [reflexivity|].
    rewrite IHl. destruct (bool_decide _); [apply end_listeners|reflexivity]. }
  assert (Hadd : forall l v,
            listeners (fold_left
              (fun w0 addedNode =>
                 if isFocusable P addedNode (attributes w0)
                    || bool_decide (addedNode ∈ allSeenTabbableElements w0)
                 then beginFocusManagement P options [addedNode] w0 else w0) l v)
            = listeners v).
  { induction l as [|x l IHl]; intros v; simpl; [reflexivity|].
    rewrite IHl. destruct (_ || _); [apply begin_listeners|reflexivity]. }
  rewrite Hrem, Hadd. reflexivity.
Qed.

Lemma mousedown_listeners ev w :
  listeners (mousedownHandler ev w) = listeners w.
Proof. unfold mousedownHandler. case_split; reflexivity. Qed.

Lemma focusin_listeners ev w :
  listeners (focusinHandler P options ev w) = listeners w.
Proof.
  unfold focusinHandler.
  cbn -[updateTabIndex callFocus findIndex at_index].
  repeat match goal with
         | |- context [if ?c then _ else _] =>
             destruct c; cbn -[updateTabIndex callFocus findIndex at_index]
         | |- context [match ?c with _ => _ end] =>
             destruct c; cbn -[updateTabIndex callFocus findIndex at_index]
         end;
    rewrite ?callFocus_listeners, ?updateTabIndex_listeners; reflexivity.
Qed.

Lemma builtin_listeners ev d toEnd w :
  listeners (fst (builtinTransition options ev d toEnd w)) = listeners w.
Proof.
  destruct (builtin_frame options ev d toEnd w) as [H|[_ H]]; rewrite H;
    cbn [listeners set_currentFocusedIndex];
    rewrite ?suspend_listeners; reflexivity.
Qed.

Lemma keydown_listeners ev w :
  listeners (keydownHandler P options ev w) = listeners w.
Proof.
  unfold keydownHandler.
  destruct (KEY_TO_BIT (key ev)); [|reflexivity].
  destruct (getDirection ev) as [d|]; [|reflexivity].
  destruct (handlesKey P options ev z); [|reflexivity].
  pose proof (builtin_listeners ev d (toEndOf P ev) w) as Hb.
  unfold resolveNext.
  destruct (activeDescendantSuspended w);
    [|destruct (overrideNext options ev d (toEndOf P ev));
      [|destruct (builtinTransition options ev d (toEndOf P ev) w) as [w1 nx];
        simpl in Hb]];
    repeat match goal with
           | |- context [if ?c then _ else _] => destruct c
           | |- context [match ?c with _ => _ end] => destruct c
           end;
    cbn -[setActiveDescendant callFocus];
    rewrite ?setActiveDescendant_listeners, ?callFocus_listeners;
    cbn; auto.
Qed.

Lemma dispatch_listeners w i r :
  In r (listeners (dispatch P options w i)) -> In r (listeners w).
Proof.
  destruct i; simpl.
  - destruct (listening _ w); rewrite ?mousedown_listeners; auto.
  - destruct (listening _ w); rewrite ?focusin_listeners; auto.
  - destruct (listening _ w); rewrite ?keydown_listeners; auto.
  - destruct (listening _ w); unfold focusoutHandler;
      rewrite ?suspend_listeners; auto.
  - destruct (observing w); rewrite ?observer_listeners; auto.
  - intros H. apply List.filter_In in H. tauto.
Qed.

Lemma run_listeners inputs w r :
  In r (listeners (run P options w inputs)) -> In r (listeners w).
Proof.
  unfold run. revert w.
  induction inputs as [|i rest IH]; intros w; simpl; [auto|].
  intros H. apply IH in H. eapply dispatch_listeners. exact H.
Qed.

(** Cancellation at any time after construction. *)
Corollary abort_after_any_run dom before after :
  Forall (fun i => viaSignal i = true) after ->
  let w := run P options (arrowFocus P options dom) before in
  run P options (abort (signalOf options) w) after = abort (signalOf options) w.
Proof.
  intros Hafter w. apply aborted_run_is_silent.
  - intros r Hr. apply run_listeners in Hr. exact Hr.
  - exact Hafter.
Qed.

End ReachableWorlds.

End Cancellation.

(** ** The statements at concrete documents *)

Import Sample.

Ltac by_computation := vm_compute; first [reflexivity | discriminate | tauto].

(** Three items, roving mode: ArrowDown on the first item gives index 1. *)
Lemma next_index_computed_witness :
  let P := platform [item1; item2; item3] in
  let w := arrowFocus P roving noAttributes in
  currentFocusedIndex (fst (builtinTransition roving arrowDown next false w)) = 1
  /\ currentFocusedIndex (fst (resolveNext roving arrowDown next false w)) = 1.
Proof.
  intros P w.
  assert (Hspec : next_spec (currentFocusedIndex w) next false (circularOf roving)
                    (len (tabbableElements w)) (isTab (key arrowDown)) = 1)
    by by_computation.
  destruct (next_index_computed roving arrowDown next false w) as [Hb Hr].
  - by_computation.
  - split; by_computation.
  - split.
    + rewrite Hb. exact Hspec.
    + rewrite Hr; [exact Hspec|by_computation|by_computation].
Defined.

(** Three items, wrap enabled and Tab bound: Tab on the last item;
    Shift+Tab on the first item; Tab with a resolver that names item 1; and,
    in active-descendant mode, the first Tab after construction. *)
Lemma tab_never_wraps_and_escapes_witness :
  let P := platform [item1; item2; item3] in
  let w0 := arrowFocus P rovingWrapAll noAttributes in
  let w := run P rovingWrapAll w0 [KeyDown arrowDown; KeyDown arrowDown] in
  let wr := arrowFocus P rovingResolver noAttributes in
  let ws := arrowFocus P activeDescendantTab noAttributes in
  currentFocusedIndex w = 2
  /\ currentFocusedIndex (fst (builtinTransition rovingWrapAll tab next false w))
     = len (tabbableElements w) - 1
  /\ keydownHandler P rovingWrapAll tab w = w
  /\ (exists new, emitted w0 (keydownHandler P rovingWrapAll shiftTab w0) new
                  /\ ~ In PreventDefault new)
  /\ (exists rest,
        effects (keydownHandler P rovingResolver tab wr) = PreventDefault :: rest)
  /\ (exists rest,
        effects (keydownHandler P activeDescendantTab tab ws) = PreventDefault :: rest)
  /\ currentFocusedElement (keydownHandler P activeDescendantTab tab ws) = Some item1.
Proof.
  intros P w0 w wr ws.
  assert (Hw : activeDescendantSuspended w = false) by by_computation.
  assert (Hw0 : activeDescendantSuspended w0 = false) by by_computation.
  assert (Hwr : activeDescendantSuspended wr = false) by by_computation.
  assert (Hws : activeDescendantSuspended ws = true) by by_computation.
  destruct (tab_never_wraps_and_escapes P rovingWrapAll tab w eq_refl)
    as (Hstay & Hw' & _).
  destruct (Hw' Hw) as (Hlast & _ & _).
  destruct (tab_never_wraps_and_escapes P rovingWrapAll shiftTab w0 eq_refl)
    as (_ & Hw0' & _).
  destruct (Hw0' Hw0) as (_ & Hsame & _).
  destruct (tab_never_wraps_and_escapes P rovingResolver tab wr eq_refl)
    as (_ & Hwr' & _).
  destruct (Hwr' Hwr) as (_ & _ & Hover).
  destruct (tab_never_wraps_and_escapes P activeDescendantTab tab ws eq_refl)
    as (_ & _ & Hws').
  destruct (Hws' Hws next 128) as (_ & Hagain & _);
    [by_computation|by_computation|by_computation|].
  split; [by_computation|].
  split; [apply Hstay; by_computation|].
  split; [apply Hlast; by_computation|].
  split; [|split; [|split]].
  - apply (Hsame previous); by_computation.
  - apply (Hover next item1 128); by_computation.
  - apply (Hagain item1); by_computation.
  - destruct (Hagain item1) as [_ Hdes]; [by_computation|].
    destruct Hdes as (_ & Hcur & _); [eexists; reflexivity|exact Hcur].
Defined.

(** C5, as stated, fails for a suspended manager: one item in
    active-descendant mode with Tab bound, right after construction.  The
    resolver supplies nothing and the index after the Tab keypress equals
    the prior index (as does the index of the specification's transition),
    yet the keypress is consumed: it designates item 1. *)
Lemma suspended_tab_is_consumed :
  let P := platform [item1] in
  let w := arrowFocus P activeDescendantTab noAttributes in
  let w' := keydownHandler P activeDescendantTab tab w in
  len (tabbableElements w) = 1
  /\ isTab (key tab) = true
  /\ overrideNext activeDescendantTab tab next false = None
  /\ next_spec (currentFocusedIndex w) next false (circularOf activeDescendantTab)
       (len (tabbableElements w)) (isTab (key tab)) = currentFocusedIndex w
  /\ currentFocusedIndex w' = currentFocusedIndex w
  /\ effects w' = [PreventDefault; ActiveDescendantChanged (Some item1) None].
Proof. vm_compute. repeat split; reflexivity. Qed.

(** Two items, active-descendant mode: the first keypress after
    construction designates the first item, whatever the key. *)
Lemma suspended_keypress_reenters_witness :
  let P := platform [item1; item2] in
  let w := arrowFocus P activeDescendant noAttributes in
  let w' := keydownHandler P activeDescendant arrowUp w in
  activeDescendantSuspended w' = false
  /\ currentFocusedElement w' = Some item1
  /\ getAttribute input "aria-activedescendant" w' = Some (elementId item1 w')
  /\ emitted w w' [PreventDefault; ActiveDescendantChanged (Some item1) None].
Proof.
  intros P w w'.
  destruct (suspended_keypress_reenters P activeDescendant listbox eq_refl
              arrowUp 2 item1 w) as (H1 & H2 & _ & _ & H5 & _ & H7).
  - by_computation.
  - by_computation.
  - by_computation.
  - by_computation.
  - split; [exact H1|]. split; [exact H2|]. split; [exact H5|].
    unfold emitted in *. subst w'. rewrite H7. by_computation.
Defined.



(** Offers into gaps and a retirement, starting from an empty container. *)
Lemma tracked_collection_stays_ordered_witness :
  let P := platform [] in
  let w := arrowFocus P roving noAttributes in
  let ops := [Offer [item1; item3]; Offer [item2]; Retire item1;
              Offer [5%nat; 6%nat]] in
  tabbableElements (applyOps P roving w ops) = [item2; item3; 5%nat; 6%nat]
  /\ documentOrdered P (tabbableElements (applyOps P roving w ops))
  /\ NoDup (tabbableElements (applyOps P roving w ops)).
Proof.
  intros P w ops. split; [by_computation|].
  apply (tracked_collection_stays_ordered P roving ops w).
  - constructor.
  - unfold ops, batchesOrdered, documentOrdered.
    repeat constructor; simpl; lia.
  - vm_compute.
    repeat match goal with
           | |- _ /\ _ => split
           | |- True => exact I
           | |- Forall _ _ => constructor
           | |- _ \/ _ =>
               first [ left; solve [repeat constructor]
                     | right; solve [repeat constructor] ]
           end.
Defined.

(** C7, as stated, fails: each batch is in document order, yet offering an
    element that is already tracked duplicates it, and a batch that spans a
    tracked element is inserted as one run on one side of it. *)
Lemma ordered_batches_break_the_order :
  let P := platform [] in
  let w := arrowFocus P roving noAttributes in
  let again := [Offer [item1]; Offer [item1]] in
  let spanning := [Offer [item2]; Offer [item1; item3]] in
  documentOrdered P (tabbableElements w)
  /\ batchesOrdered P again
  /\ tabbableElements (applyOps P roving w again) = [item1; item1]
  /\ ~ NoDup (tabbableElements (applyOps P roving w again))
  /\ batchesOrdered P spanning
  /\ tabbableElements (applyOps P roving w spanning) = [item1; item3; item2]
  /\ ~ documentOrdered P (tabbableElements (applyOps P roving w spanning)).
Proof.
  intros P w again spanning.
  split; [constructor|].
  split; [unfold again, batchesOrdered, documentOrdered; repeat constructor|].
  split; [by_computation|].
  split.
  { change (tabbableElements (applyOps P roving w again)) with [item1; item1].
    intros H. apply NoDup_cons in H as [H _]. apply H. apply list_elem_of_here. }
  split; [unfold spanning, batchesOrdered, documentOrdered;
          repeat constructor; simpl; lia|].
  split; [by_computation|].
  change (tabbableElements (applyOps P roving w spanning))
    with [item1; item3; item2].
  unfold documentOrdered. intros H.
  apply StronglySorted_cons in H as [_ H].
  apply StronglySorted_cons in H as [H _].
  apply Forall_cons in H as [H _]. vm_compute in H. discriminate H.
Qed.

(** Roving mode, three items, the first is the tab stop and is retired:
    the second becomes current and receives the tab stop. *)
Lemma retire_removes_and_transfers_witness :
  let P := platform [item1; item2; item3] in
  let w := arrowFocus P roving noAttributes in
  let w' := endFocusManagement roving item1 w in
  getAttribute item1 "tabindex" w = Some "0"
  /\ tabbableElements w' = [item2; item3]
  /\ currentFocusedElement w' = Some item2
  /\ currentFocusedIndex w' = 0
  /\ getAttribute item2 "tabindex" w' = Some "0".
Proof.
  intros P w w'.
  destruct (retire_removes_and_transfers roving item1 w) as [_ H].
  destruct (H [] [item2; item3]) as (Hl & Ht & _).
  - by_computation.
  - apply not_elem_of_nil.
  - assert (Hzero : getAttribute item1 "tabindex" w = Some "0") by by_computation.
    destruct (Ht Hzero item2 [item3] eq_refl) as (Hc & Hi & Ha).
    split; [exact Hzero|]. split; [exact Hl|]. split; [exact Hc|].
    split; [exact Hi|]. unfold getAttribute. subst w'. rewrite Ha.
    by_computation.
Defined.

(** C8, as stated, fails for the element that is current in
    active-descendant mode: it carries tabindex "-1", so retiring it
    transfers nothing and it stays the current element. *)
Lemma retiring_designated_element_transfers_nothing :
  let P := platform [item1; item2] in
  let w := run P activeDescendant (arrowFocus P activeDescendant noAttributes)
             [KeyDown arrowDown; KeyDown arrowDown] in
  let w' := endFocusManagement activeDescendant item2 w in
  tabbableElements w = [item1; item2]
  /\ currentFocusedElement w = Some item2
  /\ currentFocusedIndex w = 1
  /\ getAttribute item2 "tabindex" w = Some "-1"
  /\ tabbableElements w' = [item1]
  /\ currentFocusedElement w' = Some item2
  /\ currentFocusedElement w' <> Some item1
  /\ currentFocusedIndex w' = 1.
Proof. vm_compute. repeat split; try reflexivity. discriminate. Qed.

(** Empty container, active-descendant mode, manager active: ArrowUp
    suspends again when wrap is disabled and leaves the manager active when
    wrap is enabled; the index ends at -1 in both cases. *)
Lemma keypress_on_empty_collection_witness :
  let P := platform [] in
  let w := run P activeDescendant (arrowFocus P activeDescendant noAttributes)
             [KeyDown arrowDown] in
  let w' := keydownHandler P activeDescendant arrowUp w in
  let c := run P activeDescendantWrap
             (arrowFocus P activeDescendantWrap noAttributes) [KeyDown arrowDown] in
  let c' := keydownHandler P activeDescendantWrap arrowUp c in
  tabbableElements w = []
  /\ activeDescendantSuspended w = false
  /\ tabbableElements w' = []
  /\ idCounter w' = idCounter w
  /\ currentFocusedIndex w' = -1
  /\ activeDescendantSuspended w' = true
  /\ (forall k v, attributes w' !! k = Some v -> attributes w !! k = Some v)
  /\ activeDescendantSuspended c = false
  /\ currentFocusedIndex c' = -1
  /\ activeDescendantSuspended c' = false.
Proof.
  intros P w w' c c'.
  assert (Hw : activeDescendantSuspended w = false) by by_computation.
  assert (Hc : activeDescendantSuspended c = false) by by_computation.
  destruct (keypress_on_empty_collection P activeDescendant arrowUp 2 previous w)
    as (H1 & H2 & _ & H4 & _ & _ & H7);
    [by_computation|by_computation|by_computation|by_computation|by_computation|].
  destruct (keypress_on_empty_collection P activeDescendantWrap arrowUp 2 previous c)
    as (_ & _ & _ & _ & _ & _ & C7);
    [by_computation|by_computation|by_computation|by_computation|by_computation|].
  destruct (H7 Hw) as (Hi & Hs & _).
  destruct (C7 Hc) as (Ci & Cs & _).
  split; [by_computation|]. split; [exact Hw|]. split; [exact H1|].
  split; [exact H2|].
  split; [etransitivity; [exact Hi|by_computation]|].
  split; [etransitivity; [exact Hs|by_computation]|].
  split; [exact H4|]. split; [exact Hc|].
  split; [etransitivity; [exact Ci|by_computation]|].
  etransitivity; [exact Cs|by_computation].
Defined.

(** C10, as stated, fails: on an empty collection ArrowDown moves the
    index of a roving engine from 0 to -1; in active-descendant mode the
    first keypress clears the suspension flag and a following ArrowUp calls
    the change callback. *)
Lemma empty_collection_keypress_is_not_a_noop :
  let P := platform [] in
  let w := arrowFocus P roving noAttributes in
  let w' := dispatch P roving w (KeyDown arrowDown) in
  let a := arrowFocus P activeDescendant noAttributes in
  let a' := dispatch P activeDescendant a (KeyDown arrowDown) in
  let a'' := dispatch P activeDescendant a' (KeyDown arrowUp) in
  tabbableElements w = []
  /\ currentFocusedIndex w = 0
  /\ currentFocusedIndex w' = -1
  /\ tabbableElements a = []
  /\ activeDescendantSuspended a = true
  /\ activeDescendantSuspended a' = false
  /\ effects a'' = [PreventDefault; ActiveDescendantChanged None None]
                   ++ effects a'.
Proof. vm_compute. repeat split; reflexivity. Qed.

(** Roving mode without a caller's signal: after the returned controller
    is aborted, keys, focus entries and pointer presses change nothing. *)
Lemma abort_detaches_signalled_handlers_witness :
  let P := platform [item1; item2; item3] in
  let w := run P roving (arrowFocus P roving noAttributes) [KeyDown arrowDown] in
  let inputs := [KeyDown arrowDown; MouseDown (mkMouse (Some item3) None);
                 FocusIn (mkFocus (Some item3) None)] in
  signalOf roving = ControllerSignal
  /\ run P roving (dispatch P roving w (Abort ControllerSignal)) inputs
     = dispatch P roving w (Abort ControllerSignal).
Proof.
  intros P w inputs. split; [by_computation|].
  destruct (abort_detaches_signalled_handlers P roving w inputs) as [H _].
  - intros r Hr. exact Hr.
  - repeat constructor.
  - exact H.
Defined.

(** C4, as stated, fails when the caller supplies a signal: the listeners
    hang on that signal, and aborting the returned controller detaches
    nothing: the next ArrowDown is handled. *)
Lemma returned_controller_detaches_nothing :
  let P := platform [item1; item2; item3] in
  let w := arrowFocus P rovingCallerSignal noAttributes in
  let w1 := dispatch P rovingCallerSignal w (Abort ControllerSignal) in
  let w2 := dispatch P rovingCallerSignal w1 (KeyDown arrowDown) in
  listeners w1 = listeners w
  /\ listening KeyDownEvent w1 = true
  /\ currentFocusedIndex w1 = 0
  /\ currentFocusedIndex w2 = 1
  /\ effects w2 = [PreventDefault; FocusCall item2] ++ effects w1.
Proof. vm_compute. repeat split; reflexivity. Qed.

(** The focus-loss listener is added without a signal and the observer is
    never disconnected: both still run after the governing signal fired. *)
Example focusout_and_observer_outlive_abort :
  let P := platform [item1; item2] in
  let w := run P activeDescendant (arrowFocus P activeDescendant noAttributes)
             [KeyDown arrowDown; Abort (signalOf activeDescendant)] in
  let w1 := dispatch P activeDescendant w FocusOut in
  let w2 := dispatch P activeDescendant w (Mutations [mkMutation [item3] []]) in
  listening KeyDownEvent w = false
  /\ listening FocusOutEvent w = true
  /\ observing w = true
  /\ getAttribute input "aria-activedescendant" w = Some "id-0"
  /\ getAttribute input "aria-activedescendant" w1 = None
  /\ effects w1 = ActiveDescendantChanged None (Some item1) :: effects w
  /\ getAttribute item3 "tabindex" w = None
  /\ getAttribute item3 "tabindex" w2 = Some "-1"
  /\ tabbableElements w2 = [item1; item2; item3].
Proof. vm_compute. repeat split; reflexivity. Qed.

(** Active-descendant mode: the scan at construction marks both items. *)
Lemma offer_writes_tabindex_witness :
  let P := platform [item1; item2] in
  let w0 := mkWorld [] ∅ ∅ 0 false None None noAttributes 0 [] false [] in
  getAttribute item2 "tabindex" w0 = None
  /\ getAttribute item2 "tabindex"
       (beginFocusManagement P activeDescendant [item1; item2] w0) = Some "-1"
  /\ getAttribute item2 "tabindex" (arrowFocus P activeDescendant noAttributes)
     = Some "-1".
Proof.
  intros P w0. split; [by_computation|]. split; [|by_computation].
  apply (offer_writes_tabindex_in_active_descendant_mode P activeDescendant).
  - exists listbox. reflexivity.
  - right. left. reflexivity.
  - by_computation.
Defined.

(** Roving mode with a custom policy that returns nothing: focus enters
    the second item from outside the container. *)
Lemma custom_policy_fallback_witness :
  let P := platform [item1; item2] in
  let w := arrowFocus P customPolicy noAttributes in
  let w' := focusinHandler P customPolicy (mkFocus (Some item2) (Some elsewhere)) w in
  currentFocusedElement w = Some item1
  /\ currentFocusedElement w' = Some item2
  /\ getAttribute item2 "tabindex" w' = Some "-1"
  /\ getAttribute item1 "tabindex" w' = Some "0"
  /\ effects w'
     = [ConsoleWarn "Element requested is not a known focusable element."].
Proof.
  intros P w w'.
  assert (H : w' = set_currentFocusedElement (Some item2)
                     (emit (ConsoleWarn
                        "Element requested is not a known focusable element.") w)).
  { apply (custom_policy_fallback_keeps_tab_stop P customPolicy declining).
    - by_computation.
    - by_computation.
    - by_computation.
    - left. by_computation. }
  rewrite H. vm_compute. repeat split; reflexivity.
Defined.

(** The same notification under the default policy moves the tab stop. *)
Example previous_policy_at_the_same_input :
  let P := platform [item1; item2] in
  let w := arrowFocus P roving noAttributes in
  let w' := focusinHandler P roving (mkFocus (Some item2) (Some elsewhere)) w in
  currentFocusedElement w' = Some item2
  /\ getAttribute item2 "tabindex" w' = Some "0"
  /\ getAttribute item1 "tabindex" w' = Some "-1".
Proof. vm_compute. repeat split; reflexivity. Qed.

(** After the fallback the next focus entry from inside makes a second
    tab stop: item 1 keeps tabindex "0" while item 3 receives it. *)
Example fallback_leads_to_two_tab_stops :
  let P := platform [item1; item2; item3] in
  let w := arrowFocus P customPolicy noAttributes in
  let w1 := focusinHandler P customPolicy (mkFocus (Some item2) (Some elsewhere)) w in
  let w2 := focusinHandler P customPolicy (mkFocus (Some item3) (Some item2)) w1 in
  getAttribute item1 "tabindex" w2 = Some "0"
  /\ getAttribute item2 "tabindex" w2 = Some "-1"
  /\ getAttribute item3 "tabindex" w2 = Some "0".
Proof. vm_compute. repeat split; reflexivity. Qed.

(** Re-entry from suspension is not a computed movement: with Tab bound in
    active-descendant mode, the first Tab designates item 1 and is
    consumed. *)
Example tab_reenters_when_suspended :
  let P := platform [item1; item2] in
  let w := arrowFocus P activeDescendantTab noAttributes in
  let w' := dispatch P activeDescendantTab w (KeyDown tab) in
  activeDescendantSuspended w = true
  /\ currentFocusedIndex w' = currentFocusedIndex w
  /\ currentFocusedElement w' = Some item1
  /\ effects w' = [PreventDefault; ActiveDescendantChanged (Some item1) None].
Proof. vm_compute. repeat split; reflexivity. Qed.

(** The scenario of the specification: three items, vertical arrows and
    Home/End, no wrap, on a platform that re-enters the focus-entry handler.
    Down moves to item 2 and moves the tab stop; End moves to item 3; Down
    on the last item changes nothing. *)
Example three_item_scenario :
  let P := browser roving [item1; item2; item3] in
  let w0 := arrowFocus P roving noAttributes in
  let w1 := dispatch P roving w0 (KeyDown arrowDown) in
  let w2 := dispatch P roving w1 (KeyDown (mkKey "End" false false false false None)) in
  let w3 := dispatch P roving w2 (KeyDown arrowDown) in
  currentFocusedElement w0 = Some item1
  /\ getAttribute item1 "tabindex" w0 = Some "0"
  /\ currentFocusedIndex w1 = 1
  /\ currentFocusedElement w1 = Some item2
  /\ getAttribute item1 "tabindex" w1 = Some "-1"
  /\ getAttribute item2 "tabindex" w1 = Some "0"
  /\ effects w1 = [PreventDefault; FocusCall item2]
  /\ currentFocusedIndex w2 = 2
  /\ currentFocusedElement w2 = Some item3
  /\ getAttribute item3 "tabindex" w2 = Some "0"
  /\ currentFocusedIndex w3 = 2
  /\ currentFocusedElement w3 = Some item3
  /\ getAttribute item3 "tabindex" w3 = Some "0"
  /\ getAttribute item2 "tabindex" w3 = Some "-1"
  /\ effects w3 = PreventDefault :: effects w2.
Proof. vm_compute. repeat split; reflexivity. Qed.

(** Pointer precedence: with item 3 current, a pointer press on item 1
    followed by its focus entry makes item 1 the current position under
    the 'first' policy as well. *)
Example pointer_precedence :
  let first := mkOptions None None None None false None (Some StrategyFirst) in
  let P := platform [item1; item2; item3] in
  let w := run P first (arrowFocus P first noAttributes)
             [FocusIn (mkFocus (Some item3) (Some item1));
              MouseDown (mkMouse (Some item1) (Some item3));
              FocusIn (mkFocus (Some item1) (Some item3))] in
  currentFocusedIndex w = 0
  /\ currentFocusedElement w = Some item1
  /\ getAttribute item1 "tabindex" w = Some "0"
  /\ getAttribute item3 "tabindex" w = Some "-1"
  /\ elementIndexFocusedByClick w = None.
Proof. vm_compute. repeat split; reflexivity. Qed.

Example getDirection_shift_tab : getDirection shiftTab = Some previous.
Proof. reflexivity. Qed.

Example KeyBits_All_value : KeyBits.All = 511.
Proof. reflexivity. Qed.

(** * Further properties of the engine *)

(** ** Key tables and suppression rules *)

Section KeyResolver.

Lemma assoc_In {A} k (l : list (string * A)) v :
  assoc k l = Some v -> In (k, v) l.
Proof.
  induction l as [|[k' v'] l IH]; simpl; [discriminate|].
  destruct (String.eqb_spec k k') as [->|Hne].
  - intros [= ->]. left. reflexivity.
  - intros H. right. apply IH. exact H.
Qed.

(** A key of the tables is one of the seventeen, with its bit and
    direction. *)
Lemma key_of_table k bit d :
  KEY_TO_BIT k = Some bit -> KEY_TO_DIRECTION k = Some d ->
  In (k, (bit, d)) keyTable.
Proof.
  unfold KEY_TO_BIT, KEY_TO_DIRECTION.
  destruct (assoc k keyTable) as [[b d']|] eqn:E; simpl; [|discriminate].
  intros Hb Hd. injection Hb as ->. injection Hd as ->.
  exact (assoc_In k keyTable (bit, d) E).
Qed.

(** X1: the two tables agree with the documented groups: under the mask of
    one group, the keys bound and their directions are exactly those the
    group's comment names. *)
Theorem groups_bind_their_keys g keys k d :
  In (g, keys) documentedGroups ->
  (boundWith g k d <-> In (k, d) keys).
Proof.
  intros Hg. split.
  - intros (bit & Hb & Hland & Hd).
    pose proof (key_of_table k bit d Hb Hd) as Hk.
    unfold documentedGroups in Hg. simpl in Hg, Hk.
    repeat (destruct Hg as [Hg|Hg];
            [injection Hg as <- <-;
             repeat (destruct Hk as [Hk|Hk];
                     [injection Hk as <- <- <-;
                      first [ vm_compute in Hland; discriminate Hland
                            | simpl; tauto ]|]);
             destruct Hk|]).
    destruct Hg.
  - intros Hk. unfold documentedGroups in Hg. simpl in Hg.
    repeat (destruct Hg as [Hg|Hg];
            [injection Hg as <- <-; simpl in Hk;
             repeat (destruct Hk as [Hk|Hk];
                     [injection Hk as <- <-;
                      eexists; split; [reflexivity|split; reflexivity]|]);
             destruct Hk|]).
    destruct Hg.
Qed.

(** Without [bindKeys], a key is handled exactly when it is ArrowUp,
    ArrowDown, Home or End, and with an override resolver also ArrowLeft
    and ArrowRight. *)
Lemma bound_by_mask_cases mask k :
  (exists d, boundWith mask k d) ->
  exists bit d, In (k, (bit, d)) keyTable /\ 0 < Z.land bit mask.
Proof.
  intros (d & bit & Hb & Hl & Hd). exists bit, d. split; [|exact Hl].
  apply key_of_table; assumption.
Qed.

(** X2: the default binding. *)
Theorem default_bindings options k :
  bindKeys options = None ->
  ((exists d, boundWith (bindKeysOf options) k d)
   <-> In k (match getNextFocusable options with
             | None => ["ArrowUp"; "ArrowDown"; "Home"; "End"]
             | Some _ => ["ArrowLeft"; "ArrowRight"; "ArrowUp"; "ArrowDown";
                          "Home"; "End"]
             end)).
Proof.
  intros Hnone. unfold bindKeysOf. rewrite Hnone. split.
  - intros H. apply bound_by_mask_cases in H as (bit & d & Hk & Hl).
    simpl in Hk.
    destruct (getNextFocusable options);
      repeat (destruct Hk as [Hk|Hk];
              [injection Hk as <- <- <-;
               first [ vm_compute in Hl; discriminate Hl | simpl; tauto ]|]);
      destruct Hk.
  - destruct (getNextFocusable options); simpl; intros Hk;
      repeat (destruct Hk as [<-|Hk];
              [eexists; eexists; split; [reflexivity|split; reflexivity]|]);
      destruct Hk.
Qed.

(** X3: when the focused element is no text input, text area or select
    (or nothing is focused), no key is suppressed. *)
Theorem no_suppression_outside_form_fields isMac ev active :
  activeKind <$> active = None \/ activeKind <$> active = Some OtherElement ->
  shouldIgnoreFocusHandling isMac ev active = false.
Proof.
  intros H. unfold shouldIgnoreFocusHandling, isTextInput, isSelect, isTextArea.
  destruct H as [-> | ->]; reflexivity.
Qed.

(** X4: Tab is never suppressed, whatever has focus. *)
Theorem tab_is_never_suppressed isMac ev active :
  key ev = "Tab" ->
  shouldIgnoreFocusHandling isMac ev active = false.
Proof.
  intros Hk. unfold shouldIgnoreFocusHandling. rewrite Hk. simpl.
  rewrite !andb_false_r. simpl.
  destruct (isTextInput active), (isTextArea active); reflexivity.
Qed.

(** X5: while a text input or a text area has focus, every key of one code
    point and Home and End are suppressed; while a select has focus, every
    key of one code point is. *)
Theorem typing_keys_are_suppressed isMac ev active :
  (isTextInput active = true ->
   keyLength (key ev) = 1 \/ key ev = "Home" \/ key ev = "End" ->
   shouldIgnoreFocusHandling isMac ev active = true)
  /\ (isSelect active = true ->
      keyLength (key ev) = 1 ->
      shouldIgnoreFocusHandling isMac ev active = true).
Proof.
  unfold shouldIgnoreFocusHandling. split.
  - intros Ht Hk. rewrite Ht. simpl.
    destruct Hk as [-> | [-> | ->]]; simpl; rewrite ?orb_true_r; reflexivity.
  - intros Hs Hk. rewrite Hs, Hk. simpl.
    rewrite orb_true_r.
    destruct (isTextInput active && _); reflexivity.
Qed.

(** X6: in a single-line text input, ArrowLeft is handled exactly when the
    cursor is at the start with nothing selected, ArrowRight exactly when it
    is at the end, and ArrowUp and ArrowDown always. *)
Theorem arrows_in_text_input isMac ev h s e n :
  let active := Some (mkActive h (TextInput s e n)) in
  (key ev = "ArrowLeft" ->
   shouldIgnoreFocusHandling isMac ev active = negb ((s =? 0) && (e =? 0)))
  /\ (key ev = "ArrowRight" ->
      shouldIgnoreFocusHandling isMac ev active = negb ((s =? n) && (e =? n)))
  /\ (key ev = "ArrowUp" \/ key ev = "ArrowDown" ->
      shouldIgnoreFocusHandling isMac ev active = false).
Proof.
  intros active.
  unfold shouldIgnoreFocusHandling, cursorAtStart, cursorAtEnd. subst active.
  split; [|split].
  - intros ->. simpl. destruct ((s =? 0) && (e =? 0)); reflexivity.
  - intros ->. simpl. destruct ((s =? n) && (e =? n)); reflexivity.
  - intros [-> | ->]; reflexivity.
Qed.

(** X7: in a text area, ArrowUp is handled exactly when the cursor is at
    the start, ArrowDown exactly when it is at the end, and PageUp and
    PageDown never. *)
Theorem arrows_in_text_area isMac ev h s e n :
  let active := Some (mkActive h (TextArea s e n)) in
  (key ev = "ArrowUp" ->
   shouldIgnoreFocusHandling isMac ev active = negb ((s =? 0) && (e =? 0)))
  /\ (key ev = "ArrowDown" ->
      shouldIgnoreFocusHandling isMac ev active = negb ((s =? n) && (e =? n)))
  /\ (key ev = "PageUp" \/ key ev = "PageDown" ->
      shouldIgnoreFocusHandling isMac ev active = true).
Proof.
  intros active.
  unfold shouldIgnoreFocusHandling, cursorAtStart, cursorAtEnd. subst active.
  split; [|split].
  - intros ->. simpl. destruct ((s =? 0) && (e =? 0)); reflexivity.
  - intros ->. simpl. destruct ((s =? n) && (e =? n)); reflexivity.
  - intros [-> | ->]; reflexivity.
Qed.

End KeyResolver.

(** ** Moving through the collection *)

Section Stepping.
Context (P : Platform) (options : ArrowFocusOptions).

(** X8: on a non-empty collection the built-in transition leaves a valid
    index whatever the index was before (it may be stale after removals),
    so an element it picks is always there. *)
Theorem transition_yields_valid_index ev d toEnd w :
  1 <= len (tabbableElements w) ->
  let r := builtinTransition options ev d toEnd w in
  0 <= currentFocusedIndex (fst r) < len (tabbableElements w)
  /\ (currentFocusedIndex (fst r) <> currentFocusedIndex w -> is_Some (snd r)).
Proof.
  intros HN r. subst r.
  pose proof (builtin_tabbable options ev d toEnd w) as Ht.
  assert (Hrange : 0 <= currentFocusedIndex
                          (fst (builtinTransition options ev d toEnd w))
                   < len (tabbableElements w)).
  { clear Ht. unfold builtinTransition. cbv zeta. cbn [fst].
    destruct d, toEnd; cbn -[suspendActiveDescendant];
      repeat match goal with
        | |- context [if circularOf options && _ then _ else _] =>
            destruct (circularOf options && negb (isTab (key ev)))
        | |- context [match activeDescendantControl options with _ => _ end] =>
            destruct (activeDescendantControl options)
        | |- context [?a <? ?b] => destruct (Z.ltb_spec a b)
        | |- context [?a <=? ?b] => destruct (Z.leb_spec a b)
        | _ => progress (cbn -[suspendActiveDescendant] in *;
                         rewrite ?suspend_tabbable, ?suspend_index in *)
        end;
      cbn in *; lia. }
  split; [exact Hrange|].
  intros Hne.
  assert (Hsnd : snd (builtinTransition options ev d toEnd w)
                 = if bool_decide
                        (currentFocusedIndex w
                         <> currentFocusedIndex
                              (fst (builtinTransition options ev d toEnd w)))
                   then at_index
                          (tabbableElements
                             (fst (builtinTransition options ev d toEnd w)))
                          (currentFocusedIndex
                             (fst (builtinTransition options ev d toEnd w)))
                   else None) by reflexivity.
  rewrite Hsnd, Ht.
  set (j := currentFocusedIndex (fst (builtinTransition options ev d toEnd w))) in *.
  rewrite bool_decide_eq_true_2 by (intros E; apply Hne; symmetry; exact E).
  unfold at_index. destruct (Z.ltb_spec j 0); [lia|].
  apply lookup_lt_is_Some. unfold len in Hrange. lia.
Qed.

(** X9: without an override resolver, the element the handler goes on to
    focus or designate is a tracked element. *)
Theorem destination_is_tracked ev d toEnd w e :
  getNextFocusable options = None ->
  snd (resolveNext options ev d toEnd w) = Some e ->
  e ∈ tabbableElements w.
Proof.
  intros Hno. unfold resolveNext, overrideNext. rewrite Hno.
  assert (Hat : forall (l : list HTMLElement) i x, at_index l i = Some x -> x ∈ l).
  { intros l i x. unfold at_index. destruct (i <? 0); [discriminate|].
    apply list_elem_of_lookup_2. }
  destruct (activeDescendantSuspended w).
  - cbn [snd tabbableElements set_suspended currentFocusedIndex]. apply Hat.
  - pose proof (builtin_tabbable options ev d toEnd w) as Ht.
    assert (Hsnd : snd (builtinTransition options ev d toEnd w)
                   = if bool_decide
                          (currentFocusedIndex w
                           <> currentFocusedIndex
                                (fst (builtinTransition options ev d toEnd w)))
                     then at_index
                            (tabbableElements
                               (fst (builtinTransition options ev d toEnd w)))
                            (currentFocusedIndex
                               (fst (builtinTransition options ev d toEnd w)))
                     else None) by reflexivity.
    rewrite Hsnd, Ht. destruct (bool_decide _); [apply Hat|discriminate].
Qed.

Lemma setActiveDescendant_keeps from to w :
  currentFocusedIndex (setActiveDescendant P options from to w) = currentFocusedIndex w
  /\ tabbableElements (setActiveDescendant P options from to w) = tabbableElements w
  /\ activeDescendantSuspended (setActiveDescendant P options from to w)
     = activeDescendantSuspended w.
Proof.
  unfold setActiveDescendant, activeDescendantCallback.
  destruct (String.eqb (elementId to w) "");
    destruct (activeDescendantControl options);
    destruct (activeDescendantOptions options) as [o|];
    try destruct (onActiveDescendantChanged o); repeat split; reflexivity.
Qed.

(** The built-in transition suspends only on a step back from index 0
    without wrap. *)
Lemma builtin_without_suspension ev d toEnd w :
  1 <= len (tabbableElements w) ->
  0 <= currentFocusedIndex w ->
  (d = previous -> toEnd = false -> currentFocusedIndex w = 0 ->
   circularOf options && negb (isTab (key ev)) = true) ->
  fst (builtinTransition options ev d toEnd w)
  = set_currentFocusedIndex
      (currentFocusedIndex (fst (builtinTransition options ev d toEnd w))) w.
Proof.
  intros HN Hi Hwrap. unfold builtinTransition. cbv zeta. cbn [fst].
  destruct d, toEnd; cbn -[suspendActiveDescendant];
    repeat match goal with
      | |- context [if circularOf options && negb (isTab (key ev)) then _ else _] =>
          destruct (circularOf options && negb (isTab (key ev))) eqn:?
      | |- context [?a <? ?b] => destruct (Z.ltb_spec a b)
      | |- context [?a <=? ?b] => destruct (Z.leb_spec a b)
      | _ => progress cbn -[suspendActiveDescendant] in *
      end;
    try reflexivity; try lia.
  all: exfalso; assert (currentFocusedIndex w = 0) as Hzero by lia;
    specialize (Hwrap eq_refl eq_refl Hzero); discriminate Hwrap.
Qed.

Section QuietPlatform.
Hypothesis Hquiet : quietFocus P.

(** One handled keypress, no resolver, no suspension on the way. *)
Lemma keydown_step ev bit d w :
  KEY_TO_BIT (key ev) = Some bit ->
  handlesKey P options ev bit = true ->
  getDirection ev = Some d ->
  getNextFocusable options = None ->
  activeDescendantSuspended w = false ->
  1 <= len (tabbableElements w) ->
  0 <= currentFocusedIndex w < len (tabbableElements w) ->
  (d = previous -> toEndOf P ev = false -> currentFocusedIndex w = 0 ->
   circularOf options && negb (isTab (key ev)) = true) ->
  currentFocusedIndex (keydownHandler P options ev w)
  = next_spec (currentFocusedIndex w) d (toEndOf P ev) (circularOf options)
      (len (tabbableElements w)) (isTab (key ev))
  /\ tabbableElements (keydownHandler P options ev w) = tabbableElements w
  /\ activeDescendantSuspended (keydownHandler P options ev w) = false.
Proof.
  intros Hb Hh Hd Hno Hs HN Hi Hwrap.
  pose proof (builtin_index options ev d (toEndOf P ev) w HN Hi) as Hidx.
  pose proof (builtin_without_suspension ev d (toEndOf P ev) w HN
                (proj1 Hi) Hwrap) as Hframe.
  unfold keydownHandler. rewrite Hb, Hd, Hh.
  unfold resolveNext, overrideNext. rewrite Hs, Hno.
  destruct (builtinTransition options ev d (toEndOf P ev) w) as [w1 nx].
  cbn [fst snd] in *. rewrite <- Hidx.
  assert (Hw1 : tabbableElements w1 = tabbableElements w
                /\ activeDescendantSuspended w1 = false).
  { rewrite Hframe. cbn. split; [reflexivity|exact Hs]. }
  destruct Hw1 as [Ht1 Hs1].
  destruct nx as [e|].
  - destruct (activeDescendantControl options).
    + destruct (setActiveDescendant_keeps (currentFocusedElement w1) e w1)
        as (K1 & K2 & K3).
      destruct (negb (isTab (key ev)) || _); cbn -[setActiveDescendant];
        rewrite K1, K2, K3; auto.
    + unfold callFocus.
      destruct (Hquiet e (emit (FocusCall e) w1)) as (K1 & K2 & K3).
      set (u := platformFocus P e (emit (FocusCall e) w1)) in *.
      cbn in K1, K2, K3.
      destruct (negb (isTab (key ev)) || _); cbn;
        rewrite K1, K2, K3; auto.
  - destruct (negb (isTab (key ev)) || _); cbn; auto.
Qed.

(** X10: without wrap (or with Tab), [n] presses of a one-step "next" key
    move the index to min(i + n, N-1): it advances and then stays on the
    last element. *)
Theorem next_presses_without_wrap ev bit n w :
  KEY_TO_BIT (key ev) = Some bit ->
  handlesKey P options ev bit = true ->
  getDirection ev = Some next ->
  toEndOf P ev = false ->
  getNextFocusable options = None ->
  circularOf options && negb (isTab (key ev)) = false ->
  activeDescendantSuspended w = false ->
  0 <= currentFocusedIndex w < len (tabbableElements w) ->
  currentFocusedIndex (presses P options ev n w)
  = Z.min (currentFocusedIndex w + Z.of_nat n) (len (tabbableElements w) - 1).
Proof.
  intros Hb Hh Hd Hte Hno Hc Hs Hi.
  assert (H : currentFocusedIndex (presses P options ev n w)
              = Z.min (currentFocusedIndex w + Z.of_nat n)
                  (len (tabbableElements w) - 1)
              /\ tabbableElements (presses P options ev n w) = tabbableElements w
              /\ activeDescendantSuspended (presses P options ev n w) = false).
  { induction n as [|n IH].
    - simpl. repeat split; [lia|exact Hs].
    - destruct IH as (I1 & I2 & I3).
      cbn [presses].
      set (v := presses P options ev n w) in *.
      destruct (keydown_step ev bit next v Hb Hh Hd Hno I3) as (K1 & K2 & K3).
      + rewrite I2. lia.
      + rewrite I1, I2. lia.
      + discriminate.
      + rewrite K1, K2, I1, I2, Hte. split; [|split; [reflexivity|exact K3]].
        unfold next_spec. rewrite Hc.
        destruct (Z.ltb_spec
                    (Z.min (currentFocusedIndex w + Z.of_nat n)
                       (len (tabbableElements w) - 1) + 1) 0); [lia|].
        destruct (Z.leb_spec (len (tabbableElements w))
                    (Z.min (currentFocusedIndex w + Z.of_nat n)
                       (len (tabbableElements w) - 1) + 1)); lia. }
  exact (proj1 H).
Qed.

(** X11: with wrap, [n] presses of a one-step "next" key other than Tab
    move the index to (i + n) mod N. *)
Theorem next_presses_with_wrap ev bit n w :
  KEY_TO_BIT (key ev) = Some bit ->
  handlesKey P options ev bit = true ->
  getDirection ev = Some next ->
  toEndOf P ev = false ->
  getNextFocusable options = None ->
  circularOf options && negb (isTab (key ev)) = true ->
  activeDescendantSuspended w = false ->
  0 <= currentFocusedIndex w < len (tabbableElements w) ->
  currentFocusedIndex (presses P options ev n w)
  = (currentFocusedIndex w + Z.of_nat n) mod len (tabbableElements w).
Proof.
  intros Hb Hh Hd Hte Hno Hc Hs Hi.
  assert (H : currentFocusedIndex (presses P options ev n w)
              = (currentFocusedIndex w + Z.of_nat n) mod len (tabbableElements w)
              /\ tabbableElements (presses P options ev n w) = tabbableElements w
              /\ activeDescendantSuspended (presses P options ev n w) = false).
  { induction n as [|n IH].
    - simpl. repeat split; [|exact Hs].
      rewrite Z.add_0_r, Z.mod_small; [reflexivity|exact Hi].
    - destruct IH as (I1 & I2 & I3).
      cbn [presses].
      set (v := presses P options ev n w) in *.
      set (N := len (tabbableElements w)) in *.
      assert (Hm : 0 <= (currentFocusedIndex w + Z.of_nat n) mod N < N)
        by (apply Z.mod_pos_bound; lia).
      destruct (keydown_step ev bit next v Hb Hh Hd Hno I3) as (K1 & K2 & K3).
      + rewrite I2. fold N. lia.
      + rewrite I1, I2. fold N. exact Hm.
      + discriminate.
      + rewrite K1, K2, I1, I2, Hte. fold N.
        split; [|split; [reflexivity|exact K3]].
        unfold next_spec. rewrite Hc.
        set (m := (currentFocusedIndex w + Z.of_nat n) mod N) in *.
        replace (currentFocusedIndex w + Z.of_nat (S n))
          with (currentFocusedIndex w + Z.of_nat n + 1) by lia.
        rewrite Zplus_mod. fold m.
        destruct (Z.ltb_spec (m + 1) 0); [lia|].
        destruct (Z.leb_spec N (m + 1)).
        * assert (m + 1 = N) as E by lia.
          destruct (Z.eq_dec N 1) as [HN1|HN1].
          -- rewrite HN1. symmetry. apply Z.mod_1_r.
          -- rewrite (Z.mod_small 1 N) by lia. rewrite E.
             symmetry. apply Z_mod_same_full.
        * destruct (Z.eq_dec N 1) as [HN1|HN1]; [lia|].
          rewrite (Z.mod_small 1 N) by lia.
          symmetry. apply Z.mod_small. lia. }
  exact (proj1 H).
Qed.

(** X12: on a platform whose [focus()] is quiet ([quietFocus]), with wrap
    enabled, no override resolver, the manager not suspended and the index
    in range: a handled one-step "next" key followed by a handled one-step
    "previous" key (neither of them Tab) brings the index back, from every
    position, the boundaries included. *)
Theorem next_then_previous_with_wrap evNext evPrev bitN bitP w :
  KEY_TO_BIT (key evNext) = Some bitN ->
  KEY_TO_BIT (key evPrev) = Some bitP ->
  handlesKey P options evNext bitN = true ->
  handlesKey P options evPrev bitP = true ->
  getDirection evNext = Some next ->
  getDirection evPrev = Some previous ->
  toEndOf P evNext = false ->
  toEndOf P evPrev = false ->
  isTab (key evNext) = false ->
  isTab (key evPrev) = false ->
  getNextFocusable options = None ->
  circularOf options = true ->
  activeDescendantSuspended w = false ->
  0 <= currentFocusedIndex w < len (tabbableElements w) ->
  currentFocusedIndex
    (keydownHandler P options evPrev (keydownHandler P options evNext w))
  = currentFocusedIndex w.
Proof.
  intros HbN HbP HhN HhP HdN HdP HtN HtP HnN HnP Hno Hc Hs Hi.
  destruct (keydown_step evNext bitN next w HbN HhN HdN Hno Hs) as (K1 & K2 & K3);
    [lia|exact Hi|discriminate|].
  set (v := keydownHandler P options evNext w) in *.
  assert (Hv : 0 <= currentFocusedIndex v < len (tabbableElements v)).
  { rewrite K1, K2, HtN, Hc, HnN. unfold next_spec. simpl.
    destruct (Z.ltb_spec (currentFocusedIndex w + 1) 0); [lia|].
    destruct (Z.leb_spec (len (tabbableElements w)) (currentFocusedIndex w + 1));
      lia. }
  destruct (keydown_step evPrev bitP previous v HbP HhP HdP Hno K3) as (L1 & _ & _);
    [lia|exact Hv| |].
  - intros _ _ _. rewrite Hc, HnP. reflexivity.
  - rewrite L1, K1, K2, HtN, HtP, Hc, HnN, HnP. unfold next_spec. simpl.
    destruct (Z.ltb_spec (currentFocusedIndex w + 1) 0); [lia|].
    destruct (Z.leb_spec (len (tabbableElements w)) (currentFocusedIndex w + 1)).
    + replace (0 - 1 <? 0) with true by reflexivity. lia.
    + destruct (Z.ltb_spec (currentFocusedIndex w + 1 - 1) 0); [lia|].
      destruct (Z.leb_spec (len (tabbableElements w))
                  (currentFocusedIndex w + 1 - 1)); lia.
Qed.

(** X13: on a platform whose [focus()] is quiet ([quietFocus]), with no
    override resolver, the manager not suspended and the index in range:
    when handled, Home and PageUp move the index to the first element, End
    and PageDown to the last, from every position and whatever the wrap
    setting and the modifiers. *)
Theorem boundary_keys ev bit w :
  KEY_TO_BIT (key ev) = Some bit ->
  handlesKey P options ev bit = true ->
  getNextFocusable options = None ->
  activeDescendantSuspended w = false ->
  0 <= currentFocusedIndex w < len (tabbableElements w) ->
  (key ev = "Home" \/ key ev = "PageUp" ->
   currentFocusedIndex (keydownHandler P options ev w) = 0)
  /\ (key ev = "End" \/ key ev = "PageDown" ->
      currentFocusedIndex (keydownHandler P options ev w)
      = len (tabbableElements w) - 1).
Proof.
  intros Hb Hh Hno Hs Hi.
  assert (Hkey : forall k d, key ev = k -> In k ["Home"; "PageUp"; "End"; "PageDown"] ->
            d = (if String.eqb k "Home" || String.eqb k "PageUp"
                 then previous else next) ->
            getDirection ev = Some d /\ toEndOf P ev = true).
  { intros k d Hk Hin ->. unfold getDirection, toEndOf. rewrite Hk.
    simpl in Hin.
    destruct Hin as [<-|[<-|[<-|[<-|[]]]]];
      (split; [reflexivity|]); simpl;
      repeat (rewrite orb_true_r; simpl); reflexivity. }
  split; intros Hk.
  - destruct (Hkey (key ev) previous eq_refl) as [Hd Hte].
    + simpl. destruct Hk as [-> | ->]; tauto.
    + destruct Hk as [-> | ->]; reflexivity.
    + destruct (keydown_step ev bit previous w Hb Hh Hd Hno Hs) as (K1 & _ & _);
        [lia|exact Hi|rewrite Hte; discriminate|].
      rewrite K1, Hte. unfold next_spec. simpl.
      destruct (Z.leb_spec (len (tabbableElements w)) 0); [lia|reflexivity].
  - destruct (Hkey (key ev) next eq_refl) as [Hd Hte].
    + simpl. destruct Hk as [-> | ->]; tauto.
    + destruct Hk as [-> | ->]; reflexivity.
    + destruct (keydown_step ev bit next w Hb Hh Hd Hno Hs) as (K1 & _ & _);
        [lia|exact Hi|discriminate|].
      rewrite K1, Hte. unfold next_spec.
      destruct (Z.ltb_spec (len (tabbableElements w) - 1) 0); [lia|].
      destruct (Z.leb_spec (len (tabbableElements w))
                  (len (tabbableElements w) - 1)); [lia|reflexivity].
Qed.

End QuietPlatform.

End Stepping.

(** ** The tracker's bookkeeping *)

Section Bookkeeping.
Context (P : Platform) (options : ArrowFocusOptions).

Lemma begin_permutation elements w :
  tabbableElements (beginFocusManagement P options elements w)
  ≡ₚ List.filter (passesFilter options (attributes w)) elements ++ tabbableElements w.
Proof.
  rewrite begin_tabbable.
  destruct (List.filter (passesFilter options (attributes w)) elements) as [|first rest];
    [reflexivity|].
  unfold splice_insert.
  rewrite Permutation_app_swap_app.
  rewrite take_drop. reflexivity.
Qed.

(** X14: an offer adds exactly the elements that pass the filter and loses
    none: the collection after it is a permutation of those elements and
    the collection before, and it is longer by their number. *)
Theorem offer_adds_exactly_the_survivors elements w :
  tabbableElements (beginFocusManagement P options elements w)
  ≡ₚ List.filter (passesFilter options (attributes w)) elements ++ tabbableElements w
  /\ len (tabbableElements (beginFocusManagement P options elements w))
     = len (List.filter (passesFilter options (attributes w)) elements)
       + len (tabbableElements w).
Proof.
  split; [apply begin_permutation|].
  unfold len. rewrite (Permutation_length (begin_permutation elements w)).
  rewrite length_app. lia.
Qed.

Section BlindFilter.
Hypothesis Hblind : documentBlind options.

Abbreviation passes := (fun e => forall document, passesFilter options document e = true).

Lemma filter_passes document elements :
  Forall passes (List.filter (passesFilter options document) elements).
Proof.
  apply List.Forall_forall. intros x Hx. apply List.filter_In in Hx as [_ Hx].
  intros document'. revert Hx. unfold passesFilter.
  destruct (focusableElementFilter options) as [f|] eqn:Hf; [|reflexivity].
  rewrite (Hblind f Hf x document' document). tauto.
Qed.

Lemma begin_keeps_filtered elements w :
  Forall passes (tabbableElements w) ->
  Forall passes (tabbableElements (beginFocusManagement P options elements w)).
Proof.
  intros H. rewrite (begin_permutation elements w).
  apply Forall_app. split; [apply filter_passes|exact H].
Qed.

Lemma end_keeps_filtered element w :
  Forall passes (tabbableElements w) ->
  Forall passes (tabbableElements (endFocusManagement options element w)).
Proof.
  intros H. rewrite end_tabbable.
  destruct (0 <=? _); [|exact H]. apply Forall_delete. exact H.
Qed.

Lemma observer_keeps_filtered records w :
  Forall passes (tabbableElements w) ->
  Forall passes (tabbableElements (observerCallback P options records w)).
Proof.
  unfold observerCallback. revert w.
  induction records as [|m ms IH]; intros w H; simpl; [exact H|].
  apply IH. unfold observeMutation.
  assert (Hrem : forall l v, Forall passes (tabbableElements v) ->
            Forall passes (tabbableElements (fold_left
              (fun w0 removedNode =>
                 if bool_decide (is_Some (savedTabIndex w0 !! removedNode))
                 then endFocusManagement options removedNode w0 else w0) l v))).
  { induction l as [|x l IHl]; intros v Hv; simpl; [exact Hv|].
    apply IHl. destruct (bool_decide _); [apply end_keeps_filtered|]; exact Hv. }
  assert (Hadd : forall l v, Forall passes (tabbableElements v) ->
            Forall passes (tabbableElements (fold_left
              (fun w0 addedNode =>
                 if isFocusable P addedNode (attributes w0)
                    || bool_decide (addedNode ∈ allSeenTabbableElements w0)
                 then beginFocusManagement P options [addedNode] w0 else w0) l v))).
  { induction l as [|x l IHl]; intros v Hv; simpl; [exact Hv|].
    apply IHl. destruct (_ || _); [apply begin_keeps_filtered|]; exact Hv. }
  apply Hrem, Hadd, H.
Qed.

(** X15: for a filter whose answer does not depend on the document, an
    element the filter rejects is never tracked: after construction and
    any number of mutation batches, every tracked element passes the
    filter, however focusable the added nodes are.  (A filter that reads
    the document can reject an element the engine tracks: see
    [filter_reading_tabindex_rejects_tracked_elements].) *)
Theorem rejected_elements_are_never_tracked dom batches e :
  e ∈ tabbableElements
        (fold_left (fun w records => observerCallback P options records w)
           batches (arrowFocus P options dom)) ->
  forall document, passesFilter options document e = true.
Proof.
  assert (H : Forall passes
                (tabbableElements
                   (fold_left (fun w records => observerCallback P options records w)
                      batches (arrowFocus P options dom)))).
  { assert (H0 : Forall passes (tabbableElements (arrowFocus P options dom))).
    { unfold arrowFocus. cbn -[beginFocusManagement updateTabIndex at_index].
      assert (Hu : forall from to v,
                tabbableElements (updateTabIndex options from to v)
                = tabbableElements v).
      { intros from to v. unfold updateTabIndex.
        destruct (activeDescendantControl options), from, to; reflexivity. }
      rewrite Hu. apply begin_keeps_filtered. constructor. }
    revert H0. generalize (arrowFocus P options dom).
    induction batches as [|b bs IH]; intros w Hw; simpl; [exact Hw|].
    apply IH. apply observer_keeps_filtered. exact Hw. }
  intros Hin. rewrite Forall_forall in H. apply H. exact Hin.
Qed.

End BlindFilter.

Lemma manage_saved e elements w :
  savedTabIndex (fold_left manageElement elements w) !! e
  = if bool_decide (e ∈ elements)
    then Some (match savedTabIndex w !! e with
               | Some v => v
               | None => getAttribute e "tabindex" w
               end)
    else savedTabIndex w !! e.
Proof.
  revert w. induction elements as [|a es IH]; intros w; simpl; [reflexivity|].
  rewrite IH. clear IH.
  assert (Hstep :
    savedTabIndex (manageElement w a) !! e
    = (if decide (e = a)
       then Some (match savedTabIndex w !! e with
                  | Some v => v
                  | None => getAttribute e "tabindex" w
                  end)
       else savedTabIndex w !! e)
    /\ (e <> a -> getAttribute e "tabindex" (manageElement w a)
                  = getAttribute e "tabindex" w)).
  { unfold manageElement, getAttribute, setAttribute.
    destruct (decide (e = a)) as [->|Hne].
    - destruct (savedTabIndex w !! a) eqn:Hs; simpl.
      + split; [rewrite Hs; reflexivity|congruence].
      + split; [apply lookup_insert_eq|congruence].
    - destruct (savedTabIndex w !! a) eqn:Hs; simpl;
        (split; [|intros _; apply lookup_insert_ne; congruence]);
        [reflexivity|apply lookup_insert_ne; congruence]. }
  destruct Hstep as [Hsv Hat].
  destruct (decide (e = a)) as [->|Hne].
  - rewrite (bool_decide_eq_true_2 (a ∈ a :: es)) by apply list_elem_of_here.
    rewrite Hsv. destruct (bool_decide (a ∈ es)); reflexivity.
  - rewrite Hsv, (Hat Hne).
    destruct (bool_decide (e ∈ es)) eqn:Hes.
    + rewrite bool_decide_eq_true_2; [reflexivity|].
      apply elem_of_cons. right. apply bool_decide_eq_true in Hes. exact Hes.
    + rewrite bool_decide_eq_false_2; [reflexivity|].
      apply bool_decide_eq_false in Hes.
      intros Hin. apply elem_of_cons in Hin as [?|?]; tauto.
Qed.

(** X16: what an offer saves for an element is the tabindex it had before
    the engine first wrote on it: an element without a saved value gets its
    present attribute saved (also when it occurs twice in the batch), a
    saved value is never overwritten by a later offer, and elements that
    are not offered or do not pass the filter keep their entry. *)
Theorem offer_saves_the_original_tabindex elements e w :
  savedTabIndex (beginFocusManagement P options elements w) !! e
  = if bool_decide (e ∈ List.filter (passesFilter options (attributes w)) elements)
    then Some (match savedTabIndex w !! e with
               | Some v => v
               | None => getAttribute e "tabindex" w
               end)
    else savedTabIndex w !! e.
Proof.
  unfold beginFocusManagement.
  destruct (List.filter (passesFilter options (attributes w)) elements) as [|first rest] eqn:E.
  - rewrite bool_decide_eq_false_2 by apply not_elem_of_nil. reflexivity.
  - rewrite manage_saved. reflexivity.
Qed.

Lemma manage_seen e elements w :
  e ∈ allSeenTabbableElements (fold_left manageElement elements w)
  <-> e ∈ elements \/ e ∈ allSeenTabbableElements w.
Proof.
  revert w. induction elements as [|a es IH]; intros w; simpl.
  - split; [auto|intros [H|H]; [inversion H|exact H]].
  - rewrite IH. unfold manageElement.
    destruct (savedTabIndex w !! a); simpl;
      rewrite elem_of_cons, elem_of_union, elem_of_singleton; tauto.
Qed.

Lemma end_seen element w :
  allSeenTabbableElements (endFocusManagement options element w)
  = allSeenTabbableElements w.
Proof.
  unfold endFocusManagement, updateTabIndex.
  cbn -[findIndex splice_remove at_index].
  repeat match goal with
         | |- context [if ?c then _ else _] =>
             destruct c; cbn -[findIndex splice_remove at_index]
         | |- context [match ?c with _ => _ end] =>
             destruct c; cbn -[findIndex splice_remove at_index]
         end; reflexivity.
Qed.

(** The world [endFocusManagement] returns when the element is tracked. *)
Lemma end_of_tracked element l1 l2 w :
  tabbableElements w = l1 ++ element :: l2 ->
  element ∉ l1 ->
  endFocusManagement options element w
  = set_savedTabIndex (delete element (savedTabIndex w))
      (if bool_decide (getAttribute element "tabindex" w = Some "0")
          && (0 <? len (l1 ++ l2))
       then set_currentFocusedIndex 0
              (set_currentFocusedElement (at_index (l1 ++ l2) 0)
                 (updateTabIndex options None (at_index (l1 ++ l2) 0)
                    (set_tabbableElements (l1 ++ l2) w)))
       else set_tabbableElements (l1 ++ l2) w).
Proof.
  intros Hl Hnot. unfold endFocusManagement.
  rewrite Hl, (findIndex_first_occurrence _ _ _ Hnot).
  replace (0 <=? Z.of_nat (length l1)) with true
    by (symmetry; apply Z.leb_le; lia).
  unfold splice_remove. rewrite Nat2Z.id, delete_middle.
  unfold getAttribute. cbn [attributes set_tabbableElements tabbableElements].
  destruct (bool_decide (attributes w !! (element, "tabindex") = Some "0")
            && (0 <? len (l1 ++ l2)));
    [|reflexivity].
  unfold updateTabIndex. destruct (activeDescendantControl options);
    destruct (at_index (l1 ++ l2) 0); reflexivity.
Qed.

(** Retiring a tracked element that occurs once: what is left. *)
Lemma end_of_single element l1 l2 w :
  tabbableElements w = l1 ++ element :: l2 ->
  element ∉ l1 -> element ∉ l2 ->
  let w1 := endFocusManagement options element w in
  tabbableElements w1 = l1 ++ l2
  /\ savedTabIndex w1 !! element = None
  /\ getAttribute element "tabindex" w1 = getAttribute element "tabindex" w.
Proof.
  intros Hl Hn1 Hn2 w1. subst w1. rewrite (end_of_tracked element l1 l2 w Hl Hn1).
  unfold updateTabIndex, getAttribute.
  destruct (bool_decide _ && _).
  - assert (Hfirst : forall first, at_index (l1 ++ l2) 0 = Some first ->
                                   first <> element).
    { intros first Hf ->. unfold at_index in Hf. cbn in Hf.
      apply list_elem_of_lookup_2 in Hf.
      apply elem_of_app in Hf as [Hf|Hf]; contradiction. }
    destruct (activeDescendantControl options);
      destruct (at_index (l1 ++ l2) 0) as [first|] eqn:Hf; cbn;
      (split; [reflexivity|]); (split; [apply lookup_delete_eq|]);
      try reflexivity.
    unfold setAttribute. cbn. apply lookup_insert_ne.
    specialize (Hfirst first eq_refl). congruence.
  - cbn. split; [reflexivity|]. split; [apply lookup_delete_eq|reflexivity].
Qed.

(** X17: an element under management that is removed from the document is
    retired; when it is put back, the observer offers it again because it
    was seen before, whether or not the platform still counts it as
    focusable.  It is then tracked again exactly when the filter accepts it
    in the document of that moment, and the value saved for it is the
    tabindex the engine left on it, not the value saved at the first
    offer. *)
Theorem detached_element_is_tracked_again e l1 l2 old w :
  tabbableElements w = l1 ++ e :: l2 ->
  e ∉ l1 -> e ∉ l2 ->
  savedTabIndex w !! e = Some old ->
  e ∈ allSeenTabbableElements w ->
  let w1 := observerCallback P options [mkMutation [] [e]] w in
  let w2 := observerCallback P options [mkMutation [e] []] w1 in
  tabbableElements w1 = l1 ++ l2
  /\ savedTabIndex w1 !! e = None
  /\ (passesFilter options (attributes w1) e = true ->
      tabbableElements w2 ≡ₚ e :: l1 ++ l2
      /\ savedTabIndex w2 !! e = Some (getAttribute e "tabindex" w)
      /\ getAttribute e "tabindex" w2 = Some "-1")
  /\ (passesFilter options (attributes w1) e = false -> w2 = w1).
Proof.
  intros Hl Hn1 Hn2 Hsaved Hseen w1 w2.
  assert (E1 : w1 = endFocusManagement options e w).
  { subst w1. unfold observerCallback, observeMutation.
    cbn [fold_left addedNodes removedNodes].
    rewrite bool_decide_eq_true_2 by (rewrite Hsaved; eauto). reflexivity. }
  destruct (end_of_single e l1 l2 w Hl Hn1 Hn2) as (Ht & Hs & Ha).
  rewrite <- E1 in Ht, Hs, Ha.
  assert (Hseen1 : e ∈ allSeenTabbableElements w1)
    by (rewrite E1, end_seen; exact Hseen).
  assert (E2 : w2 = beginFocusManagement P options [e] w1).
  { subst w2. unfold observerCallback, observeMutation.
    cbn [fold_left addedNodes removedNodes].
    rewrite (bool_decide_eq_true_2 _ Hseen1), orb_true_r. reflexivity. }
  clearbody w1 w2. subst w2.
  split; [exact Ht|]. split; [exact Hs|]. split.
  - intros Hpass. split; [|split].
    + rewrite (begin_permutation [e] w1). cbn [List.filter].
      rewrite Hpass, Ht. reflexivity.
    + unfold beginFocusManagement. cbn [List.filter]. rewrite Hpass.
      rewrite manage_saved.
      rewrite bool_decide_eq_true_2 by apply list_elem_of_here.
      cbn [savedTabIndex set_tabbableElements]. rewrite Hs.
      unfold getAttribute in *. cbn [attributes set_tabbableElements].
      rewrite Ha. reflexivity.
    + unfold beginFocusManagement. cbn [List.filter]. rewrite Hpass.
      rewrite manage_tabindex.
      rewrite bool_decide_eq_true_2 by apply list_elem_of_here. reflexivity.
  - intros Hfail. unfold beginFocusManagement. cbn [List.filter].
    rewrite Hfail. reflexivity.
Qed.

Lemma take_insertion_not_in (e : HTMLElement) i l :
  e ∉ l -> e ∉ take i l.
Proof.
  intros H Hin. apply H. eapply elem_of_sublist; [exact Hin|apply sublist_take].
Qed.

(** X18: offering an element that is not tracked and retiring it again
    restores the collection, the current element and the index, and drops
    the saved value; the tabindex "-1" the offer wrote stays. *)
Theorem offer_then_retire e w :
  e ∉ tabbableElements w ->
  passesFilter options (attributes w) e = true ->
  let w' := endFocusManagement options e (beginFocusManagement P options [e] w) in
  tabbableElements w' = tabbableElements w
  /\ currentFocusedElement w' = currentFocusedElement w
  /\ currentFocusedIndex w' = currentFocusedIndex w
  /\ savedTabIndex w' !! e = None
  /\ getAttribute e "tabindex" w' = Some "-1".
Proof.
  intros Hnot Hpass w'. subst w'.
  set (v := beginFocusManagement P options [e] w).
  assert (Hl : tabbableElements v
               = take (Z.to_nat (insertionPoint P e (tabbableElements w)))
                   (tabbableElements w)
                 ++ e :: drop (Z.to_nat (insertionPoint P e (tabbableElements w)))
                          (tabbableElements w)).
  { subst v. rewrite begin_tabbable. simpl. rewrite Hpass. reflexivity. }
  assert (Hattr : getAttribute e "tabindex" v = Some "-1").
  { subst v. unfold beginFocusManagement. simpl. rewrite Hpass. simpl.
    unfold manageElement, getAttribute, setAttribute.
    destruct (savedTabIndex _ !! e); simpl; apply lookup_insert_eq. }
  assert (Hcur : currentFocusedElement v = currentFocusedElement w
                 /\ currentFocusedIndex v = currentFocusedIndex w).
  { subst v. unfold beginFocusManagement. simpl. rewrite Hpass. simpl.
    unfold manageElement. destruct (savedTabIndex _ !! e); split; reflexivity. }
  unfold endFocusManagement. rewrite Hl.
  rewrite (findIndex_first_occurrence e _ _
             (take_insertion_not_in e _ _ Hnot)).
  replace (0 <=? Z.of_nat (length (take (Z.to_nat
             (insertionPoint P e (tabbableElements w))) (tabbableElements w))))
    with true by (symmetry; apply Z.leb_le; lia).
  unfold splice_remove. rewrite Nat2Z.id, delete_middle, take_drop.
  unfold getAttribute in *.
  cbn [attributes set_tabbableElements tabbableElements].
  rewrite Hattr.
  rewrite (bool_decide_eq_false_2 (Some "-1" = Some "0")) by discriminate.
  cbn. destruct Hcur as [-> ->].
  repeat split; try reflexivity; [apply lookup_delete_eq|exact Hattr].
Qed.

End Bookkeeping.

(** ** Construction *)

Section Construction.
Context (P : Platform) (options : ArrowFocusOptions).

Lemma manage_other_attributes k elements w :
  (forall e, e ∈ elements -> k <> (e, "tabindex")) ->
  attributes (fold_left manageElement elements w) !! k = attributes w !! k.
Proof.
  revert w. induction elements as [|a es IH]; intros w Hk; simpl; [reflexivity|].
  rewrite IH by (intros e He; apply Hk; apply elem_of_cons; right; exact He).
  unfold manageElement, setAttribute.
  assert (Hne : (a, "tabindex") <> k)
    by (intros E; apply (Hk a); [apply list_elem_of_here|symmetry; exact E]).
  destruct (savedTabIndex w !! a); simpl; apply lookup_insert_ne; exact Hne.
Qed.

(** X19: what construction leaves behind.  The collection is the scan of
    the container, filtered; the index is 0.  In roving mode the first
    tracked element is current and is the only one with tabindex "0", all
    others carrying "-1"; in active-descendant mode nothing is current, the
    manager is suspended and every tracked element carries "-1".  No other
    attribute of the document is written. *)
Theorem construction_state dom :
  let w := arrowFocus P options dom in
  let tracked := List.filter (passesFilter options dom) (iterateFocusableElements P) in
  tabbableElements w = tracked
  /\ currentFocusedIndex w = 0
  /\ (activeDescendantOptions options = None ->
      currentFocusedElement w = head tracked
      /\ activeDescendantSuspended w = false
      /\ forall e, e ∈ tracked ->
           getAttribute e "tabindex" w
           = Some (if bool_decide (head tracked = Some e) then "0" else "-1"))
  /\ (is_Some (activeDescendantOptions options) ->
      currentFocusedElement w = None
      /\ activeDescendantSuspended w = true
      /\ forall e, e ∈ tracked -> getAttribute e "tabindex" w = Some "-1")
  /\ (forall e name, e ∉ tracked \/ name <> "tabindex" ->
      getAttribute e name w = dom !! (e, name)).
Proof.
  intros w tracked.
  set (w0 := mkWorld [] ∅ ∅ 0 false None None dom 0 [] false []).
  set (w1 := beginFocusManagement P options (iterateFocusableElements P) w0).
  assert (Ht1 : tabbableElements w1 = tracked).
  { subst w1. rewrite begin_tabbable. change (attributes w0) with dom. fold tracked.
    destruct tracked as [|first rest]; [reflexivity|].
    unfold splice_insert, insertionPoint. simpl. rewrite app_nil_r. reflexivity. }
  assert (Ha1 : forall e, e ∈ tracked -> getAttribute e "tabindex" w1 = Some "-1").
  { intros e He. subst w1. unfold beginFocusManagement.
    change (attributes w0) with dom. fold tracked.
    destruct tracked as [|first rest] eqn:E; [inversion He|].
    rewrite manage_tabindex. rewrite bool_decide_eq_true_2; [reflexivity|exact He]. }
  assert (Ho1 : forall e name, e ∉ tracked \/ name <> "tabindex" ->
                 getAttribute e name w1 = dom !! (e, name)).
  { intros e name Hen. subst w1. unfold beginFocusManagement, getAttribute.
    change (attributes w0) with dom. fold tracked.
    destruct tracked as [|first rest] eqn:E; [reflexivity|].
    rewrite manage_other_attributes; [reflexivity|].
    intros x Hx Heq. injection Heq as -> ->. destruct Hen as [Hn|Hn]; tauto. }
  assert (Hhead : at_index tracked 0 = head tracked)
    by (unfold at_index; simpl; symmetry; apply head_lookup).
  assert (Hw : w = set_listeners (registrations options)
                 (set_currentFocusedElement
                    (match activeDescendantControl options with
                     | Some _ => None
                     | None => at_index tracked 0
                     end)
                    (set_suspended
                       (match activeDescendantControl options with
                        | Some _ => true
                        | None => false
                        end)
                       (set_currentFocusedIndex 0
                          (set_observing true
                             (updateTabIndex options None (at_index tracked 0) w1)))))).
  { subst w. unfold arrowFocus. fold w0. fold w1.
    assert (Hu : forall from to v,
              tabbableElements (updateTabIndex options from to v)
              = tabbableElements v).
    { intros from to v. unfold updateTabIndex.
      destruct (activeDescendantControl options), from, to; reflexivity. }
    cbn -[updateTabIndex at_index]. rewrite Hu, Ht1. reflexivity. }
  rewrite Hw. clear Hw. unfold updateTabIndex, activeDescendantControl.
  destruct (activeDescendantOptions options) as [ado|] eqn:Had;
    cbn -[at_index]; rewrite ?Hhead.
  - split; [exact Ht1|]. split; [reflexivity|]. split; [discriminate|].
    split; [intros _; split; [reflexivity|split; [reflexivity|exact Ha1]]|].
    exact Ho1.
  - split.
    { destruct (head tracked); exact Ht1. }
    split; [destruct (head tracked); reflexivity|].
    split; [|split; [intros [? ?]; discriminate|]].
    + intros _. split; [destruct (head tracked); reflexivity|].
      split; [destruct (head tracked); reflexivity|].
      intros e He. specialize (Ha1 e He).
      destruct (head tracked) as [first|] eqn:Hd; unfold getAttribute, setAttribute in *;
        cbn [attributes set_attributes set_listeners set_currentFocusedElement
             set_suspended set_currentFocusedIndex set_observing].
      * destruct (decide (first = e)) as [->|Hne].
        -- rewrite bool_decide_eq_true_2 by reflexivity. apply lookup_insert_eq.
        -- rewrite bool_decide_eq_false_2 by congruence.
           rewrite lookup_insert_ne by congruence. exact Ha1.
      * rewrite bool_decide_eq_false_2 by discriminate. exact Ha1.
    + intros e name Hen. specialize (Ho1 e name Hen).
      destruct (head tracked) as [first|] eqn:Hd; unfold getAttribute, setAttribute in *;
        cbn [attributes set_attributes set_listeners set_currentFocusedElement
             set_suspended set_currentFocusedIndex set_observing]; [|exact Ho1].
      rewrite lookup_insert_ne; [exact Ho1|].
      intros Heq. injection Heq as E1 E2. subst e name.
      destruct Hen as [Hn|Hn]; [|tauto].
      apply Hn. apply head_Some_elem_of. exact Hd.
Qed.

End Construction.

(** ** Pointer presses and focus entry *)

Section PointerAndFocus.
Context (P : Platform) (options : ArrowFocusOptions).

Lemma findIndex_tracked (t : HTMLElement) l :
  t ∈ l ->
  0 <= findIndex (fun e => e = t) l
  /\ at_index l (findIndex (fun e => e = t) l) = Some t.
Proof.
  intros Hin. unfold findIndex.
  destruct (list_find_elem_of (fun e => e = t) l t Hin eq_refl) as [[i x] Hf].
  rewrite Hf. apply list_find_Some in Hf as (Hix & -> & _).
  split; [lia|]. unfold at_index.
  destruct (Z.ltb_spec (Z.of_nat i) 0); [lia|]. rewrite Nat2Z.id. exact Hix.
Qed.

(** X20: pointer precedence.  A pointer press on a tracked element that
    does not hold focus, followed by the focus entry on that element, makes
    it the current element at its own index whatever the focus-entry
    policy; in roving mode it takes the tab stop from the element that was
    current. *)
Theorem pointer_press_wins mev rel t w :
  mouseTarget mev = Some t ->
  Some t <> mouseActive mev ->
  t ∈ tabbableElements w ->
  let w' := focusinHandler P options (mkFocus (Some t) rel)
              (mousedownHandler mev w) in
  currentFocusedElement w' = Some t
  /\ at_index (tabbableElements w') (currentFocusedIndex w') = Some t
  /\ elementIndexFocusedByClick w' = None
  /\ (activeDescendantOptions options = None ->
      currentFocusedElement w <> Some t ->
      getAttribute t "tabindex" w' = Some "0"
      /\ forall c, currentFocusedElement w = Some c ->
                   getAttribute c "tabindex" w' = Some "-1").
Proof.
  intros Hm Hact Hin w'. subst w'.
  destruct (findIndex_tracked t _ Hin) as [Hge Hat].
  unfold mousedownHandler. rewrite Hm.
  rewrite bool_decide_eq_true_2 by exact Hact.
  unfold focusinHandler.
  cbn [focusTarget elementIndexFocusedByClick set_clickIndex tabbableElements
       currentFocusedElement].
  apply Z.leb_le in Hge. rewrite Hge. rewrite Hat.
  unfold updateTabIndex, activeDescendantControl.
  destruct (bool_decide (Some t <> currentFocusedElement w)) eqn:Hcur.
  - apply bool_decide_eq_true in Hcur.
    destruct (activeDescendantOptions options) as [ado|];
      destruct (currentFocusedElement w) as [c|] eqn:Hc; cbn;
      (split; [reflexivity|]); (split; [exact Hat|]); (split; [reflexivity|]);
      try (intros Hnone; discriminate Hnone);
      intros _ _; unfold getAttribute, setAttribute; cbn;
      (split; [apply lookup_insert_eq|]); intros c' Hc'; try discriminate Hc'.
    injection Hc' as <-.
    rewrite lookup_insert_ne by congruence. apply lookup_insert_eq.
  - apply bool_decide_eq_false in Hcur.
    cbn. split; [reflexivity|]. split; [exact Hat|]. split; [reflexivity|].
    intros _ Hne. exfalso. apply Hcur. intros E. apply Hne. symmetry. exact E.
Qed.

(** X21: a pointer press on an element that is not tracked (and does not
    hold focus) makes the next focus entry bypass the policy altogether: no
    tab stop moves, no focus is redirected and the index stays, while the
    focused element becomes the current element. *)
Theorem pointer_press_on_untracked_element mev fev t target w :
  mouseTarget mev = Some t ->
  Some t <> mouseActive mev ->
  t ∉ tabbableElements w ->
  focusTarget fev = Some target ->
  focusinHandler P options fev (mousedownHandler mev w)
  = set_currentFocusedElement (Some target) (set_clickIndex None w).
Proof.
  intros Hm Hact Hnot Hf.
  unfold mousedownHandler. rewrite Hm.
  rewrite bool_decide_eq_true_2 by exact Hact.
  rewrite (findIndex_absent t _ Hnot).
  unfold focusinHandler. rewrite Hf. reflexivity.
Qed.

(** X22: under the 'first' policy, a focus entry from outside the
    container on an element other than the first tracked one sets the index
    to 0 and calls focus() on the first tracked element; when nothing is
    tracked there is no such element and the handler fails with a
    TypeError after having set the index. *)
Theorem first_policy_from_outside target related w :
  focusInStrategy options = Some StrategyFirst ->
  elementIndexFocusedByClick w = None ->
  containerContains P related = false ->
  let w' := focusinHandler P options (mkFocus (Some target) (Some related)) w in
  (forall first rest, tabbableElements w = first :: rest -> target <> first ->
     w' = set_currentFocusedElement (Some target)
            (callFocus P first (set_currentFocusedIndex 0 w)))
  /\ (tabbableElements w = [] ->
      w' = emit UncaughtTypeError (set_currentFocusedIndex 0 w)).
Proof.
  intros Hst Hclk Hout w'. subst w'.
  unfold focusinHandler, focusInStrategyOf, cameFromOutside.
  cbn [focusTarget relatedTarget]. rewrite Hclk, Hst, Hout.
  cbn [default from_option id negb andb tabbableElements set_currentFocusedIndex].
  split.
  - intros first rest Hl Hne. rewrite Hl.
    replace (at_index (first :: rest) 0) with (Some first) by reflexivity.
    rewrite bool_decide_eq_true_2 by congruence. reflexivity.
  - intros Hl. rewrite Hl.
    replace (at_index (@nil HTMLElement) 0) with (@None HTMLElement) by reflexivity.
    rewrite bool_decide_eq_true_2 by discriminate. reflexivity.
Qed.

(** X23: in roving mode the default policy keeps the tab stop on the
    current element: if, among the tracked elements, tabindex "0" marks
    exactly the current element before a focus entry, it does so after it,
    the newly focused element being the current one. *)
Theorem previous_policy_keeps_one_tab_stop target related w :
  activeDescendantOptions options = None ->
  focusInStrategy options = None \/ focusInStrategy options = Some StrategyPrevious ->
  elementIndexFocusedByClick w = None ->
  tabStopIsCurrent w ->
  let w' := focusinHandler P options (mkFocus (Some target) related) w in
  tabStopIsCurrent w'
  /\ currentFocusedElement w' = Some target
  /\ tabbableElements w' = tabbableElements w.
Proof.
  intros Hr Hst Hclk Hinv w'. subst w'.
  unfold focusinHandler, focusInStrategyOf. cbn [focusTarget]. rewrite Hclk.
  assert (Hd : default StrategyPrevious (focusInStrategy options) = StrategyPrevious)
    by (destruct Hst as [-> | ->]; reflexivity).
  rewrite Hd. unfold updateTabIndex, activeDescendantControl. rewrite Hr.
  cbn [fmap option_fmap option_map].
  assert (Hgoal : forall u : World,
            tabbableElements u = tabbableElements w ->
            currentFocusedElement u = Some target ->
            (forall e, e <> target ->
               getAttribute e "tabindex" u
               = if bool_decide (currentFocusedElement w = Some e)
                 then Some "-1" else getAttribute e "tabindex" w) ->
            getAttribute target "tabindex" u = Some "0" ->
            tabStopIsCurrent u).
  { intros u Ht Hc Hother Htarget e He. rewrite Ht in He. rewrite Hc.
    destruct (decide (e = target)) as [->|Hne].
    - split; [reflexivity|intros _; exact Htarget].
    - rewrite (Hother e Hne). split.
      + destruct (bool_decide (currentFocusedElement w = Some e)) eqn:Hb;
          [discriminate|].
        intros H0. apply (Hinv e He) in H0.
        apply bool_decide_eq_false in Hb. contradiction.
      + intros E. congruence. }
  split; [|split; [destruct (currentFocusedElement w); reflexivity|
                   destruct (currentFocusedElement w); reflexivity]].
  apply Hgoal.
  - destruct (currentFocusedElement w); reflexivity.
  - destruct (currentFocusedElement w); reflexivity.
  - intros e Hne. unfold getAttribute, setAttribute.
    destruct (currentFocusedElement w) as [c|]; cbn.
    + rewrite lookup_insert_ne by congruence.
      destruct (decide (c = e)) as [->|Hce].
      * rewrite bool_decide_eq_true_2 by reflexivity. apply lookup_insert_eq.
      * rewrite bool_decide_eq_false_2 by congruence.
        apply lookup_insert_ne. congruence.
    + rewrite bool_decide_eq_false_2 by discriminate.
      apply lookup_insert_ne. congruence.
  - unfold getAttribute, setAttribute.
    destruct (currentFocusedElement w); cbn; apply lookup_insert_eq.
Qed.

(** X24: in roving mode retirement keeps the tab stop on the current
    element too: when the collection has no duplicates and tabindex "0"
    marks exactly the current element, this still holds after an element is
    retired (the tab stop of a retired current element passes to the new
    first element). *)
Theorem retirement_keeps_one_tab_stop element w :
  activeDescendantOptions options = None ->
  NoDup (tabbableElements w) ->
  tabStopIsCurrent w ->
  tabStopIsCurrent (endFocusManagement options element w).
Proof.
  intros Hr Hnd Hinv.
  destruct (decide (element ∈ tabbableElements w)) as [Hin|Hnot].
  - apply list_elem_of_split_l in Hin as (l1 & l2 & Hl & Hn1).
    rewrite (end_of_tracked options element l1 l2 w Hl Hn1).
    assert (Hn2 : element ∉ l1 ++ l2).
    { rewrite Hl in Hnd. apply NoDup_app in Hnd as (_ & Hd & Hnd2).
      apply NoDup_cons in Hnd2 as [Hn2 _].
      intros Hin. apply elem_of_app in Hin as [Hin|Hin]; [contradiction|].
      contradiction. }
    assert (Hsub : forall e, e ∈ l1 ++ l2 -> e ∈ tabbableElements w).
    { intros e He. rewrite Hl. apply elem_of_app in He as [He|He];
        apply elem_of_app; [left; exact He|right; apply elem_of_cons; right; exact He]. }
    unfold updateTabIndex, activeDescendantControl. rewrite Hr.
    cbn [fmap option_fmap option_map].
    destruct (bool_decide (getAttribute element "tabindex" w = Some "0")) eqn:Hz;
      cbn [andb].
    + apply bool_decide_eq_true in Hz.
      destruct (l1 ++ l2) as [|first rest] eqn:Hrest.
      * intros e He. cbn in He. inversion He.
      * replace (0 <? len (first :: rest)) with true
          by (symmetry; apply Z.ltb_lt; unfold len; simpl; lia).
        replace (at_index (first :: rest) 0) with (Some first) by reflexivity.
        intros e He. cbn in He. unfold getAttribute, setAttribute. cbn.
        destruct (decide (e = first)) as [->|Hne].
        -- rewrite lookup_insert_eq. split; reflexivity.
        -- rewrite lookup_insert_ne by congruence. split.
           ++ intros H0.
              apply (Hinv e (Hsub e He)) in H0.
              apply (Hinv element) in Hz;
                [|rewrite Hl; apply elem_of_app; right; apply list_elem_of_here].
              exfalso. apply Hn2.
              replace element with e by congruence. exact He.
           ++ intros E. congruence.
    + apply bool_decide_eq_false in Hz.
      intros e He. cbn in He. apply (Hinv e (Hsub e He)).
  - unfold endFocusManagement. rewrite (findIndex_absent _ _ Hnot). cbn.
    intros e He. apply (Hinv e He).
Qed.

End PointerAndFocus.

(** ** Designation in active-descendant mode *)

Section Designation.
Context (P : Platform) (options : ArrowFocusOptions) (ado : ActiveDescendantOptions).
Hypothesis Had : activeDescendantOptions options = Some ado.

Abbreviation control := (controllingElement ado).

Lemma control_of_options : activeDescendantControl options = Some control.
Proof. unfold activeDescendantControl. rewrite Had. reflexivity. Qed.

Lemma frame_refl w : designationFrame control w w.
Proof.
  split; [reflexivity|]. split; [reflexivity|].
  exists []. split; [reflexivity|]. intros e [].
Qed.

Lemma frame_trans w1 w2 w3 :
  designationFrame control w1 w2 -> designationFrame control w2 w3 ->
  designationFrame control w1 w3.
Proof.
  intros (T1 & A1 & n1 & E1 & F1) (T2 & A2 & n2 & E2 & F2).
  split; [congruence|]. split.
  - intros e name Hk Hid. rewrite <- (A1 e name Hk Hid). apply A2; [exact Hk|].
    intros ->. unfold elementId.
    change (attributes w2 !! (e, "id")) with (getAttribute e "id" w2).
    rewrite (A1 e "id" Hk Hid). apply Hid. reflexivity.
  - exists (n2 ++ n1). split.
    + unfold emitted in *. rewrite E2, E1. apply app_assoc.
    + intros e Hin. apply in_app_or in Hin as [Hin|Hin];
        [exact (F2 e Hin)|exact (F1 e Hin)].
Qed.

Lemma frame_index k w : designationFrame control w (set_currentFocusedIndex k w).
Proof.
  split; [reflexivity|]. split; [reflexivity|].
  exists []. split; [reflexivity|]. intros e [].
Qed.

Lemma frame_resume w : designationFrame control w (set_suspended false w).
Proof.
  split; [reflexivity|]. split; [reflexivity|].
  exists []. split; [reflexivity|]. intros e [].
Qed.

Lemma frame_consumed w : designationFrame control w (emit PreventDefault w).
Proof.
  split; [reflexivity|]. split; [reflexivity|].
  exists [PreventDefault]. split; [reflexivity|].
  intros e [H|[]]. discriminate H.
Qed.

Lemma frame_suspend w : designationFrame control w (suspendActiveDescendant options w).
Proof.
  unfold suspendActiveDescendant, activeDescendantCallback.
  rewrite control_of_options, Had.
  split; [destruct (onActiveDescendantChanged ado); reflexivity|]. split.
  - intros e name Hk _. unfold getAttribute, removeAttribute.
    destruct (onActiveDescendantChanged ado); cbn;
      apply lookup_delete_ne; congruence.
  - destruct (onActiveDescendantChanged ado).
    + eexists [_]. split; [reflexivity|]. intros e [H|[]]. discriminate H.
    + exists []. split; [reflexivity|]. intros e [].
Qed.

Lemma frame_designate from to w :
  designationFrame control w (setActiveDescendant P options from to w).
Proof.
  unfold setActiveDescendant, activeDescendantCallback.
  rewrite control_of_options, Had.
  split; [destruct (String.eqb (elementId to w) "");
          destruct (onActiveDescendantChanged ado); reflexivity|].
  split.
  - intros e name Hk Hid. unfold getAttribute, setAttribute.
    destruct (String.eqb (elementId to w) "") eqn:Hempty;
      destruct (onActiveDescendantChanged ado); cbn;
      rewrite lookup_insert_ne by congruence; try reflexivity;
      apply lookup_insert_ne; intros Heq; injection Heq as E1 E2; subst e name;
      apply String.eqb_eq in Hempty; exact (Hid eq_refl Hempty).
  - destruct (String.eqb (elementId to w) "");
      destruct (onActiveDescendantChanged ado);
      first [ eexists [_]; split; [reflexivity|]; intros e [H|[]]; discriminate H
            | exists []; split; [reflexivity|]; intros e [] ].
Qed.

Lemma frame_builtin ev d toEnd w :
  designationFrame control w (fst (builtinTransition options ev d toEnd w)).
Proof.
  destruct (builtin_frame options ev d toEnd w) as [E|[_ E]]; rewrite E.
  - apply frame_index.
  - eapply frame_trans; [apply frame_suspend|apply frame_index].
Qed.

(** X25: in active-descendant mode a keydown never moves focus and never
    touches tabindex: whatever the key and the state, the collection is as
    before, no focus() call is made, and every attribute keeps its value
    except the controlling element's aria-activedescendant and the id of
    an element that had none. *)
Theorem keydown_designates_without_focusing ev w :
  designationFrame control w (keydownHandler P options ev w).
Proof.
  unfold keydownHandler.
  destruct (KEY_TO_BIT (key ev)) as [bit|]; [|apply frame_refl].
  destruct (getDirection ev) as [d|]; [|apply frame_refl].
  destruct (handlesKey P options ev bit); [|apply frame_refl].
  assert (Hres : designationFrame control w
                   (fst (resolveNext options ev d (toEndOf P ev) w))).
  { unfold resolveNext. destruct (activeDescendantSuspended w).
    - apply frame_resume.
    - destruct (overrideNext options ev d (toEndOf P ev));
        [apply frame_refl|apply frame_builtin]. }
  destruct (resolveNext options ev d (toEndOf P ev) w) as [w1 nextElement].
  cbn [fst] in Hres. rewrite control_of_options.
  assert (Hdes : designationFrame control w
                   match nextElement with
                   | Some e => setActiveDescendant P options (currentFocusedElement w1) e w1
                   | None => w1
                   end).
  { destruct nextElement; [|exact Hres].
    eapply frame_trans; [exact Hres|apply frame_designate]. }
  destruct (negb (isTab (key ev)) || bool_decide (is_Some nextElement));
    [|exact Hdes].
  eapply frame_trans; [exact Hdes|apply frame_consumed].
Qed.

Lemma suspend_keeps_index w :
  currentFocusedIndex (suspendActiveDescendant options w) = currentFocusedIndex w.
Proof.
  unfold suspendActiveDescendant, activeDescendantCallback.
  rewrite control_of_options, Had.
  destruct (onActiveDescendantChanged ado); reflexivity.
Qed.

(** X26: losing and regaining the designation.  After focus has left the
    controlling element, the next keypress the handler acts on - of any
    direction - designates the element at the index the manager had before
    the focus left: it is the current element again, the controlling
    element names its id, and the index has not moved. *)
Theorem focusout_then_keypress_restores ev bit e w :
  KEY_TO_BIT (key ev) = Some bit ->
  handlesKey P options ev bit = true ->
  at_index (tabbableElements w) (currentFocusedIndex w) = Some e ->
  let w' := keydownHandler P options ev (focusoutHandler options w) in
  currentFocusedElement w' = Some e
  /\ currentFocusedIndex w' = currentFocusedIndex w
  /\ activeDescendantSuspended w' = false
  /\ tabbableElements w' = tabbableElements w
  /\ getAttribute control "aria-activedescendant" w' = Some (elementId e w').
Proof.
  intros Hb Hh He w'. subst w'. unfold focusoutHandler.
  destruct (suspend_shape options w) as (Ht & _ & _ & Hs & _).
  pose proof (suspend_keeps_index w) as Hi.
  set (v := suspendActiveDescendant options w) in *.
  assert (Hd : is_Some (getDirection ev)).
  { unfold getDirection. destruct (isTab (key ev) && shiftKey ev); [eauto|].
    unfold KEY_TO_BIT in Hb. unfold KEY_TO_DIRECTION.
    destruct (assoc (key ev) keyTable); [eauto|discriminate Hb]. }
  destruct Hd as [d Hd].
  unfold keydownHandler. rewrite Hb, Hd, Hh.
  unfold resolveNext. rewrite Hs.
  cbn [tabbableElements currentFocusedIndex set_suspended].
  rewrite Ht, Hi, He. rewrite control_of_options.
  replace (negb (isTab (key ev)) || bool_decide (is_Some (Some e))) with true
    by (rewrite orb_true_r; reflexivity).
  unfold setActiveDescendant, activeDescendantCallback.
  rewrite control_of_options, Had.
  unfold elementId, getAttribute, setAttribute.
  cbn [attributes set_suspended].
  destruct (String.eqb (default "" (attributes v !! (e, "id"))) "") eqn:Hid;
    destruct (onActiveDescendantChanged ado); cbn;
    rewrite ?lookup_insert_eq;
    rewrite ?(lookup_insert_ne _ (control, "aria-activedescendant") (e, "id"))
      by congruence;
    rewrite ?lookup_insert_eq; cbn;
    (split; [reflexivity|]); (split; [exact Hi|]); (split; [reflexivity|]);
    (split; [exact Ht|]); reflexivity.
Qed.

End Designation.

(** ** The mutation observer's guards *)

Section Observer.
Context (P : Platform) (options : ArrowFocusOptions).

(** X27: the observer acts on known nodes only.  A record whose added
    nodes are neither focusable nor seen before, and whose removed nodes
    were never taken under management, leaves the whole state as it was. *)
Theorem observer_ignores_unknown_nodes added removed w :
  (forall e, In e added ->
     isFocusable P e (attributes w) = false /\ e ∉ allSeenTabbableElements w) ->
  (forall e, In e removed -> savedTabIndex w !! e = None) ->
  observerCallback P options [mkMutation added removed] w = w.
Proof.
  intros Ha Hr. unfold observerCallback, observeMutation.
  cbn [fold_left addedNodes removedNodes].
  assert (E1 : fold_left
                 (fun w addedNode =>
                    if isFocusable P addedNode (attributes w)
                       || bool_decide (addedNode ∈ allSeenTabbableElements w)
                    then beginFocusManagement P options [addedNode] w else w)
                 added w = w).
  { induction added as [|a l IH]; [reflexivity|]. cbn [fold_left].
    destruct (Ha a (or_introl eq_refl)) as [Hf Hs].
    rewrite Hf, (bool_decide_eq_false_2 _ Hs). cbn [orb].
    apply IH. intros e He. apply Ha. right. exact He. }
  rewrite E1.
  induction removed as [|r l IH]; [reflexivity|]. cbn [fold_left].
  rewrite (Hr r (or_introl eq_refl)).
  rewrite bool_decide_eq_false_2 by (intros [x Hx]; discriminate Hx).
  apply IH. intros e He. apply Hr. right. exact He.
Qed.

End Observer.

(** ** The further properties at the sample document *)

Ltac by_decision :=
  match goal with
  | |- ?G => refine (bool_decide_eq_true_1 G _); vm_compute; reflexivity
  end.
Ltac by_refutation :=
  match goal with
  | |- ~ ?G => refine (bool_decide_eq_false_1 G _); vm_compute; reflexivity
  end.

Lemma platform_is_quiet focusable : quietFocus (platform focusable).
Proof. intros e w. repeat split; reflexivity. Qed.

Lemma sample_tab_stop :
  tabStopIsCurrent (arrowFocus (platform [item1; item2]) roving noAttributes).
Proof.
  intros e He. apply list_elem_of_In in He. vm_compute in He.
  destruct He as [<-|[<-|[]]]; split; intros H;
    first [by_computation | vm_compute in H; discriminate H].
Qed.

(** The group JK binds j, with direction next. *)
Lemma groups_bind_their_keys_witness : boundWith KeyBits.JK "j" next.
Proof.
  apply (groups_bind_their_keys KeyBits.JK [("j", next); ("k", previous)] "j" next).
  - vm_compute. tauto.
  - left. reflexivity.
Defined.

(** Without options, Home is bound. *)
Lemma default_bindings_witness : exists d, boundWith (bindKeysOf roving) "Home" d.
Proof.
  apply (default_bindings roving "Home" eq_refl). vm_compute. tauto.
Defined.

(** ArrowDown with no active element is not suppressed. *)
Lemma no_suppression_outside_form_fields_witness :
  shouldIgnoreFocusHandling false arrowDown None = false.
Proof.
  exact (no_suppression_outside_form_fields false arrowDown None (or_introl eq_refl)).
Defined.

(** Tab in a text field is not suppressed. *)
Lemma tab_is_never_suppressed_witness :
  shouldIgnoreFocusHandling false (keyIn "Tab" textField) textField = false.
Proof.
  exact (tab_is_never_suppressed false (keyIn "Tab" textField) textField eq_refl).
Defined.

(** The letter j in a text field is suppressed. *)
Lemma typing_keys_are_suppressed_witness :
  shouldIgnoreFocusHandling false (keyIn "j" textField) textField = true.
Proof.
  destruct (typing_keys_are_suppressed false (keyIn "j" textField) textField)
    as [H _].
  apply H; [reflexivity|left; reflexivity].
Defined.

(** Caret at the start of a text field holding three characters:
    ArrowLeft is handled, ArrowRight is suppressed. *)
Lemma arrows_in_text_input_witness :
  shouldIgnoreFocusHandling false (keyIn "ArrowLeft" textField) textField = false
  /\ shouldIgnoreFocusHandling false (keyIn "ArrowRight" textField) textField = true.
Proof.
  split.
  - destruct (arrows_in_text_input false (keyIn "ArrowLeft" textField) input 0 0 3)
      as [H _].
    exact (H eq_refl).
  - destruct (arrows_in_text_input false (keyIn "ArrowRight" textField) input 0 0 3)
      as (_ & H & _).
    exact (H eq_refl).
Defined.

(** Caret at the start of a text area: ArrowUp is handled, PageDown is
    suppressed. *)
Lemma arrows_in_text_area_witness :
  shouldIgnoreFocusHandling false (keyIn "ArrowUp" textArea) textArea = false
  /\ shouldIgnoreFocusHandling false (keyIn "PageDown" textArea) textArea = true.
Proof.
  split.
  - destruct (arrows_in_text_area false (keyIn "ArrowUp" textArea) input 0 0 3)
      as [H _].
    exact (H eq_refl).
  - destruct (arrows_in_text_area false (keyIn "PageDown" textArea) input 0 0 3)
      as (_ & _ & H).
    exact (H (or_intror eq_refl)).
Defined.

(** Three items, ArrowDown on the first: a valid index and a destination. *)
Lemma transition_yields_valid_index_witness :
  let w := arrowFocus (platform [item1; item2; item3]) roving noAttributes in
  let r := builtinTransition roving arrowDown next false w in
  0 <= currentFocusedIndex (fst r) < len (tabbableElements w)
  /\ is_Some (snd r).
Proof.
  intros w r.
  destruct (transition_yields_valid_index roving arrowDown next false w) as [Hi Hs].
  - by_computation.
  - split; [exact Hi|]. apply Hs. by_computation.
Defined.

(** Three items, ArrowDown on the first: the destination, item 2, is
    tracked. *)
Lemma destination_is_tracked_witness :
  let w := arrowFocus (platform [item1; item2; item3]) roving noAttributes in
  item2 ∈ tabbableElements w.
Proof.
  intros w.
  apply (destination_is_tracked roving arrowDown next false w item2).
  - reflexivity.
  - by_computation.
Defined.

(** Three items without wrap: five presses of ArrowDown end on the last. *)
Lemma next_presses_without_wrap_witness :
  let P := platform [item1; item2; item3] in
  let w := arrowFocus P roving noAttributes in
  currentFocusedIndex (presses P roving arrowDown 5 w) = 2.
Proof.
  intros P w.
  assert (H : currentFocusedIndex (presses P roving arrowDown 5 w)
              = Z.min (currentFocusedIndex w + Z.of_nat 5)
                  (len (tabbableElements w) - 1)).
  { apply (next_presses_without_wrap P roving (platform_is_quiet _) arrowDown 2 5 w).
    - by_computation.
    - by_computation.
    - by_computation.
    - by_computation.
    - by_computation.
    - by_computation.
    - by_computation.
    - split; by_computation. }
  rewrite H. by_computation.
Defined.

(** Three items with wrap: four presses of ArrowDown end on the second. *)
Lemma next_presses_with_wrap_witness :
  let P := platform [item1; item2; item3] in
  let w := arrowFocus P rovingWrapAll noAttributes in
  currentFocusedIndex (presses P rovingWrapAll arrowDown 4 w) = 1.
Proof.
  intros P w.
  assert (H : currentFocusedIndex (presses P rovingWrapAll arrowDown 4 w)
              = (currentFocusedIndex w + Z.of_nat 4) mod len (tabbableElements w)).
  { apply (next_presses_with_wrap P rovingWrapAll (platform_is_quiet _)
             arrowDown 2 4 w).
    - by_computation.
    - by_computation.
    - by_computation.
    - by_computation.
    - by_computation.
    - by_computation.
    - by_computation.
    - split; by_computation. }
  rewrite H. by_computation.
Defined.

(** Three items with wrap: ArrowDown then ArrowUp on the last item, which
    wraps to the first and back. *)
Lemma next_then_previous_with_wrap_witness :
  let P := platform [item1; item2; item3] in
  let w := run P rovingWrapAll (arrowFocus P rovingWrapAll noAttributes)
             [KeyDown arrowDown; KeyDown arrowDown] in
  currentFocusedIndex w = 2
  /\ currentFocusedIndex
       (keydownHandler P rovingWrapAll arrowUp
          (keydownHandler P rovingWrapAll arrowDown w))
     = currentFocusedIndex w.
Proof.
  intros P w. split; [by_computation|].
  apply (next_then_previous_with_wrap P rovingWrapAll (platform_is_quiet _)
           arrowDown arrowUp 2 2 w).
  - by_computation.
  - by_computation.
  - by_computation.
  - by_computation.
  - by_computation.
  - by_computation.
  - by_computation.
  - by_computation.
  - by_computation.
  - by_computation.
  - by_computation.
  - by_computation.
  - by_computation.
  - split; by_computation.
Defined.

(** Three items: End on the first item gives the last index. *)
Lemma boundary_keys_witness :
  let P := platform [item1; item2; item3] in
  let w := arrowFocus P roving noAttributes in
  currentFocusedIndex (keydownHandler P roving endKey w) = 2.
Proof.
  intros P w.
  destruct (boundary_keys P roving (platform_is_quiet _) endKey 16 w) as [_ H].
  - by_computation.
  - by_computation.
  - by_computation.
  - by_computation.
  - split; by_computation.
  - rewrite H; [by_computation|left; reflexivity].
Defined.

Lemma oddOnly_is_blind : documentBlind oddOnly.
Proof. intros f Hf e a a'. injection Hf as <-. reflexivity. Qed.

(** A filter that accepts odd elements: item 1, tracked after an offer of
    item 2 by the observer, passes it. *)
Lemma rejected_elements_are_never_tracked_witness :
  passesFilter oddOnly noAttributes item1 = true.
Proof.
  apply (rejected_elements_are_never_tracked (platform [item1; item2; item3])
           oddOnly oddOnly_is_blind noAttributes [[mkMutation [item2] []]] item1).
  by_decision.
Defined.

(** A filter that reads the tabindex of the element rejects, after
    construction, the elements the engine tracks: the engine itself has
    written tabindex -1 on them. *)
Example filter_reading_tabindex_rejects_tracked_elements :
  let w := arrowFocus (platform [item1; item2]) untouchedOnly noAttributes in
  tabbableElements w = [item1; item2]
  /\ passesFilter untouchedOnly noAttributes item2 = true
  /\ passesFilter untouchedOnly (attributes w) item2 = false.
Proof. by_computation. Qed.

(** Item 2 is removed from the document and put back, on a platform that
    does not count an element with tabindex -1 as focusable: it is retired,
    then tracked again, and the value saved for it is the -1 the engine
    wrote, not the absent attribute saved at construction. *)
Lemma detached_element_is_tracked_again_witness :
  let P := tabbableOnly [item1; item2] in
  let w := arrowFocus P roving noAttributes in
  let w1 := observerCallback P roving [mkMutation [] [item2]] w in
  let w2 := observerCallback P roving [mkMutation [item2] []] w1 in
  savedTabIndex w !! item2 = Some None
  /\ isFocusable P item2 (attributes w1) = false
  /\ tabbableElements w1 = [item1]
  /\ item2 ∈ tabbableElements w2
  /\ savedTabIndex w2 !! item2 = Some (Some "-1").
Proof.
  intros P w w1 w2.
  assert (Hsaved : savedTabIndex w !! item2 = Some None) by by_computation.
  destruct (detached_element_is_tracked_again P roving item2 [item1] [] None w)
    as (Ht & _ & Hagain & _).
  - by_computation.
  - by_refutation.
  - apply not_elem_of_nil.
  - exact Hsaved.
  - by_decision.
  - destruct Hagain as (Hperm & Hs & _); [reflexivity|].
    split; [exact Hsaved|]. split; [by_computation|]. split; [exact Ht|].
    split.
    + subst w2 w1. rewrite Hperm. apply list_elem_of_here.
    + etransitivity; [exact Hs|by_computation].
Defined.

(** Offering item 3 to a collection of two and retiring it again. *)
Lemma offer_then_retire_witness :
  let P := platform [item1; item2] in
  let w := arrowFocus P roving noAttributes in
  let w' := endFocusManagement roving item3 (beginFocusManagement P roving [item3] w) in
  tabbableElements w' = tabbableElements w
  /\ getAttribute item3 "tabindex" w' = Some "-1".
Proof.
  intros P w w'.
  destruct (offer_then_retire P roving item3 w) as (Ht & _ & _ & _ & Ha).
  - by_refutation.
  - reflexivity.
  - split; [exact Ht|exact Ha].
Defined.

(** Two items in roving mode: after construction the first carries the
    tab stop, the second does not. *)
Lemma construction_state_witness :
  let w := arrowFocus (platform [item1; item2]) roving noAttributes in
  getAttribute item1 "tabindex" w = Some "0"
  /\ getAttribute item2 "tabindex" w = Some "-1".
Proof.
  intros w.
  destruct (construction_state (platform [item1; item2]) roving noAttributes)
    as (_ & _ & Hroving & _ & _).
  destruct (Hroving eq_refl) as (_ & _ & Ha).
  split.
  - etransitivity; [apply (Ha item1); by_decision|by_computation].
  - etransitivity; [apply (Ha item2); by_decision|by_computation].
Defined.

(** Three items, the first current: a pointer press on item 2 and the
    focus entry that follows. *)
Lemma pointer_press_wins_witness :
  let P := platform [item1; item2; item3] in
  let w := arrowFocus P firstPolicy noAttributes in
  let w' := focusinHandler P firstPolicy (mkFocus (Some item2) (Some elsewhere))
              (mousedownHandler (mkMouse (Some item2) (Some elsewhere)) w) in
  currentFocusedElement w' = Some item2
  /\ getAttribute item2 "tabindex" w' = Some "0"
  /\ getAttribute item1 "tabindex" w' = Some "-1".
Proof.
  intros P w w'.
  destruct (pointer_press_wins P firstPolicy (mkMouse (Some item2) (Some elsewhere))
              (Some elsewhere) item2 w) as (Hc & _ & _ & Ht).
  - reflexivity.
  - discriminate.
  - by_decision.
  - destruct Ht as [H2 H1]; [reflexivity|by_computation|].
    split; [exact Hc|]. split; [exact H2|]. apply H1. by_computation.
Defined.

(** A pointer press on an element of the container that is not tracked:
    the focus entry on item 2 that follows moves no tab stop. *)
Lemma pointer_press_on_untracked_element_witness :
  let P := platform [item1; item2] in
  let w := arrowFocus P roving noAttributes in
  let w' := focusinHandler P roving (mkFocus (Some item2) None)
              (mousedownHandler (mkMouse (Some plainElement) None) w) in
  currentFocusedElement w' = Some item2
  /\ getAttribute item2 "tabindex" w' = Some "-1".
Proof.
  intros P w w'. subst w'.
  rewrite (pointer_press_on_untracked_element P roving
             (mkMouse (Some plainElement) None) (mkFocus (Some item2) None)
             plainElement item2 w).
  - split; by_computation.
  - reflexivity.
  - discriminate.
  - by_refutation.
  - reflexivity.
Defined.

(** The 'first' policy, focus arriving on item 2 from outside: focus() is
    called on item 1 and the index is 0. *)
Lemma first_policy_from_outside_witness :
  let P := platform [item1; item2] in
  let w := arrowFocus P firstPolicy noAttributes in
  let w' := focusinHandler P firstPolicy (mkFocus (Some item2) (Some elsewhere)) w in
  effects w' = FocusCall item1 :: effects w
  /\ currentFocusedIndex w' = 0.
Proof.
  intros P w w'.
  destruct (first_policy_from_outside P firstPolicy item2 elsewhere w) as [H _].
  - reflexivity.
  - by_computation.
  - by_computation.
  - subst w'. rewrite (H item1 [item2]).
    + split; by_computation.
    + by_computation.
    + discriminate.
Defined.

(** Two items, the first current: after a focus entry on item 2 the tab
    stop is on item 2 only. *)
Lemma previous_policy_keeps_one_tab_stop_witness :
  let P := platform [item1; item2] in
  let w := arrowFocus P roving noAttributes in
  let w' := focusinHandler P roving (mkFocus (Some item2) None) w in
  tabStopIsCurrent w' /\ currentFocusedElement w' = Some item2.
Proof.
  intros P w w'.
  destruct (previous_policy_keeps_one_tab_stop P roving item2 None w)
    as (Hinv & Hc & _).
  - reflexivity.
  - left. reflexivity.
  - by_computation.
  - exact sample_tab_stop.
  - split; [exact Hinv|exact Hc].
Defined.

(** Two items, the first current: after item 1 is retired the tab stop is
    on the current element still. *)
Lemma retirement_keeps_one_tab_stop_witness :
  let w := arrowFocus (platform [item1; item2]) roving noAttributes in
  tabStopIsCurrent (endFocusManagement roving item1 w).
Proof.
  intros w.
  apply (retirement_keeps_one_tab_stop roving item1 w).
  - reflexivity.
  - by_decision.
  - exact sample_tab_stop.
Defined.

(** Active-descendant mode, two items: a keydown leaves the tabindex of
    item 1 as it was. *)
Lemma keydown_designates_without_focusing_witness :
  let P := platform [item1; item2] in
  let w := arrowFocus P activeDescendant noAttributes in
  getAttribute item1 "tabindex" (keydownHandler P activeDescendant arrowDown w)
  = getAttribute item1 "tabindex" w.
Proof.
  intros P w.
  destruct (keydown_designates_without_focusing P activeDescendant listbox eq_refl
              arrowDown w) as (_ & Ha & _).
  apply Ha; [discriminate|intros H; discriminate H].
Defined.

(** Active-descendant mode, item 2 designated: focus leaves the
    controlling element, then ArrowUp designates item 2 again. *)
Lemma focusout_then_keypress_restores_witness :
  let P := platform [item1; item2] in
  let w := run P activeDescendant (arrowFocus P activeDescendant noAttributes)
             [KeyDown arrowDown; KeyDown arrowDown] in
  let w' := keydownHandler P activeDescendant arrowUp
              (focusoutHandler activeDescendant w) in
  currentFocusedElement w = Some item2
  /\ currentFocusedElement w' = Some item2
  /\ getAttribute input "aria-activedescendant" w' = Some (elementId item2 w').
Proof.
  intros P w w'.
  destruct (focusout_then_keypress_restores P activeDescendant listbox eq_refl
              arrowUp 2 item2 w) as (Hc & _ & _ & _ & Ha).
  - by_computation.
  - by_computation.
  - by_computation.
  - split; [by_computation|]. split; [exact Hc|exact Ha].
Defined.

(** A record that adds an element that is not focusable and removes one
    that was never managed changes nothing. *)
Lemma observer_ignores_unknown_nodes_witness :
  let P := strict [item1; item2] in
  let w := arrowFocus P roving noAttributes in
  observerCallback P roving [mkMutation [plainElement] [detachedElement]] w = w.
Proof.
  intros P w.
  apply (observer_ignores_unknown_nodes P roving [plainElement] [detachedElement] w).
  - intros e [<-|[]]. split; [by_computation|by_refutation].
  - intros e [<-|[]]. by_computation.
Defined.
